(** * Schedule validation and agent-side execution: a shallow embedding

    This development embeds in Rocq the schedule-validation engine of the
    cloud backend ([cloud_backend/utils/validation.py]) and the agent-side
    distribution and execution loop ([device_fleet/daemon/battery_daemon.py],
    [device_fleet/utils/validation.py], [device_fleet/utils/schedule_executor.py])
    and proves, or refutes at concrete inputs, properties of the code.

    Python values are dynamically typed, so the embedding works over a
    universe [pyval] of JSON-like values; Python exceptions are made explicit
    by the error monad [result].  Library calls whose exact behaviour matters
    ([datetime.strptime], datetime comparison and subtraction, [sorted]) are
    modelled after CPython; library calls whose exact behaviour does not
    matter ([float] on a string, [datetime.fromisoformat]) are Section
    variables, so every theorem holds whatever they return. *)

From Stdlib Require Import ZArith String Ascii List Bool Lia Floats ZifyNat.
From Stdlib Require Import Sorted Permutation.
From stdpp Require Import gmap strings list.

Set Warnings "-register-all,-inexact-float".

Open Scope string_scope.
Open Scope Z_scope.

(** ** Exceptions as values *)

(** The exception classes the modelled code can raise.  All of them derive
    from [Exception], so an [except Exception] clause catches every one. *)
Inductive exn :=
| TypeError | ValueError | KeyError | AttributeError | OverflowError.

Inductive result (A : Type) :=
| Ok (a : A)
| Raise (e : exn).
Arguments Ok {A} a.
Arguments Raise {A} e.

#[global] Instance result_ret : MRet result := @Ok.
#[global] Instance result_bind : MBind result :=
  fun A B f m => match m with Ok a => f a | Raise e => Raise e end.

Definition exn_eqb (a b : exn) : bool :=
  match a, b with
  | TypeError, TypeError | ValueError, ValueError | KeyError, KeyError
  | AttributeError, AttributeError | OverflowError, OverflowError => true
  | _, _ => false
  end.

(** [try: body except (e1, e2, ...): handler]: the handler runs only for the
    listed exception classes, every other exception propagates. *)
Definition try_except {A} (body : result A) (caught : list exn)
    (handler : exn -> result A) : result A :=
  match body with
  | Ok a => Ok a
  | Raise e => if existsb (exn_eqb e) caught then handler e else Raise e
  end.

(** [except Exception]: catches every modelled exception. *)
Definition try_except_Exception {A} (body : result A)
    (handler : exn -> result A) : result A :=
  match body with
  | Ok a => Ok a
  | Raise e => handler e
  end.

Definition is_ok {A} (r : result A) : bool :=
  match r with Ok _ => true | Raise _ => false end.

(** ** Python values *)

(** JSON-like Python values: what [json.loads] or a request body produces.
    Floats are IEEE binary64, i.e. Rocq's primitive floats. *)
Inductive pyval :=
| VNone
| VBool (b : bool)
| VInt (z : Z)
| VFloat (f : float)
| VStr (s : string)
| VList (l : list pyval)
| VDict (d : gmap string pyval).

(** [field in entry] for a dict [entry]. *)
Definition dict_has (d : gmap string pyval) (k : string) : bool :=
  match d !! k with Some _ => true | None => false end.

(** [entry.get(k)]: the value, or [None] when the key is absent. *)
Definition dict_get (d : gmap string pyval) (k : string) : pyval :=
  match d !! k with Some v => v | None => VNone end.

(** [entry[k]]: [KeyError] when the key is absent; [TypeError] when [entry]
    is not subscriptable by a string. *)
Definition py_getitem (v : pyval) (k : string) : result pyval :=
  match v with
  | VDict d => match d !! k with Some x => Ok x | None => Raise KeyError end
  | _ => Raise TypeError
  end.

(** [float(z)] for an int: round to nearest even at precision 53, and
    [OverflowError] when the rounded value is not finite. *)
Definition float_of_Z (z : Z) : result float :=
  match binary_normalize 53 1024 z 0 false with
  | S754_infinity _ => Raise OverflowError
  | sf => Ok (SF2Prim sf)
  end.

Definition float_of_bool (b : bool) : float :=
  if b then 1%float else 0%float.

(** Truthiness of a value ([if v:]). *)
Definition truthy (v : pyval) : bool :=
  match v with
  | VNone => false
  | VBool b => b
  | VInt z => negb (z =? 0)
  | VFloat f => negb (PrimFloat.eqb f 0)
  | VStr s => negb (String.eqb s "")
  | VList l => match l with [] => false | _ => true end
  | VDict d => negb (bool_decide (d = ∅))
  end.

(** ** Datetimes *)

(** A [datetime] object: its wall-clock fields as microseconds since
    0001-01-01T00:00:00, and its UTC offset in microseconds when it carries
    a [tzinfo] (an aware datetime); [None] for a naive datetime. *)
Record datetime := mk_datetime {
  dt_local : Z;
  dt_offset : option Z
}.

Definition dt_is_naive (a : datetime) : bool :=
  match dt_offset a with None => true | Some _ => false end.

(** The instant two datetimes of the same kind are ordered by: the fields
    themselves for naive ones, the fields minus the offset for aware ones. *)
Definition dt_key (a : datetime) : Z :=
  match dt_offset a with None => dt_local a | Some o => dt_local a - o end.

(** Two datetimes can be ordered or subtracted only when both are naive or
    both are aware. *)
Definition dt_same_kind (a b : datetime) : bool :=
  Bool.eqb (dt_is_naive a) (dt_is_naive b).

(** [a < b], [a <= b], [a > b], [a >= b]: [TypeError] ("can't compare
    offset-naive and offset-aware datetimes") on a naive/aware pair. *)
Definition dt_lt (a b : datetime) : result bool :=
  if dt_same_kind a b then Ok (dt_key a <? dt_key b) else Raise TypeError.
Definition dt_le (a b : datetime) : result bool :=
  if dt_same_kind a b then Ok (dt_key a <=? dt_key b) else Raise TypeError.
Definition dt_gt (a b : datetime) : result bool := dt_lt b a.
Definition dt_ge (a b : datetime) : result bool := dt_le b a.

(** [a == b] and [a != b] never raise: a naive and an aware datetime are
    simply unequal. *)
Definition dt_eq (a b : datetime) : bool :=
  dt_same_kind a b && (dt_key a =? dt_key b).
Definition dt_ne (a b : datetime) : bool := negb (dt_eq a b).

(** [a - b], a [timedelta], as a number of microseconds; [TypeError] on a
    naive/aware pair. *)
Definition dt_sub (a b : datetime) : result Z :=
  if dt_same_kind a b then Ok (dt_key a - dt_key b) else Raise TypeError.

(** Calendar arithmetic of CPython's [datetime] module. *)
Definition _is_leap (year : Z) : bool :=
  (year mod 4 =? 0) && (negb (year mod 100 =? 0) || (year mod 400 =? 0)).

Definition _days_before_year (year : Z) : Z :=
  let y := year - 1 in y * 365 + y / 4 - y / 100 + y / 400.

Definition _DAYS_IN_MONTH : list Z :=
  [31; 28; 31; 30; 31; 30; 31; 31; 30; 31; 30; 31].

Definition _days_in_month (year month : Z) : Z :=
  if (month =? 2) && _is_leap year then 29
  else nth (Z.to_nat (month - 1)) _DAYS_IN_MONTH 0.

Definition _DAYS_BEFORE_MONTH : list Z :=
  [0; 31; 59; 90; 120; 151; 181; 212; 243; 273; 304; 334].

Definition _days_before_month (year month : Z) : Z :=
  nth (Z.to_nat (month - 1)) _DAYS_BEFORE_MONTH 0
  + (if (2 <? month) && _is_leap year then 1 else 0).

Definition _ymd2ord (year month day : Z) : Z :=
  _days_before_year year + _days_before_month year month + day.

Definition US_PER_SECOND : Z := 1000000.
Definition US_PER_DAY : Z := 86400 * US_PER_SECOND.

(** [_check_date_fields] and [_check_time_fields]: the ranges outside which
    the [datetime] constructor raises [ValueError]. *)
Definition fields_ok (year month day hour minute second us : Z) : bool :=
  (1 <=? year) && (year <=? 9999) && (1 <=? month) && (month <=? 12)
  && (1 <=? day) && (day <=? _days_in_month year month)
  && (0 <=? hour) && (hour <=? 23) && (0 <=? minute) && (minute <=? 59)
  && (0 <=? second) && (second <=? 59) && (0 <=? us) && (us <=? 999999).

Definition local_us (year month day hour minute second us : Z) : Z :=
  ((((_ymd2ord year month day - 1) * 24 + hour) * 60 + minute) * 60 + second)
  * US_PER_SECOND + us.

(** [timezone(timedelta(microseconds=off))]: the offset must lie strictly
    between minus and plus 24 hours. *)
Definition offset_ok (off : Z) : bool :=
  (- US_PER_DAY <? off) && (off <? US_PER_DAY).

(** [datetime(year, month, day, hour, minute, second, us, tzinfo)]. *)
Definition datetime_new (year month day hour minute second us : Z)
    (tz : option Z) : result datetime :=
  if fields_ok year month day hour minute second us
     && match tz with None => true | Some off => offset_ok off end
  then Ok (mk_datetime (local_us year month day hour minute second us) tz)
  else Raise ValueError.

(** ** [datetime.strptime]

    CPython implements [strptime] by translating the format into a regular
    expression with one named group per directive (module [_strptime], class
    [TimeRE]), matching it against the start of the string with [re.match]
    under [re.IGNORECASE], rejecting the string when the match does not
    consume all of it, and converting the groups.  The model follows that
    implementation for the directives the validator uses, on ASCII input. *)

(** A backtracking matcher: [rmatch r s] lists, in the order a backtracking
    engine tries them, the ways [r] matches a prefix of [s]: the matched
    text, the named groups, and the rest of the string.  [re.match] returns
    the first one. *)
Inductive regex :=
| Eps
| Chr (p : ascii -> bool)
| Seq (r1 r2 : regex)
| Alt (r1 r2 : regex)
| Opt (r : regex)
| Grp (name : ascii) (r : regex).

Definition captures := list (ascii * string).

(** A match of the rest of a sequence, behind the text [m] and the groups
    [c] matched so far. *)
Definition prepend (m : string) (c : captures)
    (x : string * captures * string) : string * captures * string :=
  let '(m2, c2, s2) := x in (String.append m m2, (c ++ c2)%list, s2).

Fixpoint rmatch (r : regex) (s : string) : list (string * captures * string) :=
  match r with
  | Eps => [(EmptyString, [], s)]
  | Chr p =>
      match s with
      | String c s' => if p c then [(String c EmptyString, [], s')] else []
      | EmptyString => []
      end
  | Seq r1 r2 =>
      flat_map (fun '(m1, c1, s1) => map (prepend m1 c1) (rmatch r2 s1))
               (rmatch r1 s)
  | Alt r1 r2 => (rmatch r1 s ++ rmatch r2 s)%list
  | Opt r1 => (rmatch r1 s ++ [(EmptyString, [], s)])%list
  | Grp name r1 =>
      map (fun '(m, c, s') => (m, (name, m) :: c, s')) (rmatch r1 s)
  end.

Definition in_range (lo hi c : ascii) : bool :=
  ((N_of_ascii lo <=? N_of_ascii c) && (N_of_ascii c <=? N_of_ascii hi))%N.

Definition ascii_lower (c : ascii) : ascii :=
  if in_range "A" "Z" c then ascii_of_N (N_of_ascii c + 32) else c.

(** A literal character of the format, matched ignoring case. *)
Definition lit (c : ascii) : regex :=
  Chr (fun x => Ascii.eqb (ascii_lower x) (ascii_lower c)).
(** A character matched exactly. *)
Definition chr (c : ascii) : regex := Chr (Ascii.eqb c).
Definition rng (lo hi : ascii) : regex := Chr (in_range lo hi).
Definition dig : regex := rng "0" "9".
(** [\d{1,6}], greedy. *)
Definition dig1to6 : regex :=
  Seq dig (Opt (Seq dig (Opt (Seq dig (Opt (Seq dig (Opt (Seq dig (Opt dig))))))))).

(** The directives' regular expressions, from [TimeRE.__init__]:
    - [%Y]: [\d\d\d\d]
    - [%m]: [1[0-2]|0[1-9]|[1-9]]
    - [%d]: [3[0-1]|[1-2]\d|0[1-9]|[1-9]| [1-9]]
    - [%H]: [2[0-3]|[0-1]\d|\d]
    - [%M]: [[0-5]\d|\d]
    - [%S]: [6[0-1]|[0-5]\d|\d]
    - [%f]: [[0-9]{1,6}]
    - [%z]: [[+-]\d\d:?[0-5]\d(:?[0-5]\d(\.\d{1,6})?)?|(?-i:Z)] *)
Definition re_Y : regex := Grp "Y" (Seq dig (Seq dig (Seq dig dig))).
Definition re_m : regex :=
  Grp "m" (Alt (Seq (chr "1") (rng "0" "2"))
          (Alt (Seq (chr "0") (rng "1" "9"))
               (rng "1" "9"))).
Definition re_d : regex :=
  Grp "d" (Alt (Seq (chr "3") (rng "0" "1"))
          (Alt (Seq (rng "1" "2") dig)
          (Alt (Seq (chr "0") (rng "1" "9"))
          (Alt (rng "1" "9")
               (Seq (chr " ") (rng "1" "9")))))).
Definition re_H : regex :=
  Grp "H" (Alt (Seq (chr "2") (rng "0" "3"))
          (Alt (Seq (rng "0" "1") dig)
               dig)).
Definition re_M : regex := Grp "M" (Alt (Seq (rng "0" "5") dig) dig).
Definition re_S : regex :=
  Grp "S" (Alt (Seq (chr "6") (rng "0" "1"))
          (Alt (Seq (rng "0" "5") dig)
               dig)).
Definition re_f : regex := Grp "f" dig1to6.
Definition re_z : regex :=
  Grp "z"
    (Alt (Seq (Alt (chr "+") (chr "-"))
         (Seq dig (Seq dig (Seq (Opt (chr ":")) (Seq (rng "0" "5") (Seq dig
         (Opt (Seq (Opt (chr ":")) (Seq (rng "0" "5") (Seq dig
              (Opt (Seq (chr ".") dig1to6))))))))))))
         (chr "Z")).

Definition directive_regex (d : ascii) : option regex :=
  match d with
  | "Y"%char => Some re_Y
  | "m"%char => Some re_m
  | "d"%char => Some re_d
  | "H"%char => Some re_H
  | "M"%char => Some re_M
  | "S"%char => Some re_S
  | "f"%char => Some re_f
  | "z"%char => Some re_z
  | _ => None
  end.

(** [TimeRE.pattern]: a [%x] pair becomes the directive's group, any other
    character of the format is a literal.  [None] for a directive outside
    the modelled ones (a stray [%]). *)
Fixpoint format_regex (fmt : string) : option regex :=
  match fmt with
  | EmptyString => Some Eps
  | String "%" (String d rest) =>
      match directive_regex d, format_regex rest with
      | Some r1, Some r2 => Some (Seq r1 r2)
      | _, _ => None
      end
  | String c rest =>
      match format_regex rest with
      | Some r2 => Some (Seq (lit c) r2)
      | None => None
      end
  end.

Definition group (name : ascii) (c : captures) : option string :=
  snd <$> find (fun p => Ascii.eqb (fst p) name) c.

Definition digit_val (c : ascii) : Z := Z.of_N (N_of_ascii c) - 48.

Fixpoint all_digits (s : string) : bool :=
  match s with
  | EmptyString => true
  | String c s' => in_range "0" "9" c && all_digits s'
  end.

Fixpoint digits_value (acc : Z) (s : string) : Z :=
  match s with
  | EmptyString => acc
  | String c s' => digits_value (acc * 10 + digit_val c) s'
  end.

Fixpoint lstrip_spaces (s : string) : string :=
  match s with
  | String " " s' => lstrip_spaces s'
  | _ => s
  end.

(** [int(s)] on the text of a group: leading blanks are skipped, the rest
    must be a non-empty run of decimal digits ([ValueError] otherwise).
    Signs and underscores, which [int] also accepts, cannot occur in the
    texts the groups above match. *)
Definition py_int (s : string) : result Z :=
  let t := lstrip_spaces s in
  if negb (String.eqb t "") && all_digits t then Ok (digits_value 0 t)
  else Raise ValueError.

Fixpoint zeros (n : nat) : string :=
  match n with O => EmptyString | S k => String "0" (zeros k) end.

(** [s[i:]]. *)
Definition str_from (i : nat) (s : string) : string :=
  substring i (String.length s - i) s.

(** The conversion of the [z] group in [_strptime._strptime]: the offset in
    microseconds. *)
Definition convert_z (z0 : string) : result Z :=
  if String.eqb z0 "Z" then Ok 0
  else
    z ← (if bool_decide (String.get 3 z0 = Some ":"%char) then
           let z1 := String.append (substring 0 3 z0) (str_from 4 z0) in
           if (5 <? String.length z1)%nat then
             if bool_decide (String.get 5 z1 = Some ":"%char)
             then Ok (String.append (substring 0 5 z1) (str_from 6 z1))
             else Raise ValueError
           else Ok z1
         else Ok z0);
    hours ← py_int (substring 1 2 z);
    minutes ← py_int (substring 3 2 z);
    seconds ← (let t := substring 5 2 z in
               if String.eqb t "" then Ok 0 else py_int t);
    let gmtoff := hours * 60 * 60 + minutes * 60 + seconds in
    let gmtoff_remainder := str_from 8 z in
    gmtoff_fraction ←
      py_int (String.append gmtoff_remainder
                (zeros (6 - String.length gmtoff_remainder)));
    let off := gmtoff * US_PER_SECOND + gmtoff_fraction in
    Ok (if bool_decide (String.get 0 z = Some "-"%char) then - off else off).

(** The conversion of the [f] group: the digits padded with zeros on the
    right to six. *)
Definition convert_f (s : string) : result Z :=
  py_int (String.append s (zeros (6 - String.length s))).

(** A group converted with [int], or [dflt] when the format has no such
    directive. *)
Definition int_group (name : ascii) (c : captures) (dflt : Z) : result Z :=
  match group name c with
  | Some s => py_int s
  | None => Ok dflt
  end.

(** The conversion of the groups of a match into a datetime; a directive
    the format lacks takes its default. *)
Definition convert_groups (found : captures) : result datetime :=
  year ← int_group "Y" found 1900;
  month ← int_group "m" found 1;
  day ← int_group "d" found 1;
  hour ← int_group "H" found 0;
  minute ← int_group "M" found 0;
  second ← int_group "S" found 0;
  fraction ← match group "f" found with
             | Some s => convert_f s
             | None => Ok 0
             end;
  tz ← match group "z" found with
       | Some z => off ← convert_z z; Ok (Some off)
       | None => Ok None
       end;
  datetime_new year month day hour minute second fraction tz.

(** [datetime.strptime(data_string, format)] for a string argument:
    [ValueError] when the format does not match, when unconverted data
    remains, or when the fields are not those of a datetime. *)
Definition strptime_str (data_string format : string) : result datetime :=
  match format_regex format with
  | None => Raise ValueError
  | Some r =>
      match rmatch r data_string with
      | [] => Raise ValueError
      | (_, found, rest) :: _ =>
          if negb (String.eqb rest "") then Raise ValueError
          else convert_groups found
      end
  end.

(** [datetime.strptime] on any value: [TypeError] unless it is a [str]. *)
Definition strptime (v : pyval) (format : string) : result datetime :=
  match v with
  | VStr s => strptime_str s format
  | _ => Raise TypeError
  end.

(** ** The cloud-side validator: [ScheduleValidator] *)

(** The formats [_parse_timestamp] tries, in order. *)
Definition formats : list string :=
  [ "%Y-%m-%dT%H:%M:%SZ";
    "%Y-%m-%dT%H:%M:%S%z";
    "%Y-%m-%dT%H:%M:%S";
    "%Y-%m-%dT%H:%M:%S.%fZ";
    "%Y-%m-%dT%H:%M:%S.%f" ].

(** The loop of [_parse_timestamp]: the first format [strptime] accepts
    wins; a [ValueError] moves on to the next format, any other exception
    propagates; [ValueError] when the formats are exhausted. *)
Fixpoint try_formats (timestamp_str : pyval) (fmts : list string)
    : result datetime :=
  match fmts with
  | [] => Raise ValueError
  | fmt :: rest =>
      try_except (strptime timestamp_str fmt) [ValueError]
        (fun _ => try_formats timestamp_str rest)
  end.

Definition _parse_timestamp (timestamp_str : pyval) : result datetime :=
  try_formats timestamp_str formats.

(** *** Messages

    The validator reports problems as formatted strings.  The embedding
    keeps each message as a constructor that records which f-string produced
    it and the values interpolated into it (the entry indices in
    particular); the text of a caught exception is not recorded. *)

(** The prefix of a message: empty, ["Entry {index}: "], or
    ["Device {device_id}: "]. *)
Inductive prefix :=
| NoPrefix
| EntryPrefix (index : nat)
| DevicePrefix (device_id : string).

Inductive msg :=
| MsgEntryNotDict (p : prefix)        (* "{p}Entry must be a dictionary" *)
| MsgMissingField (p : prefix) (field : string)
                                      (* "{p}Missing required field: {field}" *)
| MsgInvalidTimestamp (p : prefix)    (* "{p}Invalid timestamp format: {e}" *)
| MsgStartNotBeforeEnd (p : prefix)   (* "{p}start_time must be before end_time" *)
| MsgIntervalTooShort (p : prefix)    (* "{p}Interval too short: minimum 1 minutes" *)
| MsgIntervalTooLong (p : prefix)     (* "{p}Interval too long: maximum 24 hours" *)
| MsgModeNotInt (p : prefix)          (* "{p}mode must be an integer" *)
| MsgModeNotAllowed (p : prefix) (got : pyval)
                                      (* "{p}mode must be one of: 1, 2 (got {mode})" *)
| MsgRateNotNumber (p : prefix)       (* "{p}rate_kw must be a number" *)
| MsgRateTooLow (p : prefix) (got : float)
                                      (* "{p}rate_kw must be >= {min} (got {rate})" *)
| MsgRateTooHigh (p : prefix) (got : float)
                                      (* "{p}rate_kw must be <= {max} (got {rate})" *)
| MsgNotAList (p : prefix)            (* "{p}Schedule must be a list" *)
| MsgEmpty (p : prefix)               (* "{p}Schedule cannot be empty" *)
| MsgInvalidTimestampAt (i : nat)     (* "Entry {i}: Invalid timestamp format - {e}" *)
| MsgOverlap (p : prefix) (idx1 idx2 : nat) (end1 start2 : datetime)
                                      (* "{p}Entries {idx1} and {idx2} overlap: {end1} > {start2}" *)
| MsgGap (p : prefix) (idx1 idx2 : nat) (gap_us : Z)
                                      (* "{p}Gap between entries {idx1} and {idx2}: {gap} seconds" *)
| MsgOverlapAdvisory (p : prefix) (idx1 idx2 : nat) (overlap_us : Z)
                                      (* "{p}Overlap between entries {idx1} and {idx2}: {..} seconds" *)
| MsgEntryInvalid (i : nat) (error : option msg)
                                      (* "Entry {i} invalid: {error}" *)
| MsgNone.                            (* the value None in place of a message *)

(** The element [errors.append(error)] appends for an [Optional[str]]. *)
Definition error_text (error : option msg) : msg := default MsgNone error.

(** The constraints a validator is built with ([ScheduleValidator.__init__]). *)
Record ScheduleValidator := {
  min_rate_kw : float;
  max_rate_kw : float;
  valid_modes : gset Z
}.

Definition MIN_RATE_KW : float := 0%float.
Definition MAX_RATE_KW : float := 1000%float.
Definition VALID_MODES : gset Z := {[ 1; 2 ]}.
Definition MIN_INTERVAL_MINUTES : Z := 1.
Definition MAX_INTERVAL_HOURS : Z := 24.

(** [ScheduleValidator(min_rate_kw, max_rate_kw, valid_modes)];
    [valid_modes or self.VALID_MODES] falls back to the default for [None]
    and for the empty set. *)
Definition ScheduleValidator_init (min_rate max_rate : float)
    (modes : option (gset Z)) : ScheduleValidator :=
  {| min_rate_kw := min_rate;
     max_rate_kw := max_rate;
     valid_modes := match modes with
                    | Some m => if decide (m = ∅) then VALID_MODES else m
                    | None => VALID_MODES
                    end |}.

(** [ScheduleValidator()], the validator the module-level convenience
    functions and the API routes use. *)
Definition default_validator : ScheduleValidator :=
  ScheduleValidator_init MIN_RATE_KW MAX_RATE_KW None.

Definition required_fields : list string :=
  ["start_time"; "end_time"; "mode"; "rate_kw"].

(** A parsed entry, as stored in [parsed_times]:
    [(start_time, end_time, i)]. *)
Definition parsed := (datetime * datetime * nat)%type.

(** The body of the [try] of [validate_schedule]: both timestamps of the
    entry, parsed again. *)
Definition entry_times (entry : pyval) : result (datetime * datetime) :=
  start_time ← (v ← py_getitem entry "start_time"; _parse_timestamp v);
  end_time ← (v ← py_getitem entry "end_time"; _parse_timestamp v);
  Ok (start_time, end_time).

Section Validator.

(** [float(s)] for a string [s]: [Some f] when Python parses [s] as a float,
    [None] when it raises [ValueError].  No property below depends on which
    strings Python accepts. *)
Variable float_of_str : string -> option float.

(** [float(v)]. *)
Definition py_float (v : pyval) : result float :=
  match v with
  | VFloat f => Ok f
  | VInt z => float_of_Z z
  | VBool b => Ok (float_of_bool b)
  | VStr s => match float_of_str s with
              | Some f => Ok f
              | None => Raise ValueError
              end
  | VNone | VList _ | VDict _ => Raise TypeError
  end.

(** The timedelta [d] (in microseconds) is shorter than [minutes] minutes,
    respectively longer than [hours] hours.  The code computes
    [d.total_seconds() / 60] and compares the float with an int; rounding
    is monotone and the thresholds differ from their neighbours by far more
    than one unit in the last place (see [duration_float_boundaries]), so
    the comparisons are those of the exact values. *)
Definition shorter_than_minutes (d minutes : Z) : bool :=
  d <? minutes * 60 * US_PER_SECOND.
Definition longer_than_hours (d hours : Z) : bool :=
  hours * 3600 * US_PER_SECOND <? d.

Definition _validate_timestamps (start_time end_time : pyval) (p : prefix)
    : result (bool * option msg) :=
  match (start_dt ← _parse_timestamp start_time;
         end_dt ← _parse_timestamp end_time;
         Ok (start_dt, end_dt)) with
  | Raise ValueError => Ok (false, Some (MsgInvalidTimestamp p))
  | Raise e => Raise e
  | Ok (start_dt, end_dt) =>
      not_before ← dt_ge start_dt end_dt;
      if (not_before : bool) then Ok (false, Some (MsgStartNotBeforeEnd p))
      else
        duration ← dt_sub end_dt start_dt;
        if shorter_than_minutes duration MIN_INTERVAL_MINUTES
        then Ok (false, Some (MsgIntervalTooShort p))
        else if longer_than_hours duration MAX_INTERVAL_HOURS
        then Ok (false, Some (MsgIntervalTooLong p))
        else Ok (true, None)
  end.

(** The integer an [int] or [bool] value denotes. *)
Definition int_value (v : pyval) : option Z :=
  match v with
  | VInt z => Some z
  | VBool b => Some (if b then 1 else 0)
  | _ => None
  end.

Definition _validate_mode (self : ScheduleValidator) (mode : pyval)
    (p : prefix) : result (bool * option msg) :=
  match int_value mode with
  | None => Ok (false, Some (MsgModeNotInt p))
  | Some z =>
      if bool_decide (z ∈ valid_modes self) then Ok (true, None)
      else Ok (false, Some (MsgModeNotAllowed p mode))
  end.

Definition _validate_rate (self : ScheduleValidator) (rate_kw : pyval)
    (p : prefix) : result (bool * option msg) :=
  match py_float rate_kw with
  | Raise ValueError | Raise TypeError => Ok (false, Some (MsgRateNotNumber p))
  | Raise e => Raise e
  | Ok rate =>
      if PrimFloat.ltb rate (min_rate_kw self)
      then Ok (false, Some (MsgRateTooLow p rate))
      else if PrimFloat.ltb (max_rate_kw self) rate
      then Ok (false, Some (MsgRateTooHigh p rate))
      else Ok (true, None)
  end.

Definition entry_prefix (index : option nat) : prefix :=
  match index with Some i => EntryPrefix i | None => NoPrefix end.

Definition validate_schedule_entry (self : ScheduleValidator) (entry : pyval)
    (index : option nat) : result (bool * option msg) :=
  let p := entry_prefix index in
  match entry with
  | VDict d =>
      match find (fun field => negb (dict_has d field)) required_fields with
      | Some field => Ok (false, Some (MsgMissingField p field))
      | None =>
          let start_time := dict_get d "start_time" in
          let end_time := dict_get d "end_time" in
          let mode := dict_get d "mode" in
          let rate_kw := dict_get d "rate_kw" in
          '(valid, error) ← _validate_timestamps start_time end_time p;
          if negb valid then Ok (false, error)
          else
            '(valid, error) ← _validate_mode self mode p;
            if negb valid then Ok (false, error)
            else
              '(valid, error) ← _validate_rate self rate_kw p;
              if negb valid then Ok (false, error)
              else Ok (true, None)
      end
  | _ => Ok (false, Some (MsgEntryNotDict p))
  end.

(** [sorted(parsed_times, key=lambda x: x[0])].  Python's sort is stable and
    orders the keys with [<] only; a comparison of a naive with an aware
    datetime raises [TypeError], and every comparison sort of a list that
    holds both kinds reaches such a comparison.  A stable insertion sort
    with the raising comparison therefore returns what [sorted] returns and
    raises when [sorted] raises. *)
Fixpoint insert_by_start (x : parsed) (l : list parsed) : result (list parsed) :=
  match l with
  | [] => Ok [x]
  | y :: l' =>
      before ← dt_lt (y.1.1) (x.1.1);
      if (before : bool)
      then r ← insert_by_start x l'; Ok (y :: r)
      else Ok (x :: y :: l')
  end.

Fixpoint sorted_by_start (l : list parsed) : result (list parsed) :=
  match l with
  | [] => Ok []
  | x :: l' => s ← sorted_by_start l'; insert_by_start x s
  end.

(** The loop of [_check_overlaps] over adjacent pairs of the sorted list. *)
Fixpoint overlaps_sweep (p : prefix) (sorted_times : list parsed)
    : result (list msg) :=
  match sorted_times with
  | (_, end1, idx1) :: (((start2, _, idx2) :: _) as rest) =>
      over ← dt_gt end1 start2;
      errors ← overlaps_sweep p rest;
      Ok (if (over : bool) then MsgOverlap p idx1 idx2 end1 start2 :: errors
          else errors)
  | _ => Ok []
  end.

Definition _check_overlaps (parsed_times : list parsed) (p : prefix)
    : result (list msg) :=
  sorted_times ← sorted_by_start parsed_times;
  overlaps_sweep p sorted_times.

(** The loop of [_check_sequential]. *)
Fixpoint sequential_sweep (p : prefix) (sorted_times : list parsed)
    : result (list msg) :=
  match sorted_times with
  | (_, end1, idx1) :: (((start2, _, idx2) :: _) as rest) =>
      w ← (if dt_ne end1 start2 then
             gap ← dt_sub start2 end1;
             if 0 <? gap then Ok [MsgGap p idx1 idx2 gap]
             else over ← dt_sub end1 start2;
                  Ok [MsgOverlapAdvisory p idx1 idx2 over]
           else Ok []);
      warnings ← sequential_sweep p rest;
      Ok (w ++ warnings)%list
  | _ => Ok []
  end.

Definition _check_sequential (parsed_times : list parsed) (p : prefix)
    : result (list msg) :=
  sorted_times ← sorted_by_start parsed_times;
  sequential_sweep p sorted_times.

(** The [for i, entry in enumerate(schedule)] loop of [validate_schedule],
    from index [i] on, with the [errors] and [parsed_times] accumulated so
    far. *)
Fixpoint validate_entries (self : ScheduleValidator) (i : nat)
    (entries : list pyval) (errors : list msg) (parsed_times : list parsed)
    : result (list msg * list parsed) :=
  match entries with
  | [] => Ok (errors, parsed_times)
  | entry :: rest =>
      '(valid, error) ← validate_schedule_entry self entry (Some i);
      if negb valid then
        validate_entries self (S i) rest
          (errors ++ [error_text error])%list
          parsed_times
      else
        match entry_times entry with
        | Ok (start_time, end_time) =>
            validate_entries self (S i) rest errors
              (parsed_times ++ [(start_time, end_time, i)])%list
        | Raise ValueError =>
            validate_entries self (S i) rest
              (errors ++ [MsgInvalidTimestampAt i])%list parsed_times
        | Raise e => Raise e
        end
  end.

Definition device_prefix (device_id : option string) : prefix :=
  match device_id with
  | Some d => if String.eqb d "" then NoPrefix else DevicePrefix d
  | None => NoPrefix
  end.

Definition validate_schedule (self : ScheduleValidator) (schedule : pyval)
    (device_id : option string) : result (bool * list msg) :=
  let p := device_prefix device_id in
  match schedule with
  | VList entries =>
      match entries with
      | [] => Ok (false, [MsgEmpty p])
      | _ =>
          '(errors, parsed_times) ← validate_entries self 0 entries [] [];
          match errors with
          | _ :: _ => Ok (false, errors)
          | [] =>
              overlap_errors ← _check_overlaps parsed_times p;
              sequential_errors ← _check_sequential parsed_times p;
              let errors := (overlap_errors ++ sequential_errors)%list in
              Ok (bool_decide (length errors = 0%nat), errors)
          end
      end
  | _ => Ok (false, [MsgNotAList p])
  end.

(** The loop of [clean_schedule]: the entries that pass
    [validate_schedule_entry], and a warning for each one that does not. *)
Fixpoint clean_entries (self : ScheduleValidator) (i : nat)
    (entries : list pyval) : result (list pyval * list msg) :=
  match entries with
  | [] => Ok ([], [])
  | entry :: rest =>
      '(valid, error) ← validate_schedule_entry self entry (Some i);
      '(cleaned, warnings) ← clean_entries self (S i) rest;
      if (valid : bool) then Ok (entry :: cleaned, warnings)
      else Ok (cleaned, MsgEntryInvalid i error :: warnings)
  end.

Definition clean_schedule (self : ScheduleValidator) (schedule : list pyval)
    (device_id : option string) : result (list pyval * list msg) :=
  '(cleaned, warnings) ← clean_entries self 0 schedule;
  match cleaned with
  | [] => Ok (cleaned, warnings)
  | _ =>
      '(valid, errors) ← validate_schedule self (VList cleaned) device_id;
      if negb valid then Ok (cleaned, (warnings ++ errors)%list)
      else Ok (cleaned, warnings)
  end.

End Validator.

(** ** The agent side *)

(** *** [validate_schedule_locally] *)

Inductive local_msg :=
| LocalNotAList                      (* "Schedule must be a list" *)
| LocalEmpty                         (* "Schedule cannot be empty" *)
| LocalNotDict (i : nat)             (* "Entry {i}: must be a dictionary" *)
| LocalMissingField (i : nat) (field : string)
                                     (* "Entry {i}: missing field {field}" *)
| LocalBadMode (i : nat) (mode : pyval)
                                     (* "Entry {i}: mode must be 1 or 2 (got {mode})" *)
| LocalBadRate (i : nat) (rate : pyval).
                                     (* "Entry {i}: rate_kw must be between 0 and 1000 (got {rate})" *)

(** [v == n] for an int literal [n] that a float represents exactly. *)
Definition py_eq_int (v : pyval) (n : Z) : bool :=
  match v with
  | VInt z => z =? n
  | VBool b => (if b then 1 else 0) =? n
  | VFloat f =>
      match float_of_Z n with
      | Ok g => PrimFloat.eqb f g
      | Raise _ => false
      end
  | _ => false
  end.

(** [not isinstance(rate, (int, float)) or rate < 0 or rate > 1000]. *)
Definition bad_rate (rate : pyval) : bool :=
  match rate with
  | VInt z => (z <? 0) || (1000 <? z)
  | VBool _ => false
  | VFloat f => PrimFloat.ltb f 0 || PrimFloat.ltb 1000 f
  | _ => true
  end.

(** The body of the loop of [validate_schedule_locally] for entry [i]: the
    errors it appends. *)
Definition local_entry_errors (i : nat) (entry : pyval) : list local_msg :=
  match entry with
  | VDict d =>
      (map (LocalMissingField i)
           (List.filter (fun field => negb (dict_has d field)) required_fields)
       ++ match d !! "mode" with
          | Some mode =>
              if negb (py_eq_int mode 1 || py_eq_int mode 2)
              then [LocalBadMode i mode] else []
          | None => []
          end
       ++ match d !! "rate_kw" with
          | Some rate => if bad_rate rate then [LocalBadRate i rate] else []
          | None => []
          end)%list
  | _ => [LocalNotDict i]
  end.

Fixpoint local_errors_from (i : nat) (entries : list pyval) : list local_msg :=
  match entries with
  | [] => []
  | entry :: rest =>
      (local_entry_errors i entry ++ local_errors_from (S i) rest)%list
  end.

Definition validate_schedule_locally (schedule : pyval)
    : bool * list local_msg :=
  match schedule with
  | VList [] => (false, [LocalEmpty])
  | VList entries =>
      let errors := local_errors_from 0 entries in
      (bool_decide (length errors = 0%nat), errors)
  | _ => (false, [LocalNotAList])
  end.

(** *** [ScheduleExecutor] *)

(** [rate_kw * c] for a float constant [c]. *)
Definition py_mul_float (rate_kw : pyval) (c : float) : result pyval :=
  match rate_kw with
  | VFloat f => Ok (VFloat (PrimFloat.mul f c))
  | VInt z => f ← float_of_Z z; Ok (VFloat (PrimFloat.mul f c))
  | VBool b => Ok (VFloat (PrimFloat.mul (float_of_bool b) c))
  | VNone | VStr _ | VList _ | VDict _ => Raise TypeError
  end.

Definition _execute_discharge (rate_kw : pyval) : result pyval :=
  py_mul_float rate_kw 0.98%float.

Definition _execute_charge (rate_kw : pyval) : result pyval :=
  py_mul_float rate_kw 0.97%float.

(** [execute_command]: the [try] body, and the [except Exception] clause
    that turns every exception into [(False, None)]. *)
Definition execute_command (mode rate_kw : pyval)
    : result (bool * option pyval) :=
  try_except_Exception
    (actual_rate ← (if py_eq_int mode 1 then _execute_discharge rate_kw
                    else if py_eq_int mode 2 then _execute_charge rate_kw
                    else Raise ValueError);
     Ok (true, Some actual_rate))
    (fun _ => Ok (false, None)).

(** *** [BatteryDaemon] *)

(** A row of the [schedules] table of the local database. *)
Record schedule_row := {
  row_device_id : string;
  row_schedule_data : pyval;
  row_status : string
}.

(** The state of the daemon that the modelled methods read and write: the
    in-memory schedule ([VNone] for [None]) and the [schedules] table. *)
Record BatteryDaemon := {
  device_id : string;
  current_schedule : pyval;
  schedules : list schedule_row
}.

Definition BatteryDaemon_init (device : string) : BatteryDaemon :=
  {| device_id := device; current_schedule := VNone; schedules := [] |}.

(** The [UPDATE ... SET status = 'inactive' WHERE device_id = ? AND status =
    'active'] statement. *)
Definition deactivate (device : string) (r : schedule_row) : schedule_row :=
  if String.eqb (row_device_id r) device && String.eqb (row_status r) "active"
  then {| row_device_id := row_device_id r;
          row_schedule_data := row_schedule_data r;
          row_status := "inactive" |}
  else r.

(** [_store_schedule]: both statements and the commit when the database
    works ([db_ok]); a [sqlite3.Error] is caught and the transaction rolled
    back, which leaves the table as it was.  (A failure of
    [sqlite3.connect] itself, which is outside the [try], is not
    modelled.)  The row keeps the schedule itself in place of its JSON
    text. *)
Definition _store_schedule (self : BatteryDaemon) (schedule : pyval)
    (db_ok : bool) : BatteryDaemon :=
  if db_ok then
    {| device_id := device_id self;
       current_schedule := current_schedule self;
       schedules :=
         (map (deactivate (device_id self)) (schedules self)
          ++ [ {| row_device_id := device_id self;
                  row_schedule_data := schedule;
                  row_status := "active" |} ])%list |}
  else self.

Definition _process_schedule (self : BatteryDaemon) (schedule : pyval)
    (db_ok : bool) : BatteryDaemon :=
  let '(is_valid, errors) := validate_schedule_locally schedule in
  if negb is_valid then self
  else
    _store_schedule
      {| device_id := device_id self;
         current_schedule := schedule;
         schedules := schedules self |}
      schedule db_ok.

(** The active schedule of a device in the table, newest first. *)
Definition stored_active (self : BatteryDaemon) : list pyval :=
  map row_schedule_data
    (List.filter (fun r => String.eqb (row_device_id r) (device_id self)
                      && String.eqb (row_status r) "active")
            (rev (schedules self))).

(** One call of the executor: the entry's index, the arguments passed to
    [execute_command] and what it returned. *)
Record dispatch := {
  d_index : nat;
  d_mode : pyval;
  d_rate_kw : pyval;
  d_success : bool;
  d_actual_rate : option pyval
}.

(** [s.replace("Z", "+00:00")]. *)
Fixpoint replace_Z (s : string) : string :=
  match s with
  | EmptyString => EmptyString
  | String c s' =>
      if Ascii.eqb c "Z" then String.append "+00:00" (replace_Z s')
      else String c (replace_Z s')
  end.

Section Daemon.

(** [datetime.fromisoformat] on a string.  Which strings it accepts depends
    on the Python version; the properties below hold for any behaviour. *)
Variable fromisoformat : string -> result datetime.

(** [datetime.fromisoformat(entry[key].replace("Z", "+00:00"))]. *)
Definition entry_time (entry : pyval) (key : string) : result datetime :=
  v ← py_getitem entry key;
  match v with
  | VStr s => fromisoformat (replace_Z s)
  | _ => Raise AttributeError
  end.

(** [start_time <= now < end_time] for the entry, both timestamps being
    parsed first. *)
Definition in_window (entry : pyval) (now : datetime) : result bool :=
  start_time ← entry_time entry "start_time";
  end_time ← entry_time entry "end_time";
  started ← dt_le start_time now;
  if (started : bool) then dt_lt now end_time else Ok false.

(** [_execute_entry]: reads [mode] and [rate_kw] and calls the executor.
    Everything after the two subscripts runs under [except Exception], and
    sending the acknowledgement catches its own exceptions. *)
Definition _execute_entry (index : nat) (entry : pyval) : result dispatch :=
  mode ← py_getitem entry "mode";
  rate_kw ← py_getitem entry "rate_kw";
  '(success, actual_rate) ←
    try_except_Exception (execute_command mode rate_kw)
      (fun _ => Ok (false, None));
  Ok {| d_index := index; d_mode := mode; d_rate_kw := rate_kw;
        d_success := success; d_actual_rate := actual_rate |}.

(** The [for i, entry in enumerate(self.current_schedule)] loop of
    [_check_and_execute] from index [i] on: the executor calls it makes.  An
    exception leaves the loop before any call is made. *)
Fixpoint scan_entries (i : nat) (entries : list pyval) (now : datetime)
    : result (list dispatch) :=
  match entries with
  | [] => Ok []
  | entry :: rest =>
      inside ← in_window entry now;
      if (inside : bool) then
        d ← _execute_entry i entry;
        Ok [d]                                  (* break *)
      else scan_entries (S i) rest now
  end.

(** [_check_and_execute] at the instant [now_us] returned by
    [datetime.utcnow()], a naive datetime. *)
Definition _check_and_execute (self : BatteryDaemon) (now_us : Z)
    : result (list dispatch) :=
  if negb (truthy (current_schedule self)) then Ok []
  else
    match current_schedule self with
    | VList entries => scan_entries 0 entries (mk_datetime now_us None)
    | _ => Raise TypeError
    end.

(** What happens to the daemon, one event at a time: an iteration of
    [_execute_schedule_loop] at some instant, or a schedule handed to
    [_process_schedule] by the poll or by the MQTT callback. *)
Inductive event :=
| Tick (now_us : Z)
| Receive (schedule : pyval) (db_ok : bool).

(** One iteration of [_execute_schedule_loop]. *)
Definition loop_iteration (self : BatteryDaemon) (now_us : Z)
    : result (list dispatch) :=
  if truthy (current_schedule self) then _check_and_execute self now_us
  else Ok [].

(** The executor calls made while the events happen.  An exception that
    escapes an iteration ends [_execute_schedule_loop]: no later tick
    dispatches anything. *)
Fixpoint run (self : BatteryDaemon) (events : list event) : list dispatch :=
  match events with
  | [] => []
  | Tick now_us :: rest =>
      match loop_iteration self now_us with
      | Ok ds => (ds ++ run self rest)%list
      | Raise _ => []
      end
  | Receive schedule db_ok :: rest =>
      run (_process_schedule self schedule db_ok) rest
  end.

(** Entry [i] of [entries] is the first one whose window contains [now]:
    the check of every earlier entry returns [False] (without raising). *)
Definition first_in_window (entries : list pyval) (now : datetime) (i : nat)
    (entry : pyval) : Prop :=
  entries !! i = Some entry
  /\ in_window entry now = Ok true
  /\ forall j e, (j < i)%nat -> entries !! j = Some e ->
                 in_window e now = Ok false.

End Daemon.

(** ** Instances of the library functions, to run examples

    The two Section variables above stand for library functions whose full
    behaviour is not modelled.  Closed examples need some instance; these
    two agree with CPython on the strings the examples use. *)

(** [float] on the decimal integers of at most 15 digits, which binary64
    represents exactly; on other strings this instance says [ValueError],
    which is what Python says of the non-numeric ones. *)
Definition float_of_digits (s : string) : option float :=
  if negb (String.eqb s "") && all_digits s && (String.length s <=? 15)%nat
  then match float_of_Z (digits_value 0 s) with
       | Ok f => Some f
       | Raise _ => None
       end
  else None.

(** [datetime.fromisoformat] on strings of the shapes
    [YYYY-MM-DDTHH:MM:SS] and [YYYY-MM-DDTHH:MM:SS+HH:MM] (or [-HH:MM]), on
    which every CPython since 3.7 agrees: a naive datetime for the first
    shape, an aware one for the second.  On other strings this instance
    says [ValueError]. *)
Fixpoint seq_of (rs : list regex) : regex :=
  match rs with
  | [] => Eps
  | r :: rs' => Seq r (seq_of rs')
  end.

Definition isoformat_regex : regex :=
  let two := Seq dig dig in
  seq_of [ Grp "Y" (Seq two two); chr "-"; Grp "m" two; chr "-"; Grp "d" two;
           chr "T"; Grp "H" two; chr ":"; Grp "M" two; chr ":"; Grp "S" two;
           Opt (Grp "z" (seq_of [Alt (chr "+") (chr "-"); two; chr ":"; two])) ].

Definition fromisoformat_basic (s : string) : result datetime :=
  match rmatch isoformat_regex s with
  | (_, found, EmptyString) :: _ => convert_groups found
  | _ => Raise ValueError
  end.

(** ** Timestamps as they are written

    The ISO-8601 variants the specification speaks of: a date and a time of
    day with zero-padded fields, optionally followed by a fraction of a
    second of one to six digits, optionally followed by [Z] or by a numeric
    UTC offset. *)

Definition digit_char (d : nat) : ascii := ascii_of_nat (48 + d).

Definition two_digits (n : nat) : string :=
  String (digit_char (n / 10)) (String (digit_char (n mod 10)) EmptyString).

Definition four_digits (n : nat) : string :=
  String (digit_char (n / 1000))
    (String (digit_char (n / 100 mod 10)) (two_digits (n mod 100))).

Fixpoint digits_string (ds : list nat) : string :=
  match ds with
  | [] => EmptyString
  | d :: ds' => String (digit_char d) (digits_string ds')
  end.

Inductive zone :=
| ZoneNone
| ZoneZ
| ZoneOffset (negative : bool) (hh mm : nat).

Record written := {
  w_year : nat;
  w_month : nat;
  w_day : nat;
  w_hour : nat;
  w_minute : nat;
  w_second : nat;
  w_fraction : list nat;      (* the digits after the point; [] for none *)
  w_zone : zone
}.

Definition render_fraction (ds : list nat) : string :=
  match ds with
  | [] => EmptyString
  | _ => String "." (digits_string ds)
  end.

Definition render_zone (z : zone) : string :=
  match z with
  | ZoneNone => EmptyString
  | ZoneZ => "Z"
  | ZoneOffset negative hh mm =>
      String (if negative then "-" else "+")%char
        (String.append (two_digits hh) (String ":" (two_digits mm)))
  end.

(** The date and the time of day, followed by [tail]. *)
Definition render_datetime (w : written) (tail : string) : string :=
  String.append (four_digits (w_year w)) (String "-"
  (String.append (two_digits (w_month w)) (String "-"
  (String.append (two_digits (w_day w)) (String "T"
  (String.append (two_digits (w_hour w)) (String ":"
  (String.append (two_digits (w_minute w)) (String ":"
  (String.append (two_digits (w_second w)) tail)))))))))).

Definition render (w : written) : string :=
  render_datetime w
    (String.append (render_fraction (w_fraction w)) (render_zone (w_zone w))).

Definition zone_ok (z : zone) : Prop :=
  match z with
  | ZoneOffset _ hh mm => (hh <= 23)%nat /\ (mm <= 59)%nat
  | _ => True
  end.

(** The fields denote a date and a time of day. *)
Definition well_formed (w : written) : Prop :=
  1 <= Z.of_nat (w_year w) <= 9999 /\ (1 <= w_month w <= 12)%nat
  /\ (1 <= w_day w)%nat
  /\ Z.of_nat (w_day w)
     <= _days_in_month (Z.of_nat (w_year w)) (Z.of_nat (w_month w))
  /\ (w_hour w <= 23)%nat /\ (w_minute w <= 59)%nat /\ (w_second w <= 59)%nat
  /\ (length (w_fraction w) <= 6)%nat
  /\ Forall (fun d => (d < 10)%nat) (w_fraction w)
  /\ zone_ok (w_zone w).

Definition has_fraction (w : written) : bool :=
  match w_fraction w with [] => false | _ => true end.
Definition has_offset (w : written) : bool :=
  match w_zone w with ZoneOffset _ _ _ => true | _ => false end.

(** The microseconds a fraction of a second denotes. *)
Definition fraction_us (ds : list nat) : Z :=
  fold_left (fun acc d => acc * 10 + Z.of_nat d) ds 0
  * 10 ^ Z.of_nat (6 - length ds).

Definition zone_offset (z : zone) : option Z :=
  match z with
  | ZoneOffset negative hh mm =>
      let off := (Z.of_nat hh * 3600 + Z.of_nat mm * 60) * US_PER_SECOND in
      Some (if negative then - off else off)
  | _ => None
  end.

(** The datetime a written timestamp denotes: naive unless it carries a
    numeric offset (a trailing [Z] is matched as a literal of the format and
    leaves the datetime naive). *)
Definition instant_of (w : written) : datetime :=
  mk_datetime
    (local_us (Z.of_nat (w_year w)) (Z.of_nat (w_month w)) (Z.of_nat (w_day w))
              (Z.of_nat (w_hour w)) (Z.of_nat (w_minute w))
              (Z.of_nat (w_second w)) (fraction_us (w_fraction w)))
    (zone_offset (w_zone w)).

(** ** Auxiliary definitions for the statements *)

(** The entry [{"start_time": s, "end_time": e, "mode": m, "rate_kw": r}]. *)
Definition make_entry (start_time end_time : string) (mode rate_kw : pyval)
    : pyval :=
  VDict (<["start_time" := VStr start_time]>
        (<["end_time" := VStr end_time]>
        (<["mode" := mode]>
        (<["rate_kw" := rate_kw]> ∅)))).

(** An entry with its two timestamps replaced, when it has them. *)
Definition retime (f g : pyval -> pyval) (entry : pyval) : pyval :=
  match entry with
  | VDict d => VDict (alter f "start_time" (alter g "end_time" d))
  | _ => entry
  end.

(** Two [start, end) intervals overlap. *)
Definition intervals_overlap (a b : datetime * datetime) : Prop :=
  dt_key a.1 < dt_key b.2 /\ dt_key b.1 < dt_key a.2.

(** The [parsed_times] of a schedule whose entries all pass, from the
    timestamps of its entries: entry [i + n] contributes
    [(start, end, i + n)]. *)
Fixpoint parsed_from (i : nat) (times : list (datetime * datetime))
    : list parsed :=
  match times with
  | [] => []
  | (s, e) :: rest => (s, e, i) :: parsed_from (S i) rest
  end.

(** How many of the executor calls were for entry [i]. *)
Definition dispatch_count (i : nat) (ds : list dispatch) : nat :=
  length (List.filter (fun d => Nat.eqb (d_index d) i) ds).

(** The float computation of [_validate_timestamps] on a timedelta of [d]
    microseconds, for [d] below 2^53: [d.total_seconds() / 60]. *)
Definition float_duration_minutes (d : Z) : float :=
  PrimFloat.div
    (PrimFloat.div (SF2Prim (binary_normalize 53 1024 d 0 false)) 1000000) 60.

(** *** Parsed entries as intervals *)

Definition start_key (x : parsed) : Z := dt_key x.1.1.
Definition end_key (x : parsed) : Z := dt_key x.1.2.
Definition original_index (x : parsed) : nat := x.2.

(** Both timestamps of the parsed entry are naive ([k = true]) or both are
    aware ([k = false]). *)
Definition of_kind (k : bool) (x : parsed) : Prop :=
  dt_is_naive x.1.1 = k /\ dt_is_naive x.1.2 = k.

Definition starts_no_later (x y : parsed) : Prop := start_key x <= start_key y.
Definition ends_before (x y : parsed) : Prop := end_key x <= start_key y.

(** Two intervals [start, end) overlap. *)
Definition overlapping (x y : parsed) : Prop :=
  start_key x < end_key y /\ start_key y < end_key x.

(** The messages of [_check_overlaps] on a sorted list, without the
    raising comparison. *)
Fixpoint adjacent_overlaps (p : prefix) (s : list parsed) : list msg :=
  match s with
  | a :: ((b :: _) as rest) =>
      if start_key b <? end_key a
      then MsgOverlap p (original_index a) (original_index b) a.1.2 b.1.1
           :: adjacent_overlaps p rest
      else adjacent_overlaps p rest
  | _ => []
  end.

(** *** The formats as regular expressions *)

(** No match of [K] starts with a digit. *)
Definition rejects_digits (K : regex) : Prop :=
  forall c s, in_range "0" "9" c = true -> rmatch K (String c s) = [].

(** The regular expression of "%Y-%m-%dT%H:%M:%S" followed by [suffix]. *)
Definition stamp_regex (suffix : regex) : regex :=
  Seq re_Y (Seq (lit "-") (Seq re_m (Seq (lit "-") (Seq re_d (Seq (lit "T")
  (Seq re_H (Seq (lit ":") (Seq re_M (Seq (lit ":") (Seq re_S suffix)))))))))).

(** The groups of a written date and time, in the order they match. *)
Definition stamp_captures (w : written) : captures :=
  [ ("Y"%char, four_digits (w_year w)); ("m"%char, two_digits (w_month w));
    ("d"%char, two_digits (w_day w)); ("H"%char, two_digits (w_hour w));
    ("M"%char, two_digits (w_minute w)); ("S"%char, two_digits (w_second w)) ].

(** A match of the suffix, behind the date and time of [w]. *)
Definition stamp_prepend (w : written) (x : string * captures * string)
    : string * captures * string :=
  let '(m, c, s) := x in (render_datetime w m, (stamp_captures w ++ c)%list, s).

(** The ranges of the fields, without the calendar. *)
Definition date_time_ok (w : written) : Prop :=
  1 <= Z.of_nat (w_year w) <= 9999 /\ (1 <= w_month w <= 12)%nat
  /\ (1 <= w_day w <= 31)%nat
  /\ (w_hour w <= 23)%nat /\ (w_minute w <= 59)%nat /\ (w_second w <= 59)%nat.

(** One to six decimal digits. *)
Definition digits_ok (ds : list nat) : Prop :=
  (1 <= length ds <= 6)%nat /\ Forall (fun d => (d < 10)%nat) ds.

(** *** The inputs of the examples *)

(** The schedule of the examples: one entry, 00:00 to 00:30 on
    2025-12-25, discharge at 100 kW; and the instant, in microseconds since
    0001-01-01, of 2025-12-25T00:00:00. *)
Definition half_hour_schedule : pyval :=
  VList [make_entry "2025-12-25T00:00:00" "2025-12-25T00:30:00"
                    (VInt 1) (VInt 100)].
Definition midnight_us : Z := 63902217600000000.

(** A daemon whose active schedule is [half_hour_schedule]. *)
Definition armed_daemon : BatteryDaemon :=
  _process_schedule (BatteryDaemon_init "RPI-001") half_hour_schedule true.

(** A submission whose only entry ends an hour before it starts. *)
Definition inverted_schedule : pyval :=
  VList [make_entry "2025-12-25T01:00:00" "2025-12-25T00:00:00"
                    (VInt 2) (VInt 50)].

(** 07:05:59.123 on 2025-12-25, written with a trailing [Z], and
    midnight of the same day written with half a second and a zero
    offset. *)
Definition written_with_Z : written :=
  {| w_year := 2025; w_month := 12; w_day := 25;
     w_hour := 7; w_minute := 5; w_second := 59;
     w_fraction := [1; 2; 3]%nat; w_zone := ZoneZ |}.

Definition written_with_fraction_and_offset : written :=
  {| w_year := 2025; w_month := 12; w_day := 25;
     w_hour := 0; w_minute := 0; w_second := 0;
     w_fraction := [5]%nat; w_zone := ZoneOffset false 0 0 |}.

(** ** The agent's other entry points

    The methods of [BatteryDaemon] through which a schedule reaches
    [_process_schedule], and the one that restores the stored schedule when
    the daemon starts. *)

(** [v.get(k, dflt)]: [AttributeError] unless [v] is a dict. *)
Definition py_get (v : pyval) (k : string) (dflt : pyval) : result pyval :=
  match v with
  | VDict d => Ok (default dflt (d !! k))
  | _ => Raise AttributeError
  end.

(** [v == s] for a string [s]. *)
Definition py_eq_str (v : pyval) (s : string) : bool :=
  match v with
  | VStr t => String.eqb t s
  | _ => false
  end.

(** [_on_mqtt_message] on the decoded payload of a message.  The whole body
    runs under [except Exception], which only logs: a payload without a
    [get] method leaves the daemon as it was (and so does a message that
    does not decode, which never reaches this point). *)
Definition _on_mqtt_message (self : BatteryDaemon) (payload : pyval)
    (db_ok : bool) : BatteryDaemon :=
  match (_ ← py_get payload "device_id" VNone;       (* the log line *)
         device ← py_get payload "device_id" VNone;
         if py_eq_str device (device_id self) then
           schedule ← py_get payload "schedule" (VList []);
           Ok (_process_schedule self schedule db_ok)
         else Ok self) with
  | Ok self' => self'
  | Raise _ => self
  end.

(** [_fetch_schedule] on the status and the decoded body of the response.
    Only a 200 response with a truthy [schedule] reaches
    [_process_schedule]; every exception is caught and logged. *)
Definition _fetch_schedule (self : BatteryDaemon) (status : Z)
    (data : pyval) (db_ok : bool) : BatteryDaemon :=
  if status =? 200 then
    match py_get data "schedule" (VList []) with
    | Ok schedule =>
        if truthy schedule then _process_schedule self schedule db_ok
        else self
    | Raise _ => self
    end
  else self.

(** [_load_cached_schedule]: the schedule of the row selected by
    [WHERE device_id = ? AND status = 'active' ORDER BY received_at DESC
    LIMIT 1], if there is one.  The rows of the model carry no
    [received_at]; the model takes the active row inserted last, which is
    the row the query returns whenever the device has at most one active
    row. *)
Definition _load_cached_schedule (self : BatteryDaemon) : BatteryDaemon :=
  match stored_active self with
  | schedule :: _ =>
      {| device_id := device_id self;
         current_schedule := schedule;
         schedules := schedules self |}
  | [] => self
  end.

(** A daemon started on the table another one left behind: [__init__]
    followed by the [_load_cached_schedule] of [start]. *)
Definition restart (self : BatteryDaemon) : BatteryDaemon :=
  _load_cached_schedule
    {| device_id := device_id self;
       current_schedule := VNone;
       schedules := schedules self |}.

(** What reaches the daemon from outside: an MQTT message, or the response
    to a poll. *)
Inductive input :=
| Mqtt (payload : pyval) (db_ok : bool)
| Polled (status : Z) (data : pyval) (db_ok : bool).

Definition handle (self : BatteryDaemon) (i : input) : BatteryDaemon :=
  match i with
  | Mqtt payload db_ok => _on_mqtt_message self payload db_ok
  | Polled status data db_ok => _fetch_schedule self status data db_ok
  end.

(** ** The input sanitizer ([cloud_backend/utils/input_sanitizer.py])

    The functions the schedule routes call before they validate a
    submission.  A string of the embedding stands for a Python string whose
    characters have code points below 256; the character classes of the
    library functions are given on that range. *)

(** [str.isspace], which is also the class [\s] of [re]. *)
Definition is_space (c : ascii) : bool :=
  let n := N_of_ascii c in
  (((9 <=? n) && (n <=? 13)) || ((28 <=? n) && (n <=? 32))
   || (n =? 133) || (n =? 160))%N.

(** The class [\w] of [re]: letters, digits of every kind, and the
    underscore. *)
Definition is_word (c : ascii) : bool :=
  let n := N_of_ascii c in
  (((48 <=? n) && (n <=? 57)) || ((65 <=? n) && (n <=? 90)) || (n =? 95)
   || ((97 <=? n) && (n <=? 122)) || (n =? 170) || (n =? 178) || (n =? 179)
   || (n =? 181) || (n =? 185) || (n =? 186) || ((188 <=? n) && (n <=? 190))
   || ((192 <=? n) && (n <=? 214)) || ((216 <=? n) && (n <=? 246))
   || (248 <=? n))%N.

Fixpoint lstrip (s : string) : string :=
  match s with
  | String c s' => if is_space c then lstrip s' else s
  | EmptyString => EmptyString
  end.

Fixpoint rstrip (s : string) : string :=
  match s with
  | EmptyString => EmptyString
  | String c s' =>
      match rstrip s' with
      | EmptyString => if is_space c then EmptyString else String c EmptyString
      | r => String c r
      end
  end.

(** [s.strip()]. *)
Definition strip (s : string) : string := rstrip (lstrip s).

(** [s.replace(c, new)] for a character [c]. *)
Fixpoint replace_char (c : ascii) (new : string) (s : string) : string :=
  match s with
  | EmptyString => EmptyString
  | String x s' =>
      if Ascii.eqb x c then String.append new (replace_char c new s')
      else String x (replace_char c new s')
  end.

Definition double_quote : ascii := ascii_of_nat 34.

(** [html.escape(s)], with [quote=True]: the five replacements of the
    library function, in its order. *)
Definition html_escape (s : string) : string :=
  let s := replace_char "&" "&amp;" s in
  let s := replace_char "<" "&lt;" s in
  let s := replace_char ">" "&gt;" s in
  let s := replace_char double_quote "&quot;" s in
  replace_char "'" "&#x27;" s.

(** *** The patterns

    Every pattern of the module is a sequence of character classes, each
    taken once or under a star, with an optional [$].  [match_items]
    matches such a sequence at the start of a string as a backtracking
    engine does and returns what follows the match: a greedy star first
    tries to take one more character, a lazy star first tries to go on. *)

Inductive quantifier :=
| Once
| Star (greedy : bool).

Inductive item :=
| Class (p : ascii -> bool) (q : quantifier)
| EndOfString.

Definition newline : ascii := ascii_of_nat 10.

Fixpoint match_items (items : list item) (s : string) : option string :=
  match items with
  | [] => Some s
  | EndOfString :: rest =>
      (* [$]: at the end, or before a newline that ends the string *)
      if String.eqb s "" || String.eqb s (String newline "")
      then match_items rest s else None
  | Class p Once :: rest =>
      match s with
      | String c s' => if p c then match_items rest s' else None
      | EmptyString => None
      end
  | Class p (Star greedy) :: rest =>
      (fix star (s : string) : option string :=
         let more := match s with
                     | String c s' => if p c then star s' else None
                     | EmptyString => None
                     end in
         if greedy then
           match more with
           | Some r => Some r
           | None => match_items rest s
           end
         else
           match match_items rest s with
           | Some r => Some r
           | None => more
           end) s
  end.

(** [re.sub(pattern, "", s)]: the leftmost match is removed and the search
    resumes behind it; [skip] counts the characters of a match still to be
    removed. *)
Fixpoint re_sub_from (items : list item) (skip : nat) (s : string) : string :=
  match s with
  | EmptyString => EmptyString
  | String c s' =>
      match skip with
      | S k => re_sub_from items k s'
      | O =>
          match match_items items s with
          | Some rest =>
              match (String.length s - String.length rest)%nat with
              | S k => re_sub_from items k s'
              | O => String c (re_sub_from items 0 s')
              end
          | None => String c (re_sub_from items 0 s')
          end
      end
  end.

Definition re_sub (items : list item) (s : string) : string :=
  re_sub_from items 0 s.

(** A character of a pattern compiled with [re.IGNORECASE]. *)
Definition ignoring_case (c : ascii) : ascii -> bool :=
  fun x => Ascii.eqb (ascii_lower x) (ascii_lower c).

Definition literal (s : string) : list item :=
  map (fun c => Class (ignoring_case c) Once) (list_ascii_of_string s).

(** [dangerous_patterns], compiled with [re.IGNORECASE | re.DOTALL]:
    - [<script[^>]*>.*?</script>]
    - [javascript:]
    - [on\w+\s*=]
    - [data:text/html]
    - [vbscript:] *)
Definition dangerous_patterns : list (list item) :=
  [ (literal "<script"
     ++ [Class (fun c => negb (Ascii.eqb c ">")) (Star true)]
     ++ literal ">"
     ++ [Class (fun _ => true) (Star false)]
     ++ literal "</script>")%list;
    literal "javascript:";
    (literal "on"
     ++ [Class is_word Once; Class is_word (Star true);
         Class is_space (Star true)]
     ++ literal "=")%list;
    literal "data:text/html";
    literal "vbscript:" ].

(** [s[:n]]. *)
Definition py_slice_to (n : Z) (s : string) : string :=
  if n <? 0 then substring 0 (Z.to_nat (Z.of_nat (String.length s) + n)) s
  else substring 0 (Z.to_nat n) s.

(** [^[A-Z0-9_-]+$]. *)
Definition device_id_char (c : ascii) : bool :=
  in_range "A" "Z" c || in_range "0" "9" c || Ascii.eqb c "_"
  || Ascii.eqb c "-".

Definition device_id_pattern : list item :=
  [Class device_id_char Once; Class device_id_char (Star true); EndOfString].

Section Sanitizer.

(** [str(v)] for a value that is not a string, [int(s)] and [float(s)] for
    a string: library functions of which no property below depends. *)
Variable py_str : pyval -> string.
Variable int_of_str : string -> option Z.
Variable float_of_str : string -> option float.

(** [value] itself, or [str(value)] when it is not a string. *)
Definition as_str (value : pyval) : string :=
  match value with
  | VStr s => s
  | _ => py_str value
  end.

Definition sanitize_string (value : pyval) (max_length : option Z) : string :=
  let sanitized := strip (as_str value) in
  let sanitized := html_escape sanitized in
  let sanitized :=
    fold_left (fun sanitized pattern => re_sub pattern sanitized)
              dangerous_patterns sanitized in
  match max_length with
  | Some n =>
      if negb (n =? 0) && (n <? Z.of_nat (String.length sanitized))
      then py_slice_to n sanitized
      else sanitized
  | None => sanitized
  end.

Definition sanitize_device_id (device_id : pyval) : result string :=
  let device_id := strip (as_str device_id) in
  match match_items device_id_pattern device_id with
  | None => Raise ValueError
  | Some _ =>
      if (100 <? String.length device_id)%nat then Raise ValueError
      else Ok device_id
  end.

(** [int(v) if isinstance(v, (int, str)) else None]. *)
Definition int_or_none (v : pyval) : result pyval :=
  match v with
  | VInt z => Ok (VInt z)
  | VBool b => Ok (VInt (if b then 1 else 0))
  | VStr s => match int_of_str s with
              | Some z => Ok (VInt z)
              | None => Raise ValueError
              end
  | _ => Ok VNone
  end.

(** [float(v) if isinstance(v, (int, float, str)) else None]. *)
Definition float_or_none (v : pyval) : result pyval :=
  match v with
  | VInt _ | VBool _ | VFloat _ | VStr _ =>
      f ← py_float float_of_str v; Ok (VFloat f)
  | _ => Ok VNone
  end.

(** [0 <= v <= 1000], which raises [TypeError] for [None]. *)
Definition within_rate_bounds (v : pyval) : result bool :=
  match v with
  | VFloat r => Ok (PrimFloat.leb 0 r && PrimFloat.leb r 1000)
  | _ => Raise TypeError
  end.

Definition validate_schedule_entry_input (entry : pyval) : result pyval :=
  match entry with
  | VDict d =>
      match find (fun field => negb (dict_has d field)) required_fields with
      | Some _ => Raise ValueError
      | None =>
          let start_time := sanitize_string (dict_get d "start_time") (Some 50) in
          let end_time := sanitize_string (dict_get d "end_time") (Some 50) in
          mode ← int_or_none (dict_get d "mode");
          rate_kw ← float_or_none (dict_get d "rate_kw");
          if negb (py_eq_int mode 1 || py_eq_int mode 2) then Raise ValueError
          else
            inside ← within_rate_bounds rate_kw;
            if negb inside then Raise ValueError
            else Ok (make_entry start_time end_time mode rate_kw)
      end
  | _ => Raise ValueError
  end.

(** The list comprehension of [create_schedule]. *)
Fixpoint sanitize_entries (entries : list pyval) : result (list pyval) :=
  match entries with
  | [] => Ok []
  | entry :: rest =>
      sanitized ← validate_schedule_entry_input entry;
      others ← sanitize_entries rest;
      Ok (sanitized :: others)
  end.

(** What [create_schedule] answers before it reaches the database: a 400
    response, or the call [service.create_schedule(device_id,
    schedule_entries)].  An exception other than the [ValueError] of the
    comprehension escapes the handler. *)
Inductive submission :=
| BadRequest
| Submitted (device_id : string) (schedule_entries : list pyval).

Definition create_schedule (request_device_id : string)
    (entries : list pyval) : result submission :=
  device_id ← sanitize_device_id (VStr request_device_id);
  match sanitize_entries entries with
  | Raise ValueError => Ok BadRequest
  | Raise e => Raise e
  | Ok schedule_dicts =>
      '(is_valid, errors) ←
        validate_schedule float_of_str default_validator
          (VList schedule_dicts) (Some request_device_id);
      if negb is_valid then Ok BadRequest
      else Ok (Submitted device_id schedule_dicts)
  end.

End Sanitizer.

(** ** Further definitions for the statements *)

(** *** Schedules as chains of intervals *)

(** Each parsed entry ends exactly when the next one starts: the two
    datetimes are equal ([end1 != start2] is false), which makes them of
    the same kind. *)
Fixpoint chained (s : list parsed) : Prop :=
  match s with
  | a :: ((b :: _) as rest) => dt_eq a.1.2 b.1.1 = true /\ chained rest
  | _ => True
  end.

Definition starts_before (x y : parsed) : Prop := start_key x < start_key y.

(** The instant at which the last entry of the list [a :: s] ends. *)
Fixpoint chain_end (a : parsed) (s : list parsed) : Z :=
  match s with
  | [] => end_key a
  | b :: s' => chain_end b s'
  end.

(** The constraints of [validate_schedule_entry] on the four fields of an
    entry. *)
Definition timestamps_valid (start_time end_time : pyval) : Prop :=
  exists start_dt end_dt,
    _parse_timestamp start_time = Ok start_dt
    /\ _parse_timestamp end_time = Ok end_dt
    /\ dt_same_kind start_dt end_dt = true
    /\ MIN_INTERVAL_MINUTES * 60 * US_PER_SECOND
       <= dt_key end_dt - dt_key start_dt
       <= MAX_INTERVAL_HOURS * 3600 * US_PER_SECOND.

Definition mode_valid (self : ScheduleValidator) (mode : pyval) : Prop :=
  exists z, int_value mode = Some z /\ z ∈ valid_modes self.

Definition rate_valid (float_of_str : string -> option float)
    (self : ScheduleValidator) (rate_kw : pyval) : Prop :=
  exists rate,
    py_float float_of_str rate_kw = Ok rate
    /\ PrimFloat.ltb rate (min_rate_kw self) = false
    /\ PrimFloat.ltb (max_rate_kw self) rate = false.

(** The entry passes [validate_schedule_entry]. *)
Definition passes (float_of_str : string -> option float)
    (self : ScheduleValidator) (entry : pyval) : bool :=
  match validate_schedule_entry float_of_str self entry None with
  | Ok (true, _) => true
  | _ => false
  end.

(** The indices, from [i] on, of the entries that do not pass. *)
Fixpoint dropped_from (float_of_str : string -> option float)
    (self : ScheduleValidator) (i : nat) (entries : list pyval) : list nat :=
  match entries with
  | [] => []
  | entry :: rest =>
      if passes float_of_str self entry
      then dropped_from float_of_str self (S i) rest
      else i :: dropped_from float_of_str self (S i) rest
  end.

(** What [validate_schedule_locally] asks of an entry: a dict with the four
    fields, a mode equal to 1 or 2, a rate that is a number in [0, 1000]. *)
Definition locally_acceptable (entry : pyval) : Prop :=
  exists (d : gmap string pyval) start_time end_time mode rate_kw,
    entry = VDict d
    /\ d !! "start_time" = Some start_time /\ d !! "end_time" = Some end_time
    /\ d !! "mode" = Some mode /\ d !! "rate_kw" = Some rate_kw
    /\ py_eq_int mode 1 || py_eq_int mode 2 = true
    /\ bad_rate rate_kw = false.

(** *** The daemon's state *)

(** The schedules handed to [_process_schedule], one after the other. *)
Definition receive_all (self : BatteryDaemon) (received : list (pyval * bool))
    : BatteryDaemon :=
  fold_left (fun self x => _process_schedule self x.1 x.2) received self.

(** The last of the received schedules that the local validation accepts,
    and the last one that was also written to the table. *)
Definition last_accepted (received : list (pyval * bool)) : option pyval :=
  fold_left (fun acc x =>
               if (validate_schedule_locally x.1).1 then Some x.1 else acc)
            received None.

Definition last_stored (received : list (pyval * bool)) : option pyval :=
  fold_left (fun acc x =>
               if (validate_schedule_locally x.1).1 && x.2 then Some x.1
               else acc)
            received None.

(** The rows of the other devices. *)
Definition rows_of_others (device : string) (rows : list schedule_row)
    : list schedule_row :=
  List.filter (fun r => negb (String.eqb (row_device_id r) device)) rows.

(** The in-memory schedule is [None] or a schedule the local validation
    accepts. *)
Definition schedule_ok (self : BatteryDaemon) : Prop :=
  current_schedule self = VNone
  \/ (validate_schedule_locally (current_schedule self)).1 = true.

(** *** Strings character by character *)

(** Every character of the string satisfies [p]. *)
Fixpoint all_chars (p : ascii -> bool) (s : string) : bool :=
  match s with
  | EmptyString => true
  | String c s' => p c && all_chars p s'
  end.

(** The characters [html.escape] replaces, except the ampersand. *)
Definition is_markup (c : ascii) : bool :=
  Ascii.eqb c "<" || Ascii.eqb c ">" || Ascii.eqb c double_quote
  || Ascii.eqb c "'".

(** A character that no step of [sanitize_string] touches, wherever it
    stands: not a blank, not one of the five characters [html.escape]
    replaces, and not the first character of a dangerous pattern. *)
Definition is_harmless (c : ascii) : bool :=
  negb (is_space c) && negb (Ascii.eqb c "&") && negb (is_markup c)
  && negb (Ascii.eqb (ascii_lower c) "j") && negb (Ascii.eqb (ascii_lower c) "o")
  && negb (Ascii.eqb (ascii_lower c) "d") && negb (Ascii.eqb (ascii_lower c) "v").

(** *** Instances and inputs of the further examples *)

(** [str(v)] on [None] and the booleans, and [int(s)] on the strings of
    decimal digits: instances of the sanitizer's library functions that
    agree with CPython on the values the examples use. *)
Definition str_of_value (v : pyval) : string :=
  match v with
  | VNone => "None"
  | VBool true => "True"
  | VBool false => "False"
  | _ => ""
  end.

Definition int_of_digits (s : string) : option Z :=
  if negb (String.eqb s "") && all_digits s then Some (digits_value 0 s)
  else None.

(** The schedule that the [main] of the validation module calls valid: two
    half hours, the second starting when the first ends. *)
Definition contiguous_schedule : list pyval :=
  [ make_entry "2025-12-25T00:00:00Z" "2025-12-25T00:30:00Z" (VInt 1) (VInt 100);
    make_entry "2025-12-25T00:30:00Z" "2025-12-25T01:00:00Z" (VInt 2) (VInt 50) ].

(** The same two entries as a request body carries them, the rates being
    floats. *)
Definition requested_entries : list pyval :=
  [ make_entry "2025-12-25T00:00:00Z" "2025-12-25T00:30:00Z"
               (VInt 1) (VFloat 100);
    make_entry "2025-12-25T00:30:00Z" "2025-12-25T01:00:00Z"
               (VInt 2) (VFloat 50) ].

(** An entry that is invalid for the cloud validator (mode 3), followed by
    a valid one. *)
Definition mixed_schedule : list pyval :=
  [ make_entry "2025-12-25T00:15:00Z" "2025-12-25T00:45:00Z" (VInt 3) (VInt 100);
    make_entry "2025-12-25T00:00:00Z" "2025-12-25T00:30:00Z" (VInt 2) (VInt 500) ].

(** A daemon whose schedule is written with a trailing [Z]. *)
Definition zulu_entry : pyval :=
  make_entry "2025-12-25T00:00:00Z" "2025-12-25T00:30:00Z" (VInt 1) (VInt 100).

Definition zulu_daemon : BatteryDaemon :=
  _process_schedule (BatteryDaemon_init "RPI-001") (VList [zulu_entry]) true.

(** An entry whose [start_time] is [None]. *)
Definition null_start_entry : pyval :=
  VDict (<["start_time" := VNone]>
        (<["end_time" := VStr "2025-12-25T00:30:00"]>
        (<["mode" := VInt 1]>
        (<["rate_kw" := VInt 100]> ∅)))).

(** An MQTT message that carries [half_hour_schedule] for device RPI-001. *)
Definition schedule_message : pyval :=
  VDict (<["device_id" := VStr "RPI-001"]>
        (<["schedule" := half_hour_schedule]> ∅)).

(** The fields of an entry whose rate is the string ["100"]. *)
Definition string_rate_fields : gmap string pyval :=
  <["start_time" := VStr "2025-12-25T00:00:00Z"]>
  (<["end_time" := VStr "2025-12-25T00:30:00Z"]>
  (<["mode" := VInt 1]>
  (<["rate_kw" := VStr "100"]> ∅))).

(** ** Properties *)

(** *** The float comparisons of the duration checks

    At the two thresholds and at their nearest neighbours the float
    computation decides as the exact one does; the computation is monotone
    in the duration. *)
Example duration_float_boundaries :
  PrimFloat.ltb (float_duration_minutes 59999999) 1 = true
  /\ PrimFloat.ltb (float_duration_minutes 60000000) 1 = false
  /\ PrimFloat.ltb 24 (PrimFloat.div (float_duration_minutes 86400000000) 60)
     = false
  /\ PrimFloat.ltb 24 (PrimFloat.div (float_duration_minutes 86400000001) 60)
     = true.
Proof. repeat split; vm_compute; reflexivity. Qed.

(** *** The executor *)

Lemma execute_command_cases (mode rate_kw : pyval) :
  (exists actual, execute_command mode rate_kw = Ok (true, Some actual))
  \/ execute_command mode rate_kw = Ok (false, None).
Proof.
  unfold execute_command.
  destruct (py_eq_int mode 1).
  - destruct (_execute_discharge rate_kw) as [a|e]; simpl; eauto.
  - destruct (py_eq_int mode 2).
    + destruct (_execute_charge rate_kw) as [a|e]; simpl; eauto.
    + right. reflexivity.
Qed.


(** *** The execution tick *)

Section DaemonProperties.

Variable fromisoformat : string -> result datetime.

Lemma bind_ok {A B} (m : result A) (f : A -> result B) b :
  m ≫= f = Ok b -> exists a, m = Ok a /\ f a = Ok b.
Proof. destruct m as [a|e]; simpl; [eauto|discriminate]. Qed.

Lemma execute_entry_index i entry d :
  _execute_entry i entry = Ok d ->
  d_index d = i
  /\ py_getitem entry "mode" = Ok (d_mode d)
  /\ py_getitem entry "rate_kw" = Ok (d_rate_kw d).
Proof.
  unfold _execute_entry. intros H.
  apply bind_ok in H as (mode & Hm & H).
  apply bind_ok in H as (rate & Hr & H).
  apply bind_ok in H as ([success actual] & _ & H).
  injection H as <-. simpl. auto.
Qed.

(** What the scan from offset [k] returns: nothing, or the single call for
    the first entry in its window. *)
Lemma scan_entries_sound entries now : forall k ds,
  scan_entries fromisoformat k entries now = Ok ds ->
  ds = []
  \/ exists d i entry,
       ds = [d] /\ d_index d = (k + i)%nat
       /\ first_in_window fromisoformat entries now i entry
       /\ _execute_entry (k + i) entry = Ok d.
Proof.
  induction entries as [|entry rest IH]; intros k ds H; simpl in H.
  - injection H as <-. auto.
  - apply bind_ok in H as (inside & Hin & H). destruct inside.
    + apply bind_ok in H as (d & Hd & H). injection H as <-.
      right. exists d, 0%nat, entry.
      rewrite Nat.add_0_r. repeat split; auto.
      * apply execute_entry_index in Hd. tauto.
      * intros j e Hj. lia.
    + apply IH in H as [->|(d & i & e & -> & Hidx & (Hl & Hw & Hbefore) & Hex)];
        [auto|].
      right. exists d, (S i), e.
      replace (k + S i)%nat with (S k + i)%nat by lia.
      repeat split; auto.
      intros [|j] e' Hj He'; simpl in He'.
      * injection He' as <-. exact Hin.
      * apply (Hbefore j); [lia|exact He'].
Qed.

Lemma scan_entries_complete entries now : forall k i entry d,
  first_in_window fromisoformat entries now i entry ->
  _execute_entry (k + i) entry = Ok d ->
  scan_entries fromisoformat k entries now = Ok [d].
Proof.
  induction entries as [|e0 rest IH]; intros k i entry d (Hl & Hw & Hbefore) Hd.
  - destruct i; discriminate Hl.
  - destruct i as [|i]; simpl in Hl |- *.
    + injection Hl as ->. rewrite Hw. simpl.
      rewrite Nat.add_0_r in Hd. rewrite Hd. reflexivity.
    + rewrite (Hbefore 0%nat e0); [|lia|reflexivity]. simpl.
      apply (IH (S k) i entry d).
      * repeat split; auto. intros j e Hj He.
        apply (Hbefore (S j)); [lia|exact He].
      * replace (S k + i)%nat with (k + S i)%nat by lia. exact Hd.
Qed.

(** C10. One tick dispatches at most one entry.  Whenever
    [_check_and_execute] returns, it has made no executor call or exactly
    one, and that one is for the first entry, in list order, whose
    [start, end) window contains the current time; conversely, when entry
    [i] is the first entry in its window (and has a mode and a rate), the
    tick makes exactly the call for entry [i], whatever later entries'
    windows also contain the current time. *)
Theorem check_and_execute_first_match (self : BatteryDaemon) (now_us : Z) :
  let now := mk_datetime now_us None in
  (forall ds,
      _check_and_execute fromisoformat self now_us = Ok ds ->
      (length ds <= 1)%nat
      /\ forall d, In d ds ->
           exists entries entry,
             current_schedule self = VList entries
             /\ first_in_window fromisoformat entries now (d_index d) entry
             /\ _execute_entry (d_index d) entry = Ok d)
  /\ (forall entries i entry d,
         current_schedule self = VList entries ->
         first_in_window fromisoformat entries now i entry ->
         _execute_entry i entry = Ok d ->
         _check_and_execute fromisoformat self now_us = Ok [d]).
Proof.
  intros now. split.
  - intros ds H. unfold _check_and_execute in H.
    destruct (truthy (current_schedule self)) eqn:Ht; simpl in H.
    + destruct (current_schedule self) as [| | | | |entries|] eqn:Hs;
        try discriminate H.
      apply scan_entries_sound in H
        as [->|(d & i & entry & -> & Hidx & Hfirst & Hex)].
      * split; [simpl; lia|]. intros d [].
      * split; [simpl; lia|]. intros d' [<-|[]].
        simpl in Hidx. rewrite Hidx. exists entries, entry. auto.
    + injection H as <-. split; [simpl; lia|]. intros d [].
  - intros entries i entry d Hs Hfirst Hd. unfold _check_and_execute.
    rewrite Hs. destruct entries as [|e0 rest].
    + destruct Hfirst as (Hl & _). destruct i; discriminate Hl.
    + simpl. apply (scan_entries_complete (e0 :: rest) now 0 i entry d Hfirst).
      exact Hd.
Qed.

Lemma loop_iteration_first entries self now_us i entry d :
  current_schedule self = VList entries ->
  first_in_window fromisoformat entries (mk_datetime now_us None) i entry ->
  _execute_entry i entry = Ok d ->
  loop_iteration fromisoformat self now_us = Ok [d].
Proof.
  intros Hs Hfirst Hd. unfold loop_iteration, _check_and_execute.
  rewrite Hs. destruct entries as [|e0 rest].
  - destruct Hfirst as (Hl & _). destruct i; discriminate Hl.
  - simpl.
    apply (scan_entries_complete (e0 :: rest) _ 0 i entry d Hfirst). exact Hd.
Qed.

Lemma execute_entry_total i entry mode rate_kw :
  py_getitem entry "mode" = Ok mode ->
  py_getitem entry "rate_kw" = Ok rate_kw ->
  exists d, _execute_entry i entry = Ok d /\ d_index d = i.
Proof.
  intros Hm Hr. unfold _execute_entry. rewrite Hm, Hr. simpl.
  destruct (execute_command_cases mode rate_kw) as [[a H]|H]; rewrite H;
    simpl; eauto.
Qed.

(** C3, as the code has it.  The daemon keeps no record of what it has
    dispatched: a tick reads [current_schedule] and nothing else.  So an
    entry is dispatched on every tick at which it is the first entry whose
    window contains the current time: over any sequence of such ticks the
    executor is called for it once per tick. *)
Theorem dispatched_on_every_tick (self : BatteryDaemon) (entries : list pyval)
    (i : nat) (entry mode rate_kw : pyval) (ticks : list Z) :
  current_schedule self = VList entries ->
  py_getitem entry "mode" = Ok mode ->
  py_getitem entry "rate_kw" = Ok rate_kw ->
  (forall now_us, In now_us ticks ->
     first_in_window fromisoformat entries (mk_datetime now_us None) i entry) ->
  map d_index (run fromisoformat self (map Tick ticks))
  = repeat i (length ticks).
Proof.
  intros Hs Hm Hr Hticks.
  destruct (execute_entry_total i entry mode rate_kw Hm Hr) as (d & Hd & Hi).
  induction ticks as [|now_us rest IH]; [reflexivity|].
  simpl.
  rewrite (loop_iteration_first entries self now_us i entry d Hs); auto.
  - simpl. rewrite Hi. f_equal. apply IH.
    intros t Ht. apply Hticks. right. exact Ht.
  - apply Hticks. left. reflexivity.
Qed.

End DaemonProperties.

(** C3 (counterexample).  Two ticks thirty seconds apart, both inside the
    window of the only entry of the active schedule, and no schedule
    received in between: the executor is called for entry 0 twice. *)
Lemma entry_dispatched_twice :
  current_schedule armed_daemon = half_hour_schedule
  /\ dispatch_count 0
       (run fromisoformat_basic armed_daemon
            [Tick (midnight_us + 10 * US_PER_SECOND);
             Tick (midnight_us + 40 * US_PER_SECOND)])
     = 2%nat.
Proof. split; vm_compute; reflexivity. Qed.

(** C3 (witness): the same two ticks. *)
Lemma dispatched_on_every_tick_witness :
  map d_index
      (run fromisoformat_basic armed_daemon
           (map Tick [midnight_us + 10 * US_PER_SECOND;
                      midnight_us + 40 * US_PER_SECOND]))
  = repeat 0%nat 2.
Proof.
  apply (dispatched_on_every_tick fromisoformat_basic armed_daemon
           [make_entry "2025-12-25T00:00:00" "2025-12-25T00:30:00"
                       (VInt 1) (VInt 100)]
           0 (make_entry "2025-12-25T00:00:00" "2025-12-25T00:30:00"
                         (VInt 1) (VInt 100))
           (VInt 1) (VInt 100)).
  - vm_compute. reflexivity.
  - vm_compute. reflexivity.
  - vm_compute. reflexivity.
  - intros now_us [<-|[<-|[]]]; (split; [reflexivity|]);
      (split; [vm_compute; reflexivity|]); intros j e Hj; lia.
Defined.

(** *** Receiving a schedule *)

Lemma dict_has_alter (f : pyval -> pyval) (k field : string)
    (d : gmap string pyval) :
  dict_has (alter f k d) field = dict_has d field.
Proof.
  unfold dict_has. destruct (decide (k = field)) as [->|Hne].
  - rewrite lookup_alter_eq. destruct (d !! field); reflexivity.
  - rewrite lookup_alter_ne by exact Hne. reflexivity.
Qed.

Lemma local_entry_errors_retime f g i entry :
  local_entry_errors i (retime f g entry) = local_entry_errors i entry.
Proof.
  destruct entry as [| | | | | |d]; try reflexivity.
  unfold retime, local_entry_errors.
  rewrite !lookup_alter_ne by discriminate.
  f_equal. f_equal. apply filter_ext. intros field.
  rewrite !dict_has_alter. reflexivity.
Qed.

Lemma local_errors_from_retime f g entries : forall i,
  local_errors_from i (map (retime f g) entries) = local_errors_from i entries.
Proof.
  induction entries as [|e rest IH]; intros i; simpl; [reflexivity|].
  rewrite local_entry_errors_retime, IH. reflexivity.
Qed.

Lemma validate_schedule_locally_retime f g entries :
  validate_schedule_locally (VList (map (retime f g) entries))
  = validate_schedule_locally (VList entries).
Proof.
  destruct entries as [|e rest]; [reflexivity|].
  unfold validate_schedule_locally.
  change (map (retime f g) (e :: rest))
    with (retime f g e :: map (retime f g) rest).
  change (retime f g e :: map (retime f g) rest)
    with (map (retime f g) (e :: rest)).
  rewrite local_errors_from_retime. reflexivity.
Qed.

(** C6, as the code has it.  [_process_schedule] rejects a submission, and
    leaves the in-memory schedule and the stored schedules as they were,
    exactly when [validate_schedule_locally] reports an error; when it
    reports none, the submission becomes the current schedule.  The local
    validation never looks at the timestamps: changing the [start_time] and
    [end_time] of the entries in any way changes neither the verdict nor
    the errors, so no temporal error can make the agent reject a schedule. *)
Theorem process_schedule_rejects_what_local_validation_rejects :
  (forall self schedule db_ok,
      (validate_schedule_locally schedule).1 = false ->
      _process_schedule self schedule db_ok = self)
  /\ (forall self schedule db_ok,
         (validate_schedule_locally schedule).1 = true ->
         current_schedule (_process_schedule self schedule db_ok) = schedule
         /\ (db_ok = true ->
             stored_active (_process_schedule self schedule db_ok)
             = [schedule]))
  /\ (forall f g entries,
         validate_schedule_locally (VList (map (retime f g) entries))
         = validate_schedule_locally (VList entries)).
Proof.
  split; [|split].
  - intros self schedule db_ok H. unfold _process_schedule.
    destruct (validate_schedule_locally schedule) as [v errs].
    simpl in H. subst v. reflexivity.
  - intros self schedule db_ok H. unfold _process_schedule.
    destruct (validate_schedule_locally schedule) as [v errs].
    simpl in H. subst v. simpl. unfold _store_schedule.
    destruct db_ok; simpl; split; try reflexivity; try discriminate.
    intros _. unfold stored_active. simpl.
    rewrite rev_app_distr. simpl. rewrite String.eqb_refl. simpl.
    f_equal.
    induction (schedules self) as [|r rs IH]; [reflexivity|].
    simpl. rewrite List.filter_app, List.map_app, IH. simpl.
    unfold deactivate.
    destruct (String.eqb (row_device_id r) (device_id self)) eqn:Hd;
      destruct (String.eqb (row_status r) "active") eqn:Ha; simpl;
      rewrite ?Hd, ?Ha; reflexivity.
  - exact validate_schedule_locally_retime.
Qed.

(** C6 (counterexample).  The submission has an inverted entry (its end
    precedes its start), yet the agent accepts it: it replaces both the
    in-memory schedule and the stored active schedule. *)
Lemma inverted_schedule_accepted :
  (exists start_dt end_dt,
      _parse_timestamp (VStr "2025-12-25T01:00:00") = Ok start_dt
      /\ _parse_timestamp (VStr "2025-12-25T00:00:00") = Ok end_dt
      /\ dt_lt end_dt start_dt = Ok true)
  /\ current_schedule armed_daemon = half_hour_schedule
  /\ stored_active armed_daemon = [half_hour_schedule]
  /\ current_schedule (_process_schedule armed_daemon inverted_schedule true)
     = inverted_schedule
  /\ stored_active (_process_schedule armed_daemon inverted_schedule true)
     = [inverted_schedule].
Proof.
  split.
  - eexists _, _. repeat split; vm_compute; reflexivity.
  - repeat split; vm_compute; reflexivity.
Qed.

(** *** Floats: the order is antisymmetric *)

Lemma SFcompare_antisym (a b : spec_float) :
  SFcompare b a = option_map CompOpp (SFcompare a b).
Proof.
  destruct a as [sa|sa| |sa ma ea], b as [sb|sb| |sb mb eb]; simpl;
    try reflexivity;
    try (destruct sa; reflexivity); try (destruct sb; reflexivity);
    try (destruct sa, sb; reflexivity).
  destruct sa, sb; simpl; try reflexivity;
    rewrite (Z.compare_antisym ea eb);
    destruct (ea ?= eb)%Z; simpl; try reflexivity;
    repeat f_equal; symmetry; exact (Pos.compare_cont_antisym ma mb Eq).
Qed.

Lemma float_leb_not_ltb (x y : float) :
  PrimFloat.leb x y = true -> PrimFloat.ltb y x = false.
Proof.
  rewrite leb_spec, ltb_spec. unfold SFleb, SFltb.
  rewrite (SFcompare_antisym (Prim2SF x) (Prim2SF y)).
  destruct (SFcompare (Prim2SF x) (Prim2SF y)) as [[]|]; simpl;
    intros H; try reflexivity; discriminate H.
Qed.

(** *** The validator on one entry *)

Section ValidatorProperties.

Variable float_of_str : string -> option float.


Lemma dt_same_kind_sym a b : dt_same_kind a b = dt_same_kind b a.
Proof. unfold dt_same_kind. destruct (dt_is_naive a), (dt_is_naive b); reflexivity. Qed.

Lemma required_fields_present (d : gmap string pyval) a b c e :
  d !! "start_time" = Some a -> d !! "end_time" = Some b ->
  d !! "mode" = Some c -> d !! "rate_kw" = Some e ->
  find (fun field => negb (dict_has d field)) required_fields = None.
Proof.
  intros H1 H2 H3 H4. unfold required_fields, dict_has. simpl.
  rewrite H1, H2, H3, H4. reflexivity.
Qed.



End ValidatorProperties.


(** *** [clean_schedule] *)

Section CleanProperties.

Variable float_of_str : string -> option float.
Variable self : ScheduleValidator.

Abbreviation validate_entry := (validate_schedule_entry float_of_str self).

(** The three checks decide the same whatever the prefix of the message. *)
Lemma validate_timestamps_prefix s e p q v err :
  _validate_timestamps s e p = Ok (v, err) ->
  exists err', _validate_timestamps s e q = Ok (v, err')
               /\ (v = true -> err = None /\ err' = None).
Proof.
  unfold _validate_timestamps.
  destruct (_parse_timestamp s ≫= _) as [[sd ed]|[]]; try discriminate.
  - destruct (dt_ge sd ed) as [[]|]; simpl; try discriminate.
    + intros H. injection H as <- <-. eexists. split; [reflexivity|].
      discriminate.
    + destruct (dt_sub ed sd) as [dur|]; simpl; try discriminate.
      destruct (shorter_than_minutes dur MIN_INTERVAL_MINUTES);
        [|destruct (longer_than_hours dur MAX_INTERVAL_HOURS)];
        intros H; injection H as <- <-; eexists; (split; [reflexivity|]);
        try discriminate; auto.
  - intros H. injection H as <- <-. eexists. split; [reflexivity|].
    discriminate.
Qed.

Lemma validate_mode_prefix m p q v err :
  _validate_mode self m p = Ok (v, err) ->
  exists err', _validate_mode self m q = Ok (v, err')
               /\ (v = true -> err = None /\ err' = None).
Proof.
  unfold _validate_mode. destruct (int_value m) as [z|].
  - destruct (bool_decide (z ∈ valid_modes self));
      intros H; injection H as <- <-; eexists; (split; [reflexivity|]);
      try discriminate; auto.
  - intros H; injection H as <- <-; eexists; (split; [reflexivity|]);
      discriminate.
Qed.

Lemma validate_rate_prefix r p q v err :
  _validate_rate float_of_str self r p = Ok (v, err) ->
  exists err', _validate_rate float_of_str self r q = Ok (v, err')
               /\ (v = true -> err = None /\ err' = None).
Proof.
  unfold _validate_rate. destruct (py_float float_of_str r) as [rate|[]];
    try discriminate;
    try (intros H; injection H as <- <-; eexists; (split; [reflexivity|]);
         discriminate).
  destruct (PrimFloat.ltb rate (min_rate_kw self));
    [|destruct (PrimFloat.ltb (max_rate_kw self) rate)];
    intros H; injection H as <- <-; eexists; (split; [reflexivity|]);
    try discriminate; auto.
Qed.

(** The verdict of [validate_schedule_entry] does not depend on the index it
    is given, which only shows in the message; a valid entry has no
    message. *)
Lemma validate_entry_index entry i j v err :
  validate_entry entry i = Ok (v, err) ->
  exists err', validate_entry entry j = Ok (v, err')
               /\ (v = true -> err = None /\ err' = None).
Proof.
  unfold validate_schedule_entry.
  destruct entry as [| | | | | |d];
    try (intros H; injection H as <- <-; eexists; (split; [reflexivity|]);
         discriminate).
  destruct (find _ required_fields) as [field|].
  { intros H; injection H as <- <-; eexists; (split; [reflexivity|]);
      discriminate. }
  intros H.
  apply bind_ok in H as ([v1 e1] & H1 & H).
  destruct (validate_timestamps_prefix _ _ _ (entry_prefix j) _ _ H1)
    as (e1' & -> & Hn1).
  simpl. destruct v1; simpl in *.
  2:{ injection H as <- <-. eexists. split; [reflexivity|]. discriminate. }
  apply bind_ok in H as ([v2 e2] & H2 & H).
  destruct (validate_mode_prefix _ _ (entry_prefix j) _ _ H2)
    as (e2' & -> & Hn2).
  simpl. destruct v2; simpl in *.
  2:{ injection H as <- <-. eexists. split; [reflexivity|]. discriminate. }
  apply bind_ok in H as ([v3 e3] & H3 & H).
  destruct (validate_rate_prefix _ _ (entry_prefix j) _ _ H3)
    as (e3' & -> & Hn3).
  simpl. destruct v3; simpl in *.
  2:{ injection H as <- <-. eexists. split; [reflexivity|]. discriminate. }
  injection H as <- <-. eexists. split; [reflexivity|]. auto.
Qed.

Lemma validate_entry_valid entry i j err :
  validate_entry entry i = Ok (true, err) ->
  validate_entry entry j = Ok (true, None).
Proof.
  intros H. destruct (validate_entry_index entry i j true err H)
    as (err' & Hj & Hn).
  destruct (Hn eq_refl) as [_ ->]. exact Hj.
Qed.

(** What the loop of [clean_schedule] keeps: each kept entry is valid. *)
Lemma clean_entries_valid entries : forall i cleaned warnings,
  clean_entries float_of_str self i entries = Ok (cleaned, warnings) ->
  forall e, In e cleaned -> forall j, validate_entry e j = Ok (true, None).
Proof.
  induction entries as [|entry rest IH]; intros i cleaned warnings H; simpl in H.
  - injection H as <- <-. intros e [].
  - apply bind_ok in H as ([v err] & Hv & H).
    apply bind_ok in H as ([c w] & Hc & H).
    destruct v; injection H as <- <-.
    + intros e [<-|Hin] j.
      * exact (validate_entry_valid _ _ j _ Hv).
      * exact (IH _ _ _ Hc e Hin j).
    + exact (IH _ _ _ Hc).
Qed.

(** A list of valid entries is kept whole, without a warning. *)
Lemma clean_entries_fixed cleaned : forall i,
  (forall e, In e cleaned -> forall j, validate_entry e j = Ok (true, None)) ->
  clean_entries float_of_str self i cleaned = Ok (cleaned, []).
Proof.
  induction cleaned as [|e rest IH]; intros i Hall; simpl; [reflexivity|].
  rewrite (Hall e (or_introl eq_refl) (Some i)). simpl.
  rewrite IH; [reflexivity|].
  intros e' Hin. apply Hall. right. exact Hin.
Qed.

(** C8. [clean_schedule] is idempotent on its cleaned output: whenever
    [clean_schedule(entries)] returns [(cleaned, warnings)], every entry of
    [cleaned] passes [validate_schedule_entry] (at any index), and
    [clean_schedule(cleaned)] returns the same [cleaned] list; the warnings
    of the second call are the errors of the set-level validation, if
    any. *)
Theorem clean_schedule_idempotent (entries cleaned : list pyval)
    (warnings : list msg) (device : option string) :
  clean_schedule float_of_str self entries device = Ok (cleaned, warnings) ->
  (forall e, In e cleaned ->
     forall j, validate_entry e j = Ok (true, None))
  /\ exists warnings',
       clean_schedule float_of_str self cleaned device
       = Ok (cleaned, warnings')
       /\ (warnings' = []
           \/ validate_schedule float_of_str self (VList cleaned) device
              = Ok (false, warnings')).
Proof.
  unfold clean_schedule. intros H.
  apply bind_ok in H as ([c w] & Hc & H).
  assert (Hvalid := clean_entries_valid _ _ _ _ Hc).
  assert (c = cleaned) as ->.
  { destruct c as [|e0 c']; [injection H as <- _; reflexivity|].
    apply bind_ok in H as ([v errs] & _ & H).
    destruct v; injection H as <- _; reflexivity. }
  split; [exact Hvalid|].
  rewrite (clean_entries_fixed cleaned 0 Hvalid).
  cbn -[validate_schedule].
  destruct cleaned as [|e0 c']; [eauto|].
  apply bind_ok in H as ([v errs] & Hv & H).
  rewrite Hv. simpl. destruct v; simpl; eauto.
Qed.

End CleanProperties.

(** C8 (witness): the first entry has mode 3 and is dropped, the second is
    kept; cleaning the kept list again keeps it. *)
Lemma clean_schedule_idempotent_witness :
  exists warnings',
    clean_schedule float_of_digits default_validator
      [make_entry "2025-12-25T00:00:00Z" "2025-12-25T00:30:00Z"
                  (VInt 2) (VInt 500)]
      None
    = Ok ([make_entry "2025-12-25T00:00:00Z" "2025-12-25T00:30:00Z"
                      (VInt 2) (VInt 500)], warnings').
Proof.
  destruct (clean_schedule_idempotent float_of_digits default_validator
              [make_entry "2025-12-25T00:15:00Z" "2025-12-25T00:45:00Z"
                          (VInt 3) (VInt 100);
               make_entry "2025-12-25T00:00:00Z" "2025-12-25T00:30:00Z"
                          (VInt 2) (VInt 500)]
              [make_entry "2025-12-25T00:00:00Z" "2025-12-25T00:30:00Z"
                          (VInt 2) (VInt 500)]
              [MsgEntryInvalid 0
                 (Some (MsgModeNotAllowed (EntryPrefix 0) (VInt 3)))]
              None)
    as (_ & warnings' & H & _).
  - vm_compute. reflexivity.
  - exists warnings'. exact H.
Defined.

(** *** Schedules the validator handles against its documentation *)

(** C1.  Two valid, non-overlapping entries with half an hour between
    them.  [_check_sequential] is documented as producing warnings, not
    errors, but [validate_schedule] appends what it returns to [errors]:
    the schedule is rejected, with the gap as its only error. *)
Theorem gap_schedule_rejected (float_of_str : string -> option float) :
  validate_schedule float_of_str default_validator
    (VList [make_entry "2025-12-25T00:00:00Z" "2025-12-25T00:30:00Z"
                       (VInt 1) (VInt 100);
            make_entry "2025-12-25T01:00:00Z" "2025-12-25T01:30:00Z"
                       (VInt 2) (VInt 50)])
    None
  = Ok (false, [MsgGap NoPrefix 0 1 (1800 * US_PER_SECOND)]).
Proof. vm_compute. reflexivity. Qed.

(** C4.  One entry whose start is written with a trailing [Z] (parsed as a
    naive datetime) and whose end is written with an explicit offset
    (parsed as an aware one): comparing the two raises [TypeError], which
    [_validate_timestamps] does not catch. *)
Theorem mixed_timestamps_raise (float_of_str : string -> option float) :
  _parse_timestamp (VStr "2025-12-25T00:00:00Z")
  = Ok (mk_datetime midnight_us None)
  /\ _parse_timestamp (VStr "2025-12-25T00:30:00+00:00")
     = Ok (mk_datetime (midnight_us + 1800 * US_PER_SECOND) (Some 0))
  /\ validate_schedule float_of_str default_validator
       (VList [make_entry "2025-12-25T00:00:00Z" "2025-12-25T00:30:00+00:00"
                          (VInt 1) (VInt 100)])
       None
     = Raise TypeError.
Proof. repeat split; vm_compute; reflexivity. Qed.

(** C2.  Entries 0 and 1 overlap (00:00 to 00:30 and 00:15 to 00:45, both
    naive); entry 2 is written with an explicit offset.  Each entry passes
    the per-entry checks, but sorting the parsed start times compares a
    naive with an aware datetime: [validate_schedule] raises [TypeError]
    instead of returning the overlap error. *)
Theorem overlap_hidden_by_mixed_timestamps
    (float_of_str : string -> option float) :
  let e0 := make_entry "2025-12-25T00:00:00" "2025-12-25T00:30:00"
                       (VInt 1) (VInt 100) in
  let e1 := make_entry "2025-12-25T00:15:00" "2025-12-25T00:45:00"
                       (VInt 2) (VInt 50) in
  let e2 := make_entry "2025-12-25T02:00:00+00:00" "2025-12-25T02:30:00+00:00"
                       (VInt 1) (VInt 100) in
  validate_schedule_entry float_of_str default_validator e0 (Some 0%nat)
  = Ok (true, None)
  /\ validate_schedule_entry float_of_str default_validator e1 (Some 1%nat)
     = Ok (true, None)
  /\ validate_schedule_entry float_of_str default_validator e2 (Some 2%nat)
     = Ok (true, None)
  /\ validate_schedule float_of_str default_validator (VList [e0; e1; e2]) None
     = Raise TypeError.
Proof. repeat split; vm_compute; reflexivity. Qed.

(** *** Overlap detection

    When the timestamps of a schedule are all naive or all aware, the sweep
    over adjacent pairs of the sorted list finds an overlapping pair
    whenever any two entries overlap. *)

Lemma dt_lt_kind k a b :
  dt_is_naive a = k -> dt_is_naive b = k ->
  dt_lt a b = Ok (dt_key a <? dt_key b).
Proof.
  intros Ha Hb. unfold dt_lt, dt_same_kind. rewrite Ha, Hb.
  destruct k; reflexivity.
Qed.

Lemma dt_sub_kind k a b :
  dt_is_naive a = k -> dt_is_naive b = k ->
  dt_sub a b = Ok (dt_key a - dt_key b).
Proof.
  intros Ha Hb. unfold dt_sub, dt_same_kind. rewrite Ha, Hb.
  destruct k; reflexivity.
Qed.

Lemma insert_by_start_sorts k x : forall l,
  of_kind k x -> Forall (of_kind k) l ->
  StronglySorted starts_no_later l ->
  exists l', insert_by_start x l = Ok l'
             /\ Permutation (x :: l) l'
             /\ StronglySorted starts_no_later l'.
Proof.
  intros l Hx. induction l as [|y l IH]; intros Hl Hs.
  - exists [x]. repeat split; auto. repeat constructor.
  - simpl. inversion Hl as [|? ? Hy Hl']; subst.
    inversion Hs as [|? ? Hs' Hyl]; subst.
    rewrite (dt_lt_kind k) by (apply Hy || apply Hx). simpl.
    destruct (dt_key y.1.1 <? dt_key x.1.1) eqn:Hlt.
    + destruct (IH Hl' Hs') as (l' & -> & Hp & Hsl'). simpl.
      exists (y :: l'). repeat split.
      * rewrite perm_swap. constructor. exact Hp.
      * constructor; [exact Hsl'|].
        apply (Permutation_Forall Hp). constructor; [|exact Hyl].
        apply Z.ltb_lt in Hlt. unfold starts_no_later, start_key. lia.
    + exists (x :: y :: l). repeat split; auto.
      apply Z.ltb_ge in Hlt.
      constructor; [exact Hs|]. constructor.
      * unfold starts_no_later, start_key. lia.
      * eapply Forall_impl; [exact Hyl|]. intros z Hz.
        unfold starts_no_later, start_key in *. lia.
Qed.

Lemma sorted_by_start_sorts k : forall l,
  Forall (of_kind k) l ->
  exists s, sorted_by_start l = Ok s
            /\ Permutation l s
            /\ StronglySorted starts_no_later s.
Proof.
  induction l as [|x l IH]; intros Hl.
  - exists []. repeat split; auto. constructor.
  - inversion Hl as [|? ? Hx Hl']; subst.
    destruct (IH Hl') as (s & Hs & Hp & Hss). simpl. rewrite Hs. simpl.
    destruct (insert_by_start_sorts k x s Hx) as (s' & Hs' & Hp' & Hss');
      [apply (Permutation_Forall Hp); exact Hl'|exact Hss|].
    exists s'. repeat split; auto.
    rewrite <- Hp'. constructor. exact Hp.
Qed.

Lemma overlaps_sweep_kind k p : forall s,
  Forall (of_kind k) s -> overlaps_sweep p s = Ok (adjacent_overlaps p s).
Proof.
  induction s as [|a s IH]; intros Hs; [reflexivity|].
  destruct s as [|b s']; [destruct a as [[? ?] ?]; reflexivity|].
  inversion Hs as [|? ? Ha Hs']; subst.
  assert (Hb : of_kind k b) by (inversion Hs'; assumption).
  specialize (IH Hs').
  destruct a as [[s1 e1] i1], b as [[s2 e2] i2].
  cbn [overlaps_sweep]. cbn [overlaps_sweep] in IH. rewrite IH.
  unfold dt_gt. rewrite (dt_lt_kind k) by (apply Hb || apply Ha).
  cbn [adjacent_overlaps]. unfold start_key, end_key, original_index. simpl.
  destruct (dt_key s2 <? dt_key e1); reflexivity.
Qed.

Lemma sequential_sweep_kind k p : forall s,
  Forall (of_kind k) s -> exists w, sequential_sweep p s = Ok w.
Proof.
  induction s as [|a s IH]; intros Hs; [exists []; reflexivity|].
  destruct s as [|b s']; [destruct a as [[? ?] ?]; exists []; reflexivity|].
  inversion Hs as [|? ? Ha Hs']; subst.
  assert (Hb : of_kind k b) by (inversion Hs'; assumption).
  destruct (IH Hs') as (w & Hw).
  destruct a as [[s1 e1] i1], b as [[s2 e2] i2].
  cbn [sequential_sweep]. cbn [sequential_sweep] in Hw. rewrite Hw.
  rewrite !(dt_sub_kind k) by (apply Hb || apply Ha). simpl.
  destruct (dt_ne e1 s2); simpl; [|eauto].
  destruct (0 <? dt_key s2 - dt_key e1); simpl; eauto.
Qed.

Lemma adjacent_overlaps_in p m : forall s,
  In m (adjacent_overlaps p s) ->
  exists pre a b post,
    s = (pre ++ a :: b :: post)%list
    /\ start_key b < end_key a
    /\ m = MsgOverlap p (original_index a) (original_index b) a.1.2 b.1.1.
Proof.
  induction s as [|a s IH]; intros Hm; [destruct Hm|].
  destruct s as [|b s']; [destruct Hm|].
  cbn [adjacent_overlaps] in Hm.
  destruct (start_key b <? end_key a) eqn:Hlt.
  - destruct Hm as [<-|Hm].
    + exists [], a, b, s'. apply Z.ltb_lt in Hlt. auto.
    + destruct (IH Hm) as (pre & a' & b' & post & -> & H1 & H2).
      exists (a :: pre), a', b', post. auto.
  - destruct (IH Hm) as (pre & a' & b' & post & -> & H1 & H2).
    exists (a :: pre), a', b', post. auto.
Qed.

(** In a list sorted by start, if no adjacent pair overlaps then every
    entry ends before every later one starts. *)
Lemma no_adjacent_overlap_disjoint p : forall s,
  StronglySorted starts_no_later s ->
  adjacent_overlaps p s = [] ->
  ForallOrdPairs ends_before s.
Proof.
  induction s as [|a s IH]; intros Hs Hnil; [constructor|].
  inversion Hs as [|? ? Hs' Has]; subst.
  destruct s as [|b s']; [repeat constructor|].
  cbn [adjacent_overlaps] in Hnil.
  destruct (start_key b <? end_key a) eqn:Hlt; [discriminate Hnil|].
  apply Z.ltb_ge in Hlt.
  constructor; [|exact (IH Hs' Hnil)].
  inversion Hs' as [|? ? _ Hbs]; subst.
  constructor; [exact Hlt|].
  eapply Forall_impl; [exact Hbs|]. intros z Hz.
  unfold ends_before, starts_no_later in *. lia.
Qed.

Lemma sorted_adjacent (R : parsed -> parsed -> Prop) a b post : forall pre,
  StronglySorted R (pre ++ a :: b :: post) -> R a b.
Proof.
  induction pre as [|c pre IH]; intros Hs; simpl in Hs.
  - inversion Hs as [|? ? _ Hall]; subst. inversion Hall; assumption.
  - inversion Hs; subst. auto.
Qed.

(** The sweep is complete and names a real pair: if two parsed entries of
    the same kind overlap, [_check_overlaps] returns an overlap message
    whose two indices are those of two distinct entries that overlap. *)
Lemma check_overlaps_detects k p pts x y :
  Forall (of_kind k) pts ->
  Forall (fun z => start_key z < end_key z) pts ->
  List.NoDup (map original_index pts) ->
  In x pts -> In y pts -> x <> y -> overlapping x y ->
  exists errs a b,
    _check_overlaps pts p = Ok errs
    /\ In (MsgOverlap p (original_index a) (original_index b) a.1.2 b.1.1) errs
    /\ In a pts /\ In b pts
    /\ original_index a <> original_index b
    /\ overlapping a b.
Proof.
  intros Hk Hlen Hnd Hx Hy Hxy [Hov1 Hov2].
  destruct (sorted_by_start_sorts k pts Hk) as (s & Hs & Hp & Hss).
  unfold _check_overlaps. rewrite Hs. simpl.
  rewrite (overlaps_sweep_kind k) by (apply (Permutation_Forall Hp); exact Hk).
  destruct (adjacent_overlaps p s) as [|m errs] eqn:Herrs.
  - exfalso.
    pose proof (no_adjacent_overlap_disjoint p s Hss Herrs) as Hd.
    destruct (ForallOrdPairs_In Hd x y) as [Heq|[H|H]];
      try (apply (Permutation_in _ Hp); assumption);
      [contradiction|unfold ends_before in H; lia..].
  - assert (Hm : In m (adjacent_overlaps p s)) by (rewrite Herrs; left; auto).
    destruct (adjacent_overlaps_in p m s Hm)
      as (pre & a & b & post & -> & Hab & ->).
    exists (MsgOverlap p (original_index a) (original_index b) a.1.2 b.1.1
            :: errs), a, b.
    assert (Ha : In a pts).
    { apply (Permutation_in _ (Permutation_sym Hp)).
      apply in_or_app. right. left. reflexivity. }
    assert (Hb : In b pts).
    { apply (Permutation_in _ (Permutation_sym Hp)).
      apply in_or_app. right. right. left. reflexivity. }
    repeat split; auto.
    + left. reflexivity.
    + assert (Hnd' : List.NoDup (map original_index (pre ++ a :: b :: post))).
      { eapply Permutation.Permutation_NoDup; [|exact Hnd]. apply Permutation_map.
        exact Hp. }
      rewrite map_app in Hnd'. simpl in Hnd'.
      apply List.NoDup_remove_2 in Hnd'. intros Heq. apply Hnd'.
      apply in_or_app. right. left. symmetry. exact Heq.
    + pose proof (sorted_adjacent _ a b post pre Hss) as Hle.
      unfold starts_no_later in Hle.
      pose proof (proj1 (List.Forall_forall _ _) Hlen b Hb) as Hbl.
      simpl in Hbl. lia.
Qed.

Section OverlapDetection.

Variable float_of_str : string -> option float.
Variable self : ScheduleValidator.

Lemma find_required_none (d : gmap string pyval) :
  find (fun field => negb (dict_has d field)) required_fields = None ->
  (exists v, d !! "start_time" = Some v) /\ (exists v, d !! "end_time" = Some v).
Proof.
  unfold required_fields, dict_has. simpl.
  destruct (d !! "start_time") as [v1|]; simpl; [|discriminate].
  destruct (d !! "end_time") as [v2|]; simpl; [|discriminate].
  eauto.
Qed.

Lemma validate_timestamps_true s e p err :
  _validate_timestamps s e p = Ok (true, err) ->
  exists sd ed,
    _parse_timestamp s = Ok sd /\ _parse_timestamp e = Ok ed
    /\ dt_same_kind sd ed = true /\ dt_key sd < dt_key ed.
Proof.
  unfold _validate_timestamps.
  destruct (_parse_timestamp s) as [sd|[]]; simpl; try discriminate.
  destruct (_parse_timestamp e) as [ed|[]]; simpl; try discriminate.
  unfold dt_ge, dt_le. rewrite (dt_same_kind_sym ed sd).
  destruct (dt_same_kind sd ed) eqn:Hk; simpl; [|discriminate].
  destruct (dt_key ed <=? dt_key sd) eqn:Hle; [discriminate|].
  intros _. apply Z.leb_gt in Hle. exists sd, ed. auto.
Qed.

(** A valid entry has timestamps that parse, of the same kind, the start
    before the end. *)
Lemma valid_entry_times entry index err :
  validate_schedule_entry float_of_str self entry index = Ok (true, err) ->
  exists t, entry_times entry = Ok t
            /\ dt_same_kind t.1 t.2 = true /\ dt_key t.1 < dt_key t.2.
Proof.
  unfold validate_schedule_entry.
  destruct entry as [| | | | | |d]; try discriminate.
  destruct (find _ required_fields) eqn:Hf; [discriminate|].
  destruct (find_required_none d Hf) as [[v1 H1] [v2 H2]].
  intros H. apply bind_ok in H as ([v e1] & Hts & H).
  destruct v; [|discriminate H].
  unfold dict_get in Hts. rewrite H1, H2 in Hts.
  destruct (validate_timestamps_true _ _ _ _ Hts) as (sd & ed & Hs & He & Hk).
  exists (sd, ed). unfold entry_times. simpl. rewrite H1, H2. simpl.
  rewrite Hs, He. auto.
Qed.

Lemma validate_entries_valid : forall entries i errors pts,
  (forall n e, entries !! n = Some e ->
     validate_schedule_entry float_of_str self e (Some (i + n)%nat)
     = Ok (true, None)) ->
  exists times,
    Forall2 (fun e t => entry_times e = Ok t) entries times
    /\ validate_entries float_of_str self i entries errors pts
       = Ok (errors, (pts ++ parsed_from i times)%list).
Proof.
  induction entries as [|e rest IH]; intros i errors pts Hall.
  - exists []. split; [constructor|]. simpl. rewrite app_nil_r. reflexivity.
  - pose proof (Hall 0%nat e eq_refl) as He. rewrite Nat.add_0_r in He.
    destruct (valid_entry_times e _ _ He) as ([sd ed] & Ht & _).
    destruct (IH (S i) errors (pts ++ [(sd, ed, i)])%list)
      as (times & HF & Hv).
    { intros n e' Hn. replace (S i + n)%nat with (i + S n)%nat by lia.
      apply Hall. exact Hn. }
    exists ((sd, ed) :: times). split; [constructor; assumption|].
    simpl. rewrite He. simpl. rewrite Ht, Hv.
    rewrite <- app_assoc. reflexivity.
Qed.

Lemma parsed_from_in s e n : forall times i,
  In (s, e, n) (parsed_from i times) <->
  exists m, n = (i + m)%nat /\ times !! m = Some (s, e).
Proof.
  induction times as [|[s0 e0] rest IH]; intros i; simpl.
  - split; [intros []|intros (m & _ & H); discriminate H].
  - rewrite IH. split.
    + intros [H|(m & -> & Hm)].
      * injection H as -> -> ->. exists 0%nat. split; [lia|reflexivity].
      * exists (S m). split; [lia|exact Hm].
    + intros ([|m] & -> & Hm); simpl in Hm.
      * injection Hm as -> ->. left. f_equal. lia.
      * right. exists m. split; [lia|exact Hm].
Qed.

Lemma parsed_from_indices : forall times i,
  map original_index (parsed_from i times) = seq i (length times).
Proof.
  induction times as [|[s e] rest IH]; intros i; simpl; [reflexivity|].
  rewrite IH. reflexivity.
Qed.

End OverlapDetection.

Section OverlapTheorem.

Variable float_of_str : string -> option float.
Variable self : ScheduleValidator.

(** X1. Overlap detection, when no naive timestamp meets an aware one.  Take
    a schedule whose entries all pass the per-entry checks and whose
    timestamps are all naive or all aware.  If two of its entries overlap,
    in whatever order the entries are listed, [validate_schedule] returns
    [ok = False] and its errors hold an overlap message whose two indices
    are the original indices of two distinct entries that overlap. *)
Theorem overlap_detected_same_kind (entries : list pyval)
    (device : option string) (k : bool) (i j : nat) (ei ej : pyval)
    (ti tj : datetime * datetime) :
  (forall n e, entries !! n = Some e ->
     validate_schedule_entry float_of_str self e (Some n) = Ok (true, None)) ->
  (forall n e t, entries !! n = Some e -> entry_times e = Ok t ->
     dt_is_naive t.1 = k) ->
  i <> j -> entries !! i = Some ei -> entries !! j = Some ej ->
  entry_times ei = Ok ti -> entry_times ej = Ok tj ->
  intervals_overlap ti tj ->
  exists errors idx1 idx2 e1 e2 t1 t2,
    validate_schedule float_of_str self (VList entries) device
    = Ok (false, errors)
    /\ In (MsgOverlap (device_prefix device) idx1 idx2 t1.2 t2.1) errors
    /\ idx1 <> idx2
    /\ entries !! idx1 = Some e1 /\ entries !! idx2 = Some e2
    /\ entry_times e1 = Ok t1 /\ entry_times e2 = Ok t2
    /\ intervals_overlap t1 t2.
Proof.
  intros Hvalid Hkind Hij Hi Hj Hti Htj Hov.
  destruct (validate_entries_valid float_of_str self entries 0 [] [])
    as (times & HF & Hve).
  { intros n e Hn. simpl. apply Hvalid. exact Hn. }
  simpl in Hve. set (pts := parsed_from 0 times) in *.
  (* every parsed entry comes from an entry of the schedule *)
  assert (Hfrom : forall s e n, In (s, e, n) pts ->
            exists en, entries !! n = Some en /\ entry_times en = Ok (s, e)).
  { intros s e n Hin. apply parsed_from_in in Hin as (m & -> & Hm). simpl.
    destruct (Forall2_lookup_r _ _ _ _ _ HF Hm) as (en & Hen & Het).
    eauto. }
  assert (Hto : forall n en t, entries !! n = Some en -> entry_times en = Ok t ->
            In (t.1, t.2, n) pts).
  { intros n en [s e] Hen Het. apply parsed_from_in. exists n.
    split; [reflexivity|].
    destruct (Forall2_lookup_l _ _ _ _ _ HF Hen) as (t' & Ht' & Het').
    rewrite Het in Het'. injection Het' as <-. exact Ht'. }
  assert (Hk : Forall (of_kind k) pts).
  { apply List.Forall_forall. intros [[s e] n] Hin.
    destruct (Hfrom s e n Hin) as (en & Hen & Het).
    pose proof (Hkind n en (s, e) Hen Het) as Hs. simpl in Hs.
    destruct (valid_entry_times float_of_str self en _ _ (Hvalid n en Hen))
      as (t & Ht & Hsame & _).
    rewrite Het in Ht. injection Ht as <-. simpl in Hsame.
    unfold dt_same_kind in Hsame. split; simpl; [exact Hs|].
    rewrite Hs in Hsame. destruct k, (dt_is_naive e); simpl in Hsame;
      congruence. }
  assert (Hlen : Forall (fun z => start_key z < end_key z) pts).
  { apply List.Forall_forall. intros [[s e] n] Hin.
    destruct (Hfrom s e n Hin) as (en & Hen & Het).
    destruct (valid_entry_times float_of_str self en _ _ (Hvalid n en Hen))
      as (t & Ht & _ & Hlt).
    rewrite Het in Ht. injection Ht as <-. exact Hlt. }
  assert (Hnd : List.NoDup (map original_index pts)).
  { unfold pts. rewrite parsed_from_indices. apply List.seq_NoDup. }
  destruct (check_overlaps_detects k (device_prefix device) pts
              (ti.1, ti.2, i) (tj.1, tj.2, j) Hk Hlen Hnd)
    as (errs & [[s1 e1] n1] & [[s2 e2] n2] & Hco & Hin & Ha & Hb & Hne & Hab).
  { exact (Hto i ei ti Hi Hti). }
  { exact (Hto j ej tj Hj Htj). }
  { intros Heq. apply Hij. injection Heq as _ _ ->. reflexivity. }
  { exact Hov. }
  destruct (sorted_by_start_sorts k pts Hk) as (sorted & Hsorted & Hp & _).
  destruct (sequential_sweep_kind k (device_prefix device) sorted)
    as (w & Hw); [apply (Permutation_Forall Hp); exact Hk|].
  destruct (Hfrom s1 e1 n1 Ha) as (en1 & Hen1 & Het1).
  destruct (Hfrom s2 e2 n2 Hb) as (en2 & Hen2 & Het2).
  exists (errs ++ w)%list, n1, n2, en1, en2, (s1, e1), (s2, e2).
  repeat split; auto.
  - unfold validate_schedule. destruct entries as [|e0 rest]; [discriminate Hi|].
    rewrite Hve. simpl.
    rewrite Hco. simpl. unfold _check_sequential. rewrite Hsorted. simpl.
    rewrite Hw. simpl. destruct errs as [|m errs']; [destruct Hin|].
    reflexivity.
  - apply in_or_app. left. exact Hin.
  - apply Hab.
  - apply Hab.
Qed.

End OverlapTheorem.

(** X1 (witness): the second entry starts before the
    first one ends, and is listed first. *)
Lemma overlap_detected_same_kind_witness :
  exists errors idx1 idx2 end1 start2,
    validate_schedule float_of_digits default_validator
      (VList [make_entry "2025-12-25T00:15:00Z" "2025-12-25T00:45:00Z"
                         (VInt 1) (VInt 100);
              make_entry "2025-12-25T00:00:00Z" "2025-12-25T00:30:00Z"
                         (VInt 2) (VInt 50)])
      None
    = Ok (false, errors)
    /\ In (MsgOverlap NoPrefix idx1 idx2 end1 start2) errors
    /\ idx1 <> idx2.
Proof.
  destruct (overlap_detected_same_kind float_of_digits default_validator
              [make_entry "2025-12-25T00:15:00Z" "2025-12-25T00:45:00Z"
                          (VInt 1) (VInt 100);
               make_entry "2025-12-25T00:00:00Z" "2025-12-25T00:30:00Z"
                          (VInt 2) (VInt 50)]
              None true 0 1
              (make_entry "2025-12-25T00:15:00Z" "2025-12-25T00:45:00Z"
                          (VInt 1) (VInt 100))
              (make_entry "2025-12-25T00:00:00Z" "2025-12-25T00:30:00Z"
                          (VInt 2) (VInt 50))
              (mk_datetime (midnight_us + 900 * US_PER_SECOND) None,
               mk_datetime (midnight_us + 2700 * US_PER_SECOND) None)
              (mk_datetime midnight_us None,
               mk_datetime (midnight_us + 1800 * US_PER_SECOND) None))
    as (errors & idx1 & idx2 & e1 & e2 & t1 & t2 & H & Hin & Hne & _).
  - intros [|[|n]] e Hn; simpl in Hn; try discriminate Hn;
      injection Hn as <-; vm_compute; reflexivity.
  - intros [|[|n]] e t Hn Ht; simpl in Hn; try discriminate Hn;
      injection Hn as <-; vm_compute in Ht; injection Ht as <-; reflexivity.
  - discriminate.
  - reflexivity.
  - reflexivity.
  - vm_compute. reflexivity.
  - vm_compute. reflexivity.
  - split; vm_compute; reflexivity.
  - exists errors, idx1, idx2, t1.2, t2.1. auto.
Defined.

(** *** Parsing written timestamps

    The regular expression of each of the five formats is the expression
    of [%Y-%m-%dT%H:%M:%S] followed by a suffix.  On a written date and
    time every field but the last is followed by a literal that is not a
    digit, so the backtracking alternatives that take one digit of a
    two-digit field all fail, and the matches are those of the suffix on
    what follows the seconds. *)

Ltac nat_cases n k :=
  match k with
  | O => idtac
  | S ?k' => destruct n as [|n]; [ | nat_cases n k']
  end.

Ltac literal_digits :=
  repeat match goal with
  | |- context [two_digits ?n] =>
      let t := eval vm_compute in (two_digits n) in
      change (two_digits n) with t
  end.

Ltac field_cases n k HK :=
  nat_cases n k; try lia;
  literal_digits; simpl; cbv beta iota delta [String.append];
  rewrite ?HK by reflexivity; simpl; cbv beta iota delta [String.append];
  rewrite ?app_nil_r; reflexivity.

Lemma rmatch_field_m n K rest :
  (1 <= n <= 12)%nat -> rejects_digits K ->
  rmatch (Seq re_m K) (String.append (two_digits n) rest)
  = map (prepend (two_digits n) [("m"%char, two_digits n)]) (rmatch K rest).
Proof. intros Hn HK. field_cases n 13%nat HK. Qed.

Lemma rmatch_field_d n K rest :
  (1 <= n <= 31)%nat -> rejects_digits K ->
  rmatch (Seq re_d K) (String.append (two_digits n) rest)
  = map (prepend (two_digits n) [("d"%char, two_digits n)]) (rmatch K rest).
Proof. intros Hn HK. field_cases n 32%nat HK. Qed.

Lemma rmatch_field_H n K rest :
  (n <= 23)%nat -> rejects_digits K ->
  rmatch (Seq re_H K) (String.append (two_digits n) rest)
  = map (prepend (two_digits n) [("H"%char, two_digits n)]) (rmatch K rest).
Proof. intros Hn HK. field_cases n 24%nat HK. Qed.

Lemma rmatch_field_M n K rest :
  (n <= 59)%nat -> rejects_digits K ->
  rmatch (Seq re_M K) (String.append (two_digits n) rest)
  = map (prepend (two_digits n) [("M"%char, two_digits n)]) (rmatch K rest).
Proof. intros Hn HK. field_cases n 60%nat HK. Qed.

Lemma rmatch_field_S n K rest :
  (n <= 59)%nat -> rejects_digits K ->
  rmatch (Seq re_S K) (String.append (two_digits n) rest)
  = map (prepend (two_digits n) [("S"%char, two_digits n)]) (rmatch K rest).
Proof. intros Hn HK. field_cases n 60%nat HK. Qed.

Lemma digit_char_range d : (d < 10)%nat -> in_range "0" "9" (digit_char d) = true.
Proof. intros H. nat_cases d 10%nat; try lia; reflexivity. Qed.

Lemma rmatch_dig d s :
  (d < 10)%nat ->
  rmatch dig (String (digit_char d) s) = [(String (digit_char d) "", [], s)].
Proof.
  intros H. unfold dig, rng. cbn [rmatch]. rewrite digit_char_range by exact H.
  reflexivity.
Qed.

Lemma lit_rejects_digits c K :
  in_range "0" "9" (ascii_lower c) = false ->
  rejects_digits (Seq (lit c) K).
Proof.
  intros Hc x s Hx. cbn [rmatch lit].
  assert (Hl : ascii_lower x = x).
  { unfold ascii_lower.
    destruct x as [[] [] [] [] [] [] [] []]; try discriminate Hx; reflexivity. }
  rewrite Hl.
  destruct (Ascii.eqb x (ascii_lower c)) eqn:He; [|reflexivity].
  apply Ascii.eqb_eq in He. subst x. rewrite Hx in Hc. discriminate.
Qed.

Lemma re_z_rejects_digits K : rejects_digits (Seq re_z K).
Proof.
  intros x s Hx.
  destruct x as [[] [] [] [] [] [] [] []]; try discriminate Hx; reflexivity.
Qed.

Lemma rmatch_lit c K rest :
  rmatch (Seq (lit c) K) (String c rest)
  = map (prepend (String c "") []) (rmatch K rest).
Proof.
  cbn [rmatch lit]. rewrite Ascii.eqb_refl. cbn [flat_map]. apply app_nil_r.
Qed.

Lemma four_digits_lt n :
  Z.of_nat n <= 9999 ->
  (n / 1000 < 10 /\ n / 100 mod 10 < 10 /\ n mod 100 / 10 < 10 /\ n mod 100 mod 10 < 10)%nat.
Proof. intros H. zify. Z.to_euclidean_division_equations. lia. Qed.

Lemma rmatch_field_Y n K rest :
  Z.of_nat n <= 9999 ->
  rmatch (Seq re_Y K) (String.append (four_digits n) rest)
  = map (prepend (four_digits n) [("Y"%char, four_digits n)]) (rmatch K rest).
Proof.
  intros H. destruct (four_digits_lt n H) as (H1 & H2 & H3 & H4).
  unfold four_digits, two_digits, re_Y.
  cbv beta iota delta [String.append].
  cbn [rmatch]. rewrite !rmatch_dig by assumption.
  cbn [rmatch flat_map map app prepend]. rewrite !rmatch_dig by assumption.
  cbn [rmatch flat_map map app prepend]. rewrite !rmatch_dig by assumption.
  cbn [rmatch flat_map map app prepend]. rewrite !rmatch_dig by assumption.
  cbn [rmatch flat_map map app prepend].
  cbv beta iota delta [String.append]. rewrite app_nil_r. reflexivity.
Qed.

Lemma format_regex_1 :
  format_regex "%Y-%m-%dT%H:%M:%SZ" = Some (stamp_regex (Seq (lit "Z") Eps)).
Proof. reflexivity. Qed.
Lemma format_regex_2 :
  format_regex "%Y-%m-%dT%H:%M:%S%z" = Some (stamp_regex (Seq re_z Eps)).
Proof. reflexivity. Qed.
Lemma format_regex_3 :
  format_regex "%Y-%m-%dT%H:%M:%S" = Some (stamp_regex Eps).
Proof. reflexivity. Qed.
Lemma format_regex_4 :
  format_regex "%Y-%m-%dT%H:%M:%S.%fZ"
  = Some (stamp_regex (Seq (lit ".") (Seq re_f (Seq (lit "Z") Eps)))).
Proof. reflexivity. Qed.
Lemma format_regex_5 :
  format_regex "%Y-%m-%dT%H:%M:%S.%f"
  = Some (stamp_regex (Seq (lit ".") (Seq re_f Eps))).
Proof. reflexivity. Qed.

Lemma rmatch_stamp w suffix tail :
  date_time_ok w -> rejects_digits suffix ->
  rmatch (stamp_regex suffix) (render_datetime w tail)
  = map (stamp_prepend w) (rmatch suffix tail).
Proof.
  intros (Hy & Hm & Hd & HH & HM & HS) Hsuf.
  unfold stamp_regex, render_datetime.
  rewrite rmatch_field_Y by lia. rewrite rmatch_lit.
  rewrite rmatch_field_m by (try exact Hm; apply lit_rejects_digits; reflexivity).
  rewrite rmatch_lit.
  rewrite rmatch_field_d by (try exact Hd; apply lit_rejects_digits; reflexivity).
  rewrite rmatch_lit.
  rewrite rmatch_field_H by (try exact HH; apply lit_rejects_digits; reflexivity).
  rewrite rmatch_lit.
  rewrite rmatch_field_M by (try exact HM; apply lit_rejects_digits; reflexivity).
  rewrite rmatch_lit.
  rewrite rmatch_field_S by assumption.
  rewrite !map_map. apply map_ext. intros [[m c] s]. reflexivity.
Qed.

(** The seconds followed by the end of the format: the first match takes
    both digits. *)
Lemma rmatch_seconds_end n tail :
  (n <= 59)%nat ->
  exists others,
    rmatch (Seq re_S Eps) (String.append (two_digits n) tail)
    = (two_digits n, [("S"%char, two_digits n)], tail) :: others.
Proof.
  intros Hn. nat_cases n 60%nat; try lia;
    literal_digits; simpl; cbv beta iota delta [String.append];
    eexists; reflexivity.
Qed.

Lemma rmatch_stamp_end w tail :
  date_time_ok w ->
  exists others,
    rmatch (stamp_regex Eps) (render_datetime w tail)
    = stamp_prepend w ("", [], tail) :: others.
Proof.
  intros (Hy & Hm & Hd & HH & HM & HS).
  unfold stamp_regex, render_datetime.
  rewrite rmatch_field_Y by lia. rewrite rmatch_lit.
  rewrite rmatch_field_m by (try exact Hm; apply lit_rejects_digits; reflexivity).
  rewrite rmatch_lit.
  rewrite rmatch_field_d by (try exact Hd; apply lit_rejects_digits; reflexivity).
  rewrite rmatch_lit.
  rewrite rmatch_field_H by (try exact HH; apply lit_rejects_digits; reflexivity).
  rewrite rmatch_lit.
  rewrite rmatch_field_M by (try exact HM; apply lit_rejects_digits; reflexivity).
  rewrite rmatch_lit.
  destruct (rmatch_seconds_end (w_second w) tail HS) as (others & ->).
  rewrite !map_map. cbn [map]. eexists. reflexivity.
Qed.

(** Conversions *)
Lemma digit_char_val d : (d < 10)%nat -> digit_val (digit_char d) = Z.of_nat d.
Proof. intros H. nat_cases d 10%nat; try lia; reflexivity. Qed.

Lemma lstrip_digit d s :
  (d < 10)%nat -> lstrip_spaces (String (digit_char d) s) = String (digit_char d) s.
Proof. intros H. nat_cases d 10%nat; try lia; reflexivity. Qed.

Lemma py_int_two n : (n <= 99)%nat -> py_int (two_digits n) = Ok (Z.of_nat n).
Proof.
  intros H. unfold py_int, two_digits.
  assert (H1 : (n / 10 < 10)%nat) by (zify; Z.to_euclidean_division_equations; lia).
  assert (H2 : (n mod 10 < 10)%nat) by (zify; Z.to_euclidean_division_equations; lia).
  rewrite lstrip_digit by exact H1.
  cbn [String.eqb all_digits digits_value negb andb].
  destruct (String.eqb_spec (String (digit_char (n / 10)) (String (digit_char (n mod 10)) "")) "") as [E|_];
    [discriminate E|].
  rewrite !digit_char_range, !digit_char_val by assumption.
  cbn [negb andb]. f_equal. zify; Z.to_euclidean_division_equations; lia.
Qed.

Lemma py_int_four n : Z.of_nat n <= 9999 -> py_int (four_digits n) = Ok (Z.of_nat n).
Proof.
  intros H. destruct (four_digits_lt n H) as (H1 & H2 & H3 & H4).
  unfold py_int, four_digits, two_digits.
  rewrite lstrip_digit by exact H1.
  match goal with |- context [String.eqb ?a ""] =>
    destruct (String.eqb_spec a "") as [E|_]; [discriminate E|] end.
  cbn [all_digits digits_value negb andb].
  rewrite !digit_char_range, !digit_char_val by assumption.
  cbn [negb andb]. f_equal. zify; Z.to_euclidean_division_equations; lia.
Qed.


Lemma fields_ok_intro y mo d h mi s us :
  1 <= y <= 9999 -> 1 <= mo <= 12 -> 1 <= d <= _days_in_month y mo ->
  0 <= h <= 23 -> 0 <= mi <= 59 -> 0 <= s <= 59 -> 0 <= us <= 999999 ->
  fields_ok y mo d h mi s us = true.
Proof.
  intros. unfold fields_ok.
  repeat (apply andb_true_intro; split); apply Z.leb_le; lia.
Qed.

Lemma days_in_month_le y mo : _days_in_month y mo <= 31.
Proof.
  unfold _days_in_month. destruct ((mo =? 2) && _is_leap y); [lia|].
  unfold _DAYS_IN_MONTH.
  destruct (Z.to_nat (mo - 1)) as [|[|[|[|[|[|[|[|[|[|[|[|n]]]]]]]]]]]]; simpl; try lia.
  destruct n; simpl; lia.
Qed.

Lemma well_formed_date_time w : well_formed w -> date_time_ok w.
Proof.
  intros (Hy & Hm & Hd1 & Hd2 & HH & HM & HS & _).
  pose proof (days_in_month_le (Z.of_nat (w_year w)) (Z.of_nat (w_month w))).
  unfold date_time_ok. repeat split; try lia.
Qed.

Lemma group_stamp_skip name w extra :
  In name ["f"%char; "z"%char] ->
  group name (stamp_captures w ++ extra)%list = group name extra.
Proof. intros [<-|[<-|[]]]; reflexivity. Qed.

Lemma group_stamp w extra :
  group "Y" (stamp_captures w ++ extra)%list = Some (four_digits (w_year w))
  /\ group "m" (stamp_captures w ++ extra)%list = Some (two_digits (w_month w))
  /\ group "d" (stamp_captures w ++ extra)%list = Some (two_digits (w_day w))
  /\ group "H" (stamp_captures w ++ extra)%list = Some (two_digits (w_hour w))
  /\ group "M" (stamp_captures w ++ extra)%list = Some (two_digits (w_minute w))
  /\ group "S" (stamp_captures w ++ extra)%list = Some (two_digits (w_second w)).
Proof. repeat split; reflexivity. Qed.

(** The conversion of the groups of a written date and time. *)
Lemma convert_stamp w extra us tz :
  well_formed w ->
  match group "f" extra with Some s => convert_f s | None => Ok 0 end = Ok us ->
  match group "z" extra with
  | Some z => off ← convert_z z; Ok (Some off)
  | None => Ok None
  end = Ok tz ->
  0 <= us <= 999999 ->
  match tz with Some off => offset_ok off = true | None => True end ->
  convert_groups (stamp_captures w ++ extra)%list
  = Ok (mk_datetime
          (local_us (Z.of_nat (w_year w)) (Z.of_nat (w_month w))
             (Z.of_nat (w_day w)) (Z.of_nat (w_hour w))
             (Z.of_nat (w_minute w)) (Z.of_nat (w_second w)) us) tz).
Proof.
  intros Hw Hf Hz Hus Htz.
  pose proof Hw as (Hy & Hm & Hd1 & Hd2 & HH & HM & HS & _).
  destruct (group_stamp w extra) as (GY & Gm & Gd & GH & GM & GS).
  pose proof (days_in_month_le (Z.of_nat (w_year w)) (Z.of_nat (w_month w)))
    as Hd31.
  unfold convert_groups, int_group.
  rewrite !group_stamp_skip by (simpl; auto).
  rewrite GY, Gm, Gd, GH, GM, GS, Hf, Hz.
  rewrite py_int_four by lia. rewrite !py_int_two by lia.
  cbn [mbind result_bind]. unfold datetime_new.
  rewrite fields_ok_intro by lia.
  destruct tz as [off|]; [rewrite Htz|]; reflexivity.
Qed.

Lemma rmatch_K_digit K d s :
  rejects_digits K -> (d < 10)%nat -> rmatch K (String (digit_char d) s) = [].
Proof. intros HK Hd. apply HK. apply digit_char_range. exact Hd. Qed.

Ltac step_digits :=
  repeat (first
    [ rewrite rmatch_dig by assumption
    | rewrite rmatch_K_digit by assumption
    | progress cbn [rmatch flat_map map app prepend] ]).

Lemma rmatch_fraction ds K tail :
  digits_ok ds -> rejects_digits K -> rmatch dig tail = [] ->
  rmatch (Seq re_f K) (String.append (digits_string ds) tail)
  = map (prepend (digits_string ds) [("f"%char, digits_string ds)])
        (rmatch K tail).
Proof.
  intros [Hlen Hds] HK Htail.
  destruct ds as [|a [|b [|c [|d [|e [|f [|g ds]]]]]]]; simpl in Hlen; try lia;
    repeat match goal with
    | H : Forall _ (_ :: _) |- _ => apply Forall_cons in H as [? H]
    end;
    unfold re_f, dig1to6; cbv beta iota delta [digits_string String.append];
    step_digits; rewrite ?Htail; step_digits;
    cbv beta iota delta [String.append]; rewrite ?app_nil_r.
  all: reflexivity.
Qed.

Lemma rmatch_fraction_end ds tail :
  digits_ok ds -> rmatch dig tail = [] ->
  exists others,
    rmatch (Seq re_f Eps) (String.append (digits_string ds) tail)
    = (digits_string ds, [("f"%char, digits_string ds)], tail) :: others.
Proof.
  intros [Hlen Hds] Htail.
  destruct ds as [|a [|b [|c [|d [|e [|f [|g ds]]]]]]]; simpl in Hlen; try lia;
    repeat match goal with
    | H : Forall _ (_ :: _) |- _ => apply Forall_cons in H as [? H]
    end;
    unfold re_f, dig1to6; cbv beta iota delta [digits_string String.append];
    step_digits; rewrite ?Htail; step_digits;
    cbv beta iota delta [String.append]; eexists; reflexivity.
Qed.

Lemma digit_char_range05 d : (d <= 5)%nat -> in_range "0" "5" (digit_char d) = true.
Proof. intros H. nat_cases d 6%nat; try lia; reflexivity. Qed.

Lemma rmatch_rng05 d s :
  (d <= 5)%nat ->
  rmatch (rng "0" "5") (String (digit_char d) s)
  = [(String (digit_char d) "", [], s)].
Proof.
  intros H. unfold rng. cbn [rmatch]. rewrite digit_char_range05 by exact H.
  reflexivity.
Qed.

Lemma two_digits_lt n :
  (n <= 99)%nat -> (n / 10 < 10)%nat /\ (n mod 10 < 10)%nat.
Proof. intros H. zify. Z.to_euclidean_division_equations. lia. Qed.

Lemma rmatch_rng_nil lo hi : rmatch (rng lo hi) "" = [].
Proof. reflexivity. Qed.
Lemma rmatch_dig_nil : rmatch dig "" = [].
Proof. reflexivity. Qed.
Lemma rmatch_rng05_colon s : rmatch (rng "0" "5") (String ":" s) = [].
Proof. reflexivity. Qed.

Ltac step_zone :=
  repeat (first
    [ rewrite rmatch_dig by assumption
    | rewrite rmatch_rng05 by assumption
    | rewrite rmatch_rng_nil
    | rewrite rmatch_dig_nil
    | rewrite rmatch_rng05_colon
    | progress cbn [rmatch chr lit flat_map map app prepend Ascii.eqb Bool.eqb
                    ascii_lower] ]).

Lemma zone_offset_matches negative hh mm :
  (hh <= 23)%nat -> (mm <= 59)%nat ->
  let z := render_zone (ZoneOffset negative hh mm) in
  rmatch (Seq re_z Eps) z = [(z, [("z"%char, z)], "")]
  /\ rmatch (Seq (lit "Z") Eps) z = []
  /\ rmatch dig z = [].
Proof.
  intros Hh Hm z. subst z.
  destruct (two_digits_lt hh ltac:(lia)) as [Hh1 Hh2].
  destruct (two_digits_lt mm ltac:(lia)) as [Hm1 Hm2].
  assert (Hm5 : (mm / 10 <= 5)%nat) by (zify; Z.to_euclidean_division_equations; lia).
  unfold re_z, render_zone, two_digits.
  cbv beta iota delta [String.append].
  destruct negative; (split; [|split; reflexivity]).
  - step_zone. cbv beta iota delta [String.append]. reflexivity.
  - step_zone. cbv beta iota delta [String.append]. reflexivity.
Qed.

Lemma py_int_two_chars n :
  (n <= 99)%nat ->
  py_int (String (digit_char (n / 10)) (String (digit_char (n mod 10)) ""))
  = Ok (Z.of_nat n).
Proof. exact (py_int_two n). Qed.

Ltac step_convert :=
  repeat (first
    [ rewrite bool_decide_eq_true_2 by reflexivity
    | rewrite bool_decide_eq_false_2 by discriminate
    | rewrite py_int_two_chars by lia
    | progress cbn [String.eqb Ascii.eqb Bool.eqb String.get substring str_from
                    String.length Nat.sub Nat.ltb Nat.leb mbind result_bind
                    zeros] ]).

Lemma zone_offset_converts negative hh mm :
  (hh <= 23)%nat -> (mm <= 59)%nat ->
  convert_z (render_zone (ZoneOffset negative hh mm)) ≫= (fun off => Ok (Some off))
  = Ok (zone_offset (ZoneOffset negative hh mm))
  /\ match zone_offset (ZoneOffset negative hh mm) with
     | Some off => offset_ok off = true
     | None => True
     end.
Proof.
  intros Hh Hm. split.
  - unfold convert_z, render_zone, two_digits, zone_offset.
    cbv beta iota delta [String.append].
    destruct negative; step_convert;
      change (py_int "000000") with (Ok 0 : result Z); step_convert;
      do 2 f_equal; unfold US_PER_SECOND; lia.
  - unfold zone_offset, offset_ok, US_PER_DAY, US_PER_SECOND.
    destruct negative; apply andb_true_intro; split; apply Z.ltb_lt; lia.
Qed.

Lemma py_int_digits c s :
  in_range "0" "9" c = true -> all_digits s = true ->
  py_int (String c s) = Ok (digits_value (digit_val c) s).
Proof.
  intros Hc Hs. unfold py_int.
  assert (Hl : lstrip_spaces (String c s) = String c s).
  { destruct c as [[] [] [] [] [] [] [] []]; try discriminate Hc; reflexivity. }
  rewrite Hl. cbn [String.eqb all_digits digits_value negb andb].
  rewrite Hc, Hs. reflexivity.
Qed.

Lemma convert_fraction ds :
  digits_ok ds ->
  convert_f (digits_string ds) = Ok (fraction_us ds)
  /\ 0 <= fraction_us ds <= 999999.
Proof.
  intros [Hlen Hds].
  destruct ds as [|a [|b [|c [|d [|e [|f [|g ds]]]]]]]; simpl in Hlen; try lia;
    repeat match goal with
    | H : Forall _ (_ :: _) |- _ => apply Forall_cons in H as [? H]
    end;
    unfold convert_f, fraction_us;
    cbn [digits_string String.length Nat.sub zeros fold_left length];
    cbv beta iota delta [String.append];
    change "0"%char with (digit_char 0);
    (rewrite py_int_digits;
     [|apply digit_char_range; lia
      |cbn [all_digits]; rewrite !digit_char_range by lia; reflexivity]);
    cbn [digits_value]; rewrite !digit_char_val by lia;
    match goal with
    | |- context [10 ^ ?x] =>
        let v := eval vm_compute in (10 ^ x) in change (10 ^ x) with v
    end;
    (split; [f_equal; lia|lia]).
Qed.

Section Strptime.

Variable w : written.
Hypothesis Hw : well_formed w.

Lemma strptime_no_match fmt suffix tail :
  format_regex fmt = Some (stamp_regex suffix) ->
  rejects_digits suffix -> rmatch suffix tail = [] ->
  strptime (VStr (render_datetime w tail)) fmt = Raise ValueError.
Proof.
  intros Hf Hs Ht. unfold strptime, strptime_str. rewrite Hf.
  rewrite rmatch_stamp by (auto using well_formed_date_time).
  rewrite Ht. reflexivity.
Qed.

Lemma strptime_match fmt suffix tail m extra others :
  format_regex fmt = Some (stamp_regex suffix) ->
  rejects_digits suffix -> rmatch suffix tail = (m, extra, "") :: others ->
  strptime (VStr (render_datetime w tail)) fmt
  = convert_groups (stamp_captures w ++ extra)%list.
Proof.
  intros Hf Hs Ht. unfold strptime, strptime_str. rewrite Hf.
  rewrite rmatch_stamp by (auto using well_formed_date_time).
  rewrite Ht. reflexivity.
Qed.

Lemma strptime_unconverted fmt suffix tail m extra rest others :
  format_regex fmt = Some (stamp_regex suffix) ->
  rejects_digits suffix -> rmatch suffix tail = (m, extra, rest) :: others ->
  rest <> "" ->
  strptime (VStr (render_datetime w tail)) fmt = Raise ValueError.
Proof.
  intros Hf Hs Ht Hr. unfold strptime, strptime_str. rewrite Hf.
  rewrite rmatch_stamp by (auto using well_formed_date_time).
  rewrite Ht. cbn [map stamp_prepend].
  destruct (String.eqb_spec rest "") as [E|_]; [contradiction|reflexivity].
Qed.

Lemma strptime_end tail :
  strptime (VStr (render_datetime w tail)) "%Y-%m-%dT%H:%M:%S"
  = if String.eqb tail "" then convert_groups (stamp_captures w ++ [])%list
    else Raise ValueError.
Proof.
  unfold strptime, strptime_str. rewrite format_regex_3.
  destruct (rmatch_stamp_end w tail (well_formed_date_time w Hw)) as (others & ->).
  cbn [stamp_prepend]. destruct (String.eqb tail ""); reflexivity.
Qed.

End Strptime.

Lemma try_except_value_error {A} (body : result A) h :
  body = Raise ValueError -> try_except body [ValueError] h = h ValueError.
Proof. intros ->. reflexivity. Qed.

Lemma try_except_ok {A} (body : result A) h a :
  body = Ok a -> try_except body [ValueError] h = Ok a.
Proof. intros ->. reflexivity. Qed.

Lemma well_formed_digits w :
  well_formed w -> has_fraction w = true -> digits_ok (w_fraction w).
Proof.
  intros (_ & _ & _ & _ & _ & _ & _ & Hl & Hd & _) Hf. unfold has_fraction in Hf.
  split; [|exact Hd]. destruct (w_fraction w); [discriminate Hf|simpl in *; lia].
Qed.

Lemma render_fraction_tail ds tail :
  ds <> [] ->
  String.append (render_fraction ds) tail
  = String "." (String.append (digits_string ds) tail).
Proof. destruct ds; [contradiction|reflexivity]. Qed.

Lemma instant_of_eq w :
  instant_of w
  = mk_datetime
      (local_us (Z.of_nat (w_year w)) (Z.of_nat (w_month w)) (Z.of_nat (w_day w))
                (Z.of_nat (w_hour w)) (Z.of_nat (w_minute w))
                (Z.of_nat (w_second w)) (fraction_us (w_fraction w)))
      (zone_offset (w_zone w)).
Proof. reflexivity. Qed.

Lemma parse_written w :
  well_formed w -> has_fraction w && has_offset w = false ->
  _parse_timestamp (VStr (render w)) = Ok (instant_of w).
Proof.
  intros Hw Hv.
  pose proof Hw as (_ & _ & _ & _ & _ & _ & _ & _ & _ & Hz).
  unfold _parse_timestamp, formats. cbn [try_formats]. unfold render.
  rewrite instant_of_eq.
  destruct (w_fraction w) as [|d0 ds] eqn:Hfr.
  - (* no fraction *)
    change (String.append (render_fraction []) (render_zone (w_zone w)))
      with (render_zone (w_zone w)).
    destruct (w_zone w) as [| |negative hh mm] eqn:Hzone.
    + (* nothing after the seconds: the third format *)
      rewrite (try_except_value_error (strptime _ "%Y-%m-%dT%H:%M:%SZ")).
      2:{ apply (strptime_no_match w Hw _ _ _ format_regex_1);
            [apply lit_rejects_digits|]; reflexivity. }
      rewrite (try_except_value_error (strptime _ "%Y-%m-%dT%H:%M:%S%z")).
      2:{ apply (strptime_no_match w Hw _ _ _ format_regex_2);
            [apply re_z_rejects_digits|]; reflexivity. }
      apply try_except_ok. rewrite (strptime_end w Hw). cbn [String.eqb render_zone].
      apply convert_stamp;
        [exact Hw|reflexivity|reflexivity|vm_compute; split; discriminate
        |exact I].
    + (* Z: the first format *)
      apply try_except_ok.
      rewrite (strptime_match w Hw _ _ _ "Z" [] [] format_regex_1);
        [|apply lit_rejects_digits; reflexivity|reflexivity].
      apply convert_stamp;
        [exact Hw|reflexivity|reflexivity|vm_compute; split; discriminate
        |exact I].
    + (* a numeric offset: the second format *)
      destruct Hz as [Hhh Hmm].
      destruct (zone_offset_matches negative hh mm Hhh Hmm) as (Hm2 & Hm1 & _).
      destruct (zone_offset_converts negative hh mm Hhh Hmm) as (Hc & Hok).
      rewrite (try_except_value_error (strptime _ "%Y-%m-%dT%H:%M:%SZ")).
      2:{ apply (strptime_no_match w Hw _ _ _ format_regex_1);
            [apply lit_rejects_digits; reflexivity|exact Hm1]. }
      apply try_except_ok.
      rewrite (strptime_match w Hw _ _ _ _ _ _ format_regex_2
                 (re_z_rejects_digits Eps) Hm2).
      apply convert_stamp;
        [exact Hw|reflexivity|exact Hc|vm_compute; split; discriminate
        |exact Hok].
  - (* a fraction *)
    assert (Hd : digits_ok (d0 :: ds)).
    { rewrite <- Hfr. apply well_formed_digits; [exact Hw|].
      unfold has_fraction. rewrite Hfr. reflexivity. }
    destruct (convert_fraction _ Hd) as (Hcf & Hus).
    rewrite render_fraction_tail by discriminate.
    unfold has_fraction, has_offset in Hv. rewrite Hfr in Hv. simpl in Hv.
    rewrite (try_except_value_error (strptime _ "%Y-%m-%dT%H:%M:%SZ")).
    2:{ apply (strptime_no_match w Hw _ _ _ format_regex_1);
          [apply lit_rejects_digits|]; reflexivity. }
    rewrite (try_except_value_error (strptime _ "%Y-%m-%dT%H:%M:%S%z")).
    2:{ apply (strptime_no_match w Hw _ _ _ format_regex_2);
          [apply re_z_rejects_digits|]; reflexivity. }
    rewrite (try_except_value_error (strptime _ "%Y-%m-%dT%H:%M:%S")).
    2:{ rewrite (strptime_end w Hw). reflexivity. }
    destruct (w_zone w) as [| |negative hh mm] eqn:Hzone; [| |discriminate Hv].
    + (* fraction, then nothing: the fifth format *)
      cbn [render_zone].
      rewrite (try_except_value_error (strptime _ "%Y-%m-%dT%H:%M:%S.%fZ")).
      2:{ apply (strptime_no_match w Hw _ _ _ format_regex_4);
            [apply lit_rejects_digits; reflexivity|].
          rewrite rmatch_lit.
          rewrite rmatch_fraction;
            [reflexivity|exact Hd|apply lit_rejects_digits; reflexivity
            |reflexivity]. }
      apply try_except_ok.
      destruct (rmatch_fraction_end (d0 :: ds) "" Hd eq_refl) as (others & Hm).
      assert (exists m others',
                rmatch (Seq (lit ".") (Seq re_f Eps))
                  (String "." (String.append (digits_string (d0 :: ds)) ""))
                = (m, [("f"%char, digits_string (d0 :: ds))], "") :: others')
        as (m & others' & Hs5).
      { rewrite rmatch_lit, Hm. cbn [map prepend app]. eexists _, _.
        reflexivity. }
      rewrite (strptime_match w Hw _ _ _ _ _ _ format_regex_5
                 (lit_rejects_digits "." _ eq_refl) Hs5).
      apply convert_stamp; [exact Hw|exact Hcf|reflexivity|exact Hus|exact I].
    + (* fraction, then Z: the fourth format *)
      cbn [render_zone].
      apply try_except_ok.
      assert (exists m others',
                rmatch (Seq (lit ".") (Seq re_f (Seq (lit "Z") Eps)))
                  (String "." (String.append (digits_string (d0 :: ds)) "Z"))
                = (m, [("f"%char, digits_string (d0 :: ds))], "") :: others')
        as (m & others' & Hs4).
      { rewrite rmatch_lit.
        rewrite rmatch_fraction;
          [|exact Hd|apply lit_rejects_digits; reflexivity|reflexivity].
        eexists _, _. reflexivity. }
      rewrite (strptime_match w Hw _ _ _ _ _ _ format_regex_4
                 (lit_rejects_digits "." _ eq_refl) Hs4).
      apply convert_stamp; [exact Hw|exact Hcf|reflexivity|exact Hus|exact I].
Qed.

Lemma fraction_with_offset_rejected w :
  well_formed w -> has_fraction w && has_offset w = true ->
  _parse_timestamp (VStr (render w)) = Raise ValueError.
Proof.
  intros Hw Hv.
  pose proof Hw as (_ & _ & _ & _ & _ & _ & _ & _ & _ & Hz).
  apply andb_prop in Hv as [Hf Ho].
  pose proof (well_formed_digits w Hw Hf) as Hd.
  unfold has_fraction in Hf. unfold has_offset in Ho.
  destruct (w_fraction w) as [|d0 ds] eqn:Hfr; [discriminate Hf|].
  destruct (w_zone w) as [| |negative hh mm] eqn:Hzone; try discriminate Ho.
  destruct Hz as [Hhh Hmm].
  destruct (zone_offset_matches negative hh mm Hhh Hmm) as (_ & HmZ & Hmd).
  unfold _parse_timestamp, formats. cbn [try_formats]. unfold render.
  rewrite Hfr, Hzone. rewrite render_fraction_tail by discriminate.
  rewrite (try_except_value_error (strptime _ "%Y-%m-%dT%H:%M:%SZ")).
  2:{ apply (strptime_no_match w Hw _ _ _ format_regex_1);
        [apply lit_rejects_digits|]; reflexivity. }
  rewrite (try_except_value_error (strptime _ "%Y-%m-%dT%H:%M:%S%z")).
  2:{ apply (strptime_no_match w Hw _ _ _ format_regex_2);
        [apply re_z_rejects_digits|]; reflexivity. }
  rewrite (try_except_value_error (strptime _ "%Y-%m-%dT%H:%M:%S")).
  2:{ rewrite (strptime_end w Hw). reflexivity. }
  rewrite (try_except_value_error (strptime _ "%Y-%m-%dT%H:%M:%S.%fZ")).
  2:{ apply (strptime_no_match w Hw _ _ _ format_regex_4);
        [apply lit_rejects_digits; reflexivity|].
      rewrite rmatch_lit.
      rewrite rmatch_fraction;
        [|exact Hd|apply lit_rejects_digits; reflexivity|exact Hmd].
      rewrite HmZ. reflexivity. }
  rewrite (try_except_value_error (strptime _ "%Y-%m-%dT%H:%M:%S.%f")).
  2:{ destruct (rmatch_fraction_end (d0 :: ds) _ Hd Hmd) as (others & Hm).
      eapply (strptime_unconverted w Hw _ _ _ _ _ _ _ format_regex_5).
      - apply lit_rejects_digits. reflexivity.
      - rewrite rmatch_lit, Hm. cbn [map prepend]. reflexivity.
      - destruct negative; discriminate. }
  reflexivity.
Qed.

(** An entry one of whose timestamps no format accepts is rejected with the
    invalid-timestamp message. *)
Lemma unparsable_timestamp_rejected (float_of_str : string -> option float)
    (self : ScheduleValidator) (d : gmap string pyval)
    (start_time end_time mode rate_kw : pyval) (index : option nat) :
  d !! "start_time" = Some start_time ->
  d !! "end_time" = Some end_time ->
  d !! "mode" = Some mode ->
  d !! "rate_kw" = Some rate_kw ->
  _parse_timestamp start_time = Raise ValueError
  \/ (is_ok (_parse_timestamp start_time) = true
      /\ _parse_timestamp end_time = Raise ValueError) ->
  validate_schedule_entry float_of_str self (VDict d) index
  = Ok (false, Some (MsgInvalidTimestamp (entry_prefix index))).
Proof.
  intros Hs He Hm Hr Hbad. unfold validate_schedule_entry.
  rewrite (required_fields_present d _ _ _ _ Hs He Hm Hr).
  unfold dict_get. rewrite Hs, He, Hm, Hr. unfold _validate_timestamps.
  destruct Hbad as [->|[Hok ->]]; [reflexivity|].
  destruct (_parse_timestamp start_time); [reflexivity|discriminate Hok].
Qed.

(** C5, as the code has it.  A timestamp written as a zero-padded date and
    time of day, followed by nothing, by [Z], by a numeric UTC offset, by a
    fraction of a second of one to six digits, or by such a fraction and
    [Z], is parsed by [_parse_timestamp] into the datetime it denotes.  The
    sixth combination, a fraction followed by a numeric offset, is accepted
    by none of the five formats: [_parse_timestamp] raises [ValueError].
    And an entry with a timestamp for which [_parse_timestamp] raises
    [ValueError] is rejected with the invalid-timestamp error. *)
Theorem parse_timestamp_accepted_variants :
  (forall w, well_formed w -> has_fraction w && has_offset w = false ->
     _parse_timestamp (VStr (render w)) = Ok (instant_of w))
  /\ (forall w, well_formed w -> has_fraction w && has_offset w = true ->
        _parse_timestamp (VStr (render w)) = Raise ValueError)
  /\ (forall float_of_str self (d : gmap string pyval)
             start_time end_time mode rate_kw index,
        d !! "start_time" = Some start_time ->
        d !! "end_time" = Some end_time ->
        d !! "mode" = Some mode ->
        d !! "rate_kw" = Some rate_kw ->
        _parse_timestamp start_time = Raise ValueError
        \/ (is_ok (_parse_timestamp start_time) = true
            /\ _parse_timestamp end_time = Raise ValueError) ->
        validate_schedule_entry float_of_str self (VDict d) index
        = Ok (false, Some (MsgInvalidTimestamp (entry_prefix index)))).
Proof.
  split; [exact parse_written|].
  split; [exact fraction_with_offset_rejected|].
  exact unparsable_timestamp_rejected.
Qed.

Lemma written_with_Z_well_formed : well_formed written_with_Z.
Proof.
  unfold well_formed, written_with_Z. simpl.
  repeat split; try lia; try (vm_compute; discriminate).
  repeat constructor.
Defined.

(** C5 (witness): the fourth format. *)
Lemma parse_timestamp_accepted_variants_witness :
  _parse_timestamp (VStr "2025-12-25T07:05:59.123Z")
  = Ok (mk_datetime 63902243159123000 None).
Proof.
  exact (proj1 parse_timestamp_accepted_variants written_with_Z
           written_with_Z_well_formed eq_refl).
Defined.

(** C5 (counterexample).  Half a second past midnight with an explicit zero
    offset is one of the combinations of the claim: fractional seconds and
    a numeric UTC offset.  No format accepts it. *)
Lemma fraction_with_offset_not_parsed :
  well_formed written_with_fraction_and_offset
  /\ has_fraction written_with_fraction_and_offset = true
  /\ has_offset written_with_fraction_and_offset = true
  /\ render written_with_fraction_and_offset = "2025-12-25T00:00:00.5+00:00"
  /\ _parse_timestamp (VStr "2025-12-25T00:00:00.5+00:00") = Raise ValueError.
Proof.
  split.
  - unfold well_formed, written_with_fraction_and_offset. simpl.
    repeat split; try lia; try (vm_compute; discriminate).
    repeat constructor.
  - repeat split; vm_compute; reflexivity.
Qed.

(** *** What [validate_schedule_entry] accepts *)

Section EntryConstraints.

Variable float_of_str : string -> option float.
Variable self : ScheduleValidator.

Lemma find_required_iff (d : gmap string pyval) :
  find (fun field => negb (dict_has d field)) required_fields = None <->
  exists a b c e,
    d !! "start_time" = Some a /\ d !! "end_time" = Some b
    /\ d !! "mode" = Some c /\ d !! "rate_kw" = Some e.
Proof.
  split.
  - unfold required_fields, dict_has. simpl.
    destruct (d !! "start_time") as [a|]; simpl; [|discriminate].
    destruct (d !! "end_time") as [b|]; simpl; [|discriminate].
    destruct (d !! "mode") as [c|]; simpl; [|discriminate].
    destruct (d !! "rate_kw") as [e|]; simpl; [|discriminate].
    intros _. exists a, b, c, e. auto.
  - intros (a & b & c & e & H1 & H2 & H3 & H4).
    exact (required_fields_present d a b c e H1 H2 H3 H4).
Qed.

Lemma validate_timestamps_iff s e p err :
  _validate_timestamps s e p = Ok (true, err) <->
  err = None /\ timestamps_valid s e.
Proof.
  unfold _validate_timestamps, timestamps_valid, shorter_than_minutes,
    longer_than_hours, MIN_INTERVAL_MINUTES, MAX_INTERVAL_HOURS.
  split.
  - destruct (_parse_timestamp s) as [sd|[]]; simpl; try discriminate.
    destruct (_parse_timestamp e) as [ed|[]]; simpl; try discriminate.
    unfold dt_ge, dt_le, dt_sub. rewrite (dt_same_kind_sym ed sd).
    destruct (dt_same_kind sd ed) eqn:Hk; simpl; [|discriminate].
    destruct (dt_key ed <=? dt_key sd) eqn:Hle; [discriminate|].
    destruct (dt_key ed - dt_key sd <? 1 * 60 * US_PER_SECOND) eqn:Hlo;
      [discriminate|].
    destruct (24 * 3600 * US_PER_SECOND <? dt_key ed - dt_key sd) eqn:Hhi;
      [discriminate|].
    intros H. injection H as <-. split; [reflexivity|].
    apply Z.ltb_ge in Hlo, Hhi. exists sd, ed. repeat split; auto.
  - intros (-> & sd & ed & -> & -> & Hk & Hlo & Hhi). simpl.
    unfold dt_ge, dt_le, dt_sub. rewrite (dt_same_kind_sym ed sd), Hk. simpl.
    unfold US_PER_SECOND in *.
    replace (dt_key ed <=? dt_key sd) with false
      by (symmetry; apply Z.leb_gt; lia).
    replace (dt_key ed - dt_key sd <? 1 * 60 * 1000000) with false
      by (symmetry; apply Z.ltb_ge; lia).
    replace (24 * 3600 * 1000000 <? dt_key ed - dt_key sd) with false
      by (symmetry; apply Z.ltb_ge; lia).
    reflexivity.
Qed.

Lemma validate_mode_iff mode p err :
  _validate_mode self mode p = Ok (true, err) <->
  err = None /\ mode_valid self mode.
Proof.
  unfold _validate_mode, mode_valid. split.
  - destruct (int_value mode) as [z|]; [|discriminate].
    destruct (bool_decide (z ∈ valid_modes self)) eqn:Hz; [|discriminate].
    intros H. injection H as <-. apply bool_decide_eq_true in Hz. eauto.
  - intros (-> & z & -> & Hz).
    rewrite (bool_decide_eq_true_2 _ Hz). reflexivity.
Qed.

Lemma validate_rate_iff rate_kw p err :
  _validate_rate float_of_str self rate_kw p = Ok (true, err) <->
  err = None /\ rate_valid float_of_str self rate_kw.
Proof.
  unfold _validate_rate, rate_valid. split.
  - destruct (py_float float_of_str rate_kw) as [rate|[]]; try discriminate.
    destruct (PrimFloat.ltb rate (min_rate_kw self)) eqn:Hlo; [discriminate|].
    destruct (PrimFloat.ltb (max_rate_kw self) rate) eqn:Hhi; [discriminate|].
    intros H. injection H as <-. eauto.
  - intros (-> & rate & -> & -> & ->). reflexivity.
Qed.

Lemma validate_schedule_entry_accepted (entry : pyval) (index : option nat) :
  (exists (d : gmap string pyval) start_time end_time mode rate_kw,
     entry = VDict d
     /\ d !! "start_time" = Some start_time
     /\ d !! "end_time" = Some end_time
     /\ d !! "mode" = Some mode
     /\ d !! "rate_kw" = Some rate_kw
     /\ timestamps_valid start_time end_time
     /\ mode_valid self mode
     /\ rate_valid float_of_str self rate_kw) ->
  validate_schedule_entry float_of_str self entry index = Ok (true, None).
Proof.
  intros (d & a & b & c & e & -> & Ha & Hb & Hc & He & H1 & H2 & H3).
  unfold validate_schedule_entry.
  rewrite (required_fields_present d a b c e Ha Hb Hc He).
  unfold dict_get. rewrite Ha, Hb, Hc, He.
  rewrite (proj2 (validate_timestamps_iff a b _ None) (conj eq_refl H1)).
  simpl.
  rewrite (proj2 (validate_mode_iff c _ None) (conj eq_refl H2)). simpl.
  rewrite (proj2 (validate_rate_iff e _ None) (conj eq_refl H3)).
  reflexivity.
Qed.

(** X2. What [validate_schedule_entry] accepts, for any validator: exactly
    the dicts that have the four fields, whose two timestamps parse to
    datetimes of the same kind lying one minute to 24 hours apart, whose
    mode is an [int] (a [bool] included) in [valid_modes], and whose rate
    converts with [float] to a value that is neither below [min_rate_kw]
    nor above [max_rate_kw].  An accepted entry has no message. *)
Theorem validate_schedule_entry_accepts_iff (entry : pyval)
    (index : option nat) (err : option msg) :
  validate_schedule_entry float_of_str self entry index = Ok (true, err) <->
  err = None
  /\ exists (d : gmap string pyval) start_time end_time mode rate_kw,
       entry = VDict d
       /\ d !! "start_time" = Some start_time
       /\ d !! "end_time" = Some end_time
       /\ d !! "mode" = Some mode
       /\ d !! "rate_kw" = Some rate_kw
       /\ timestamps_valid start_time end_time
       /\ mode_valid self mode
       /\ rate_valid float_of_str self rate_kw.
Proof.
  split.
  - unfold validate_schedule_entry.
    destruct entry as [| | | | | |d]; try discriminate.
    destruct (find _ required_fields) eqn:Hf; [discriminate|].
    apply find_required_iff in Hf as (a & b & c & e & Ha & Hb & Hc & He).
    unfold dict_get. rewrite Ha, Hb, Hc, He. intros H.
    apply bind_ok in H as ([v1 e1] & H1 & H). destruct v1; [|discriminate H].
    apply validate_timestamps_iff in H1 as [_ H1]. simpl in H.
    apply bind_ok in H as ([v2 e2] & H2 & H). destruct v2; [|discriminate H].
    apply validate_mode_iff in H2 as [_ H2]. simpl in H.
    apply bind_ok in H as ([v3 e3] & H3 & H). destruct v3; [|discriminate H].
    apply validate_rate_iff in H3 as [_ H3]. simpl in H.
    injection H as <-. split; [reflexivity|].
    exists d, a, b, c, e. repeat split; auto.
  - intros (-> & H). exact (validate_schedule_entry_accepted entry index H).
Qed.

End EntryConstraints.
(** *** What [validate_schedule] accepts *)

Lemma dt_eq_true_inv a b :
  dt_eq a b = true -> dt_is_naive a = dt_is_naive b /\ dt_key a = dt_key b.
Proof.
  unfold dt_eq, dt_same_kind. intros H. apply andb_prop in H as [Hk He].
  apply Z.eqb_eq in He. split; [|exact He].
  destruct (dt_is_naive a), (dt_is_naive b); simpl in Hk; congruence.
Qed.

Lemma dt_same_kind_true a b :
  dt_same_kind a b = true <-> dt_is_naive a = dt_is_naive b.
Proof.
  unfold dt_same_kind. destruct (dt_is_naive a), (dt_is_naive b); simpl;
    split; congruence.
Qed.

Lemma insert_by_start_perm x : forall l l',
  insert_by_start x l = Ok l' -> Permutation (x :: l) l'.
Proof.
  induction l as [|y l IH]; intros l' H; simpl in H.
  - injection H as <-. reflexivity.
  - apply bind_ok in H as (before & _ & H). destruct before.
    + apply bind_ok in H as (r & Hr & H). injection H as <-.
      rewrite perm_swap. constructor. exact (IH r Hr).
    + injection H as <-. reflexivity.
Qed.

Lemma sorted_by_start_perm : forall l s,
  sorted_by_start l = Ok s -> Permutation l s.
Proof.
  induction l as [|x l IH]; intros s H; simpl in H.
  - injection H as <-. constructor.
  - apply bind_ok in H as (s0 & Hs0 & H).
    rewrite <- (insert_by_start_perm x s0 s H). constructor. exact (IH s0 Hs0).
Qed.

Lemma sequential_sweep_nil p : forall s,
  sequential_sweep p s = Ok [] -> chained s.
Proof.
  induction s as [|a s IH]; intros H; [exact I|].
  destruct s as [|b s']; [exact I|].
  destruct a as [[s1 e1] i1], b as [[s2 e2] i2].
  cbn [sequential_sweep] in H. cbn [sequential_sweep] in IH.
  apply bind_ok in H as (w & Hw & H).
  apply bind_ok in H as (ws & Hws & H).
  injection H as H. apply app_eq_nil in H as [-> ->].
  split; [|exact (IH Hws)]. simpl.
  unfold dt_ne in Hw. destruct (dt_eq e1 s2); [reflexivity|]. simpl in Hw.
  apply bind_ok in Hw as (gap & _ & Hw).
  destruct (0 <? gap); [discriminate Hw|].
  apply bind_ok in Hw as (over & _ & Hw). discriminate Hw.
Qed.

Lemma chained_sequential_sweep p : forall s,
  chained s -> sequential_sweep p s = Ok [].
Proof.
  induction s as [|a s IH]; intros H; [reflexivity|].
  destruct s as [|b s']; [destruct a as [[? ?] ?]; reflexivity|].
  destruct a as [[s1 e1] i1], b as [[s2 e2] i2].
  destruct H as [He Hc]. simpl in He.
  cbn [sequential_sweep]. cbn [sequential_sweep] in IH.
  rewrite (IH Hc). unfold dt_ne. rewrite He. reflexivity.
Qed.

(** In a chain of intervals of positive length all timestamps are of one
    kind, the starts increase strictly, and every entry ends before every
    later one starts. *)
Lemma chained_kind : forall s a,
  chained (a :: s) ->
  Forall (fun x : parsed => dt_same_kind x.1.1 x.1.2 = true) (a :: s) ->
  Forall (of_kind (dt_is_naive a.1.1)) (a :: s).
Proof.
  induction s as [|b s IH]; intros a Hc Hk.
  - inversion Hk as [|? ? Ha _]; subst. constructor; [|constructor].
    apply dt_same_kind_true in Ha. split; [reflexivity|symmetry; exact Ha].
  - destruct Hc as [He Hc]. inversion Hk as [|? ? Ha Hk']; subst.
    apply dt_same_kind_true in Ha. apply dt_eq_true_inv in He as [He _].
    constructor; [split; [reflexivity|symmetry; exact Ha]|].
    replace (dt_is_naive a.1.1) with (dt_is_naive b.1.1) by congruence.
    exact (IH b Hc Hk').
Qed.

Lemma chained_sorted : forall s,
  chained s -> Forall (fun z => start_key z < end_key z) s ->
  StronglySorted starts_before s /\ ForallOrdPairs ends_before s.
Proof.
  induction s as [|a s IH]; intros Hc Hl; [split; constructor|].
  inversion Hl as [|? ? Ha Hl']; subst.
  destruct s as [|b s'].
  - split; repeat constructor.
  - destruct Hc as [He Hc]. apply dt_eq_true_inv in He as [_ He].
    destruct (IH Hc Hl') as [Hs Hp].
    assert (Hall : Forall (ends_before a) (b :: s')).
    { inversion Hs as [|? ? _ Hb]; subst. constructor.
      - unfold ends_before, end_key, start_key. lia.
      - eapply Forall_impl; [exact Hb|]. intros z Hz.
        unfold ends_before, starts_before, end_key, start_key in *. lia. }
    split; constructor; auto.
    eapply Forall_impl; [exact Hall|]. intros z Hz.
    unfold ends_before, starts_before in *. lia.
Qed.

Lemma chained_no_adjacent_overlap p : forall s,
  chained s -> adjacent_overlaps p s = [].
Proof.
  induction s as [|a s IH]; intros Hc; [reflexivity|].
  destruct s as [|b s']; [reflexivity|].
  destruct Hc as [He Hc]. apply dt_eq_true_inv in He as [_ He].
  cbn [adjacent_overlaps].
  replace (start_key b <? end_key a) with false
    by (symmetry; apply Z.ltb_ge; unfold start_key, end_key; lia).
  exact (IH Hc).
Qed.

(** A list sorted by start and a rearrangement of it whose starts increase
    strictly are the same list. *)
Lemma sorted_unique : forall s c,
  Permutation s c ->
  StronglySorted starts_no_later s -> StronglySorted starts_before c ->
  s = c.
Proof.
  induction s as [|a s IH]; intros c Hp Hs Hc.
  - apply Permutation_nil in Hp. subst. reflexivity.
  - destruct c as [|b c]; [apply Permutation_sym, Permutation_nil in Hp; discriminate|].
    inversion Hs as [|? ? Hs' Ha]; subst.
    inversion Hc as [|? ? Hc' Hb]; subst.
    assert (a = b) as <-.
    { assert (Hin : In a (b :: c))
        by (apply (Permutation_in _ Hp); left; reflexivity).
      destruct Hin as [<-|Hin]; [reflexivity|].
      assert (Hin' : In b (a :: s))
        by (apply (Permutation_in _ (Permutation_sym Hp)); left; reflexivity).
      destruct Hin' as [<-|Hin']; [reflexivity|].
      pose proof (proj1 (List.Forall_forall _ _) Hb a Hin) as H1.
      pose proof (proj1 (List.Forall_forall _ _) Ha b Hin') as H2.
      unfold starts_before, starts_no_later in *. lia. }
    f_equal. apply IH; auto. exact (Permutation_cons_inv Hp).
Qed.

Section ScheduleAcceptance.

Variable float_of_str : string -> option float.
Variable self : ScheduleValidator.

(** When the loop of [validate_schedule] ends without an error, it started
    without one, every entry passed, and [parsed_times] gained the
    timestamps of the entries, in order. *)
Lemma validate_entries_no_error : forall entries i errors pts pts',
  validate_entries float_of_str self i entries errors pts = Ok ([], pts') ->
  errors = []
  /\ (forall n e, entries !! n = Some e ->
        validate_schedule_entry float_of_str self e (Some (i + n)%nat)
        = Ok (true, None))
  /\ exists times,
       Forall2 (fun e t => entry_times e = Ok t) entries times
       /\ pts' = (pts ++ parsed_from i times)%list.
Proof.
  induction entries as [|entry rest IH]; intros i errors pts pts' H; simpl in H.
  - injection H as -> <-. split; [reflexivity|]. split.
    + intros n e Hn. discriminate Hn.
    + exists []. split; [constructor|]. simpl. rewrite app_nil_r. reflexivity.
  - apply bind_ok in H as ([v err] & Hv & H). destruct v; simpl in H.
    + destruct (entry_times entry) as [[sd ed]|[]] eqn:Ht;
        try discriminate H.
      * apply IH in H as (-> & Hall & times & HF & ->).
        split; [reflexivity|]. split.
        -- intros [|n] e Hn; simpl in Hn.
           ++ injection Hn as <-. rewrite Nat.add_0_r.
              exact (validate_entry_valid float_of_str self _ _ _ _ Hv).
           ++ replace (i + S n)%nat with (S i + n)%nat by lia.
              exact (Hall n e Hn).
        -- exists ((sd, ed) :: times). split; [constructor; assumption|].
           simpl. rewrite <- app_assoc. reflexivity.
      * apply IH in H as (Habs & _). destruct errors; discriminate Habs.
    + apply IH in H as (Habs & _). destruct errors; discriminate Habs.
Qed.

Lemma entry_times_unique entries : forall times times',
  Forall2 (fun e t => entry_times e = Ok t) entries times ->
  Forall2 (fun e t => entry_times e = Ok t) entries times' ->
  times = times'.
Proof.
  induction entries as [|e rest IH]; intros times times' H1 H2;
    inversion H1; inversion H2; subst; [reflexivity|].
  f_equal; [congruence|]. apply IH; assumption.
Qed.

(** The parsed entries of a schedule whose entries all pass: each has
    timestamps of one kind, the start before the end. *)
Lemma parsed_entries_valid entries times :
  (forall n e, entries !! n = Some e ->
     validate_schedule_entry float_of_str self e (Some n) = Ok (true, None)) ->
  Forall2 (fun e t => entry_times e = Ok t) entries times ->
  Forall (fun x : parsed => dt_same_kind x.1.1 x.1.2 = true
                            /\ start_key x < end_key x)
         (parsed_from 0 times).
Proof.
  intros Hvalid HF. apply List.Forall_forall. intros [[s e] n] Hin.
  apply parsed_from_in in Hin as (m & -> & Hm). simpl in *.
  destruct (Forall2_lookup_r _ _ _ _ _ HF Hm) as (en & Hen & Het).
  destruct (valid_entry_times float_of_str self en _ _ (Hvalid m en Hen))
    as (t & Ht & Hk & Hlt).
  rewrite Het in Ht. injection Ht as <-. auto.
Qed.

Lemma validate_schedule_accepted_chain (entries : list pyval)
    (device : option string) (errors : list msg) :
  validate_schedule float_of_str self (VList entries) device
  = Ok (true, errors) ->
  errors = [] /\ entries <> []
  /\ (forall n e, entries !! n = Some e ->
        validate_schedule_entry float_of_str self e (Some n) = Ok (true, None))
  /\ exists times sorted,
       Forall2 (fun e t => entry_times e = Ok t) entries times
       /\ Permutation (parsed_from 0 times) sorted
       /\ chained sorted.
Proof.
  unfold validate_schedule. destruct entries as [|e0 rest]; [discriminate|].
  intros H. apply bind_ok in H as ([errs0 pts] & Hve & H).
  destruct errs0 as [|m errs0]; [|discriminate H].
  apply bind_ok in H as (oe & Hoe & H).
  apply bind_ok in H as (se & Hse & H).
  injection H as Hlen <-.
  apply bool_decide_eq_true in Hlen. apply length_zero_iff_nil in Hlen.
  pose proof Hlen as Hnil. apply app_eq_nil in Hnil as [-> ->].
  split; [reflexivity|]. split; [discriminate|].
  apply validate_entries_no_error in Hve as (_ & Hall & times & HF & ->).
  split; [exact Hall|].
  unfold _check_sequential in Hse.
  apply bind_ok in Hse as (sorted & Hsorted & Hsweep).
  exists times, sorted. split; [exact HF|]. split.
  - exact (sorted_by_start_perm _ _ Hsorted).
  - exact (sequential_sweep_nil _ _ Hsweep).
Qed.

Lemma chained_schedule_accepted (entries : list pyval)
    (device : option string) (times : list (datetime * datetime))
    (sorted : list parsed) :
  entries <> [] ->
  (forall n e, entries !! n = Some e ->
     validate_schedule_entry float_of_str self e (Some n) = Ok (true, None)) ->
  Forall2 (fun e t => entry_times e = Ok t) entries times ->
  Permutation (parsed_from 0 times) sorted ->
  chained sorted ->
  validate_schedule float_of_str self (VList entries) device = Ok (true, []).
Proof.
  intros Hne Hvalid HF Hp Hc.
  destruct (validate_entries_valid float_of_str self entries 0 [] [])
    as (times' & HF' & Hve); [exact Hvalid|].
  rewrite (entry_times_unique entries times' times HF' HF) in Hve.
  simpl in Hve. set (pts := parsed_from 0 times) in *.
  pose proof (parsed_entries_valid entries times Hvalid HF) as Hpts.
  fold pts in Hpts.
  assert (Hsv : Forall (fun x : parsed => dt_same_kind x.1.1 x.1.2 = true
                                          /\ start_key x < end_key x) sorted)
    by (apply (Permutation_Forall Hp); exact Hpts).
  assert (exists k, Forall (of_kind k) sorted) as (k & Hk).
  { destruct sorted as [|a s]; [exists true; constructor|].
    exists (dt_is_naive a.1.1). apply chained_kind; [exact Hc|].
    eapply Forall_impl; [exact Hsv|]. intros x [Hx _]. exact Hx. }
  assert (Hkp : Forall (of_kind k) pts)
    by (apply (Permutation_Forall (Permutation_sym Hp)); exact Hk).
  destruct (sorted_by_start_sorts k pts Hkp) as (s & Hs & Hps & Hss).
  assert (s = sorted) as ->.
  { apply sorted_unique; [|exact Hss|].
    - rewrite <- Hps. exact Hp.
    - apply chained_sorted; [exact Hc|].
      eapply Forall_impl; [exact Hsv|]. intros x [_ Hx]. exact Hx. }
  unfold validate_schedule. destruct entries as [|e0 rest]; [contradiction|].
  rewrite Hve. simpl.
  unfold _check_overlaps, _check_sequential. rewrite Hs. simpl.
  rewrite (overlaps_sweep_kind k) by exact Hk.
  rewrite (chained_no_adjacent_overlap _ _ Hc). simpl.
  rewrite (chained_sequential_sweep _ _ Hc). reflexivity.
Qed.

(** X3. What [validate_schedule] accepts, for any validator: it returns
    [(True, errors)] exactly when the schedule is a non-empty list, every
    entry passes [validate_schedule_entry], and the parsed intervals can be
    arranged in a chain in which each entry ends exactly when the next one
    starts; [errors] is then empty.  So the accepted schedules are those
    that tile one span of time without a gap and without an overlap, in
    whatever order the entries are listed. *)
Theorem validate_schedule_accepts_iff (entries : list pyval)
    (device : option string) (errors : list msg) :
  validate_schedule float_of_str self (VList entries) device
  = Ok (true, errors)
  <->
  errors = [] /\ entries <> []
  /\ (forall n e, entries !! n = Some e ->
        validate_schedule_entry float_of_str self e (Some n) = Ok (true, None))
  /\ exists times sorted,
       Forall2 (fun e t => entry_times e = Ok t) entries times
       /\ Permutation (parsed_from 0 times) sorted
       /\ chained sorted.
Proof.
  split.
  - apply validate_schedule_accepted_chain.
  - intros (-> & Hne & Hvalid & times & sorted & HF & Hp & Hc).
    exact (chained_schedule_accepted entries device times sorted
             Hne Hvalid HF Hp Hc).
Qed.

(** The intervals of a chain cover the span from the first start to the
    last end. *)
Lemma chain_end_after : forall s a,
  chained (a :: s) -> Forall (fun z => start_key z < end_key z) (a :: s) ->
  start_key a < chain_end a s.
Proof.
  induction s as [|b s IH]; intros a Hc Hl.
  - inversion Hl; subst. assumption.
  - destruct Hc as [He Hc]. apply dt_eq_true_inv in He as [_ He].
    inversion Hl as [|? ? Ha Hl']; subst.
    pose proof (IH b Hc Hl') as Hb. simpl.
    unfold start_key, end_key in *. lia.
Qed.

Lemma chain_cover : forall s a t,
  chained (a :: s) -> Forall (fun z => start_key z < end_key z) (a :: s) ->
  start_key a <= t < chain_end a s
  <-> exists x, In x (a :: s) /\ start_key x <= t < end_key x.
Proof.
  induction s as [|b s IH]; intros a t Hc Hl.
  - simpl. split.
    + intros H. exists a. auto.
    + intros (x & [<-|[]] & H). exact H.
  - destruct Hc as [He Hc]. apply dt_eq_true_inv in He as [_ He].
    inversion Hl as [|? ? Ha Hl']; subst.
    pose proof (chain_end_after s b Hc Hl') as Hendb.
    specialize (IH b t Hc Hl'). cbn [chain_end].
    unfold start_key, end_key in *. split.
    + intros H. destruct (Z_lt_ge_dec t (dt_key a.1.2)) as [Hlt|Hge].
      * exists a. split; [left; reflexivity|lia].
      * destruct (proj1 IH) as (x & Hx & Ht); [lia|].
        exists x. split; [right; exact Hx|exact Ht].
    + intros (x & [<-|Hx] & Ht); [lia|].
      assert (dt_key b.1.1 <= t < chain_end b s)
        by (apply IH; exists x; auto).
      lia.
Qed.

(** X4. An accepted schedule partitions its span.  When [validate_schedule]
    returns [(True, errors)], all parsed timestamps are of one kind, and
    there are two instants [lo < hi] such that an instant lies in the
    [start, end) window of some entry exactly when it lies in [lo, hi), and
    no instant lies in the windows of two entries. *)
Theorem accepted_schedule_partitions_span (entries : list pyval)
    (device : option string) (errors : list msg) :
  validate_schedule float_of_str self (VList entries) device
  = Ok (true, errors) ->
  exists times k lo hi,
    Forall2 (fun e t => entry_times e = Ok t) entries times
    /\ Forall (fun t => dt_is_naive t.1 = k /\ dt_is_naive t.2 = k) times
    /\ lo < hi
    /\ (forall t, lo <= t < hi
                  <-> exists n tn, times !! n = Some tn
                                   /\ dt_key tn.1 <= t < dt_key tn.2)
    /\ (forall t n m tn tm,
          times !! n = Some tn -> times !! m = Some tm ->
          dt_key tn.1 <= t < dt_key tn.2 ->
          dt_key tm.1 <= t < dt_key tm.2 ->
          n = m).
Proof.
  intros H.
  apply validate_schedule_accepted_chain
    in H as (_ & Hne & Hvalid & times & sorted & HF & Hp & Hc).
  pose proof (parsed_entries_valid entries times Hvalid HF) as Hpts.
  assert (Hsv : Forall (fun x : parsed => dt_same_kind x.1.1 x.1.2 = true
                                          /\ start_key x < end_key x) sorted)
    by (apply (Permutation_Forall Hp); exact Hpts).
  assert (Hsk : Forall (fun x : parsed => dt_same_kind x.1.1 x.1.2 = true)
                       sorted)
    by (eapply Forall_impl; [exact Hsv|]; intros x [Hx _]; exact Hx).
  assert (Hsl : Forall (fun x : parsed => start_key x < end_key x) sorted)
    by (eapply Forall_impl; [exact Hsv|]; intros x [_ Hx]; exact Hx).
  destruct sorted as [|a s].
  { apply Permutation_sym, Permutation_nil in Hp.
    destruct times as [|[? ?] ?]; [|discriminate Hp].
    inversion HF; subst. contradiction. }
  pose proof (chained_kind s a Hc Hsk) as Hk.
  destruct (chained_sorted (a :: s) Hc Hsl) as [_ Hdisj].
  exists times, (dt_is_naive a.1.1), (start_key a), (chain_end a s).
  split; [exact HF|]. split; [|split; [|split]].
  - apply List.Forall_forall. intros [sd ed] Hin.
    apply list_elem_of_In, list_elem_of_lookup in Hin as (n & Hn).
    assert (Hx : In (sd, ed, n) (a :: s)).
    { apply (Permutation_in _ Hp). apply parsed_from_in. exists n. auto. }
    exact (proj1 (List.Forall_forall _ _) Hk _ Hx).
  - exact (chain_end_after s a Hc Hsl).
  - intros t. rewrite (chain_cover s a t Hc Hsl). split.
    + intros ([[sd ed] n] & Hx & Ht).
      apply (Permutation_in _ (Permutation_sym Hp)) in Hx.
      apply parsed_from_in in Hx as (m & -> & Hm).
      exists m, (sd, ed). auto.
    + intros (n & [sd ed] & Hn & Ht). exists (sd, ed, n). split; [|exact Ht].
      apply (Permutation_in _ Hp). apply parsed_from_in. exists n. auto.
  - intros t n m [sn en] [sm em] Hn Hm Htn Htm.
    assert (Hxn : In (sn, en, n) (a :: s)).
    { apply (Permutation_in _ Hp). apply parsed_from_in. exists n. auto. }
    assert (Hxm : In (sm, em, m) (a :: s)).
    { apply (Permutation_in _ Hp). apply parsed_from_in. exists m. auto. }
    destruct (ForallOrdPairs_In Hdisj _ _ Hxn Hxm) as [Heq|[Hb|Hb]].
    + injection Heq as _ _ ->. reflexivity.
    + unfold ends_before, start_key, end_key in Hb. simpl in *. lia.
    + unfold ends_before, start_key, end_key in Hb. simpl in *. lia.
Qed.

End ScheduleAcceptance.
(** *** What [clean_schedule] keeps *)

Section CleanSelection.

Variable float_of_str : string -> option float.
Variable self : ScheduleValidator.

Lemma passes_true entry index err :
  validate_schedule_entry float_of_str self entry index = Ok (true, err) ->
  passes float_of_str self entry = true.
Proof.
  intros H. unfold passes.
  rewrite (validate_entry_valid float_of_str self entry index None err H).
  reflexivity.
Qed.

Lemma passes_false entry index err :
  validate_schedule_entry float_of_str self entry index = Ok (false, err) ->
  passes float_of_str self entry = false.
Proof.
  intros H. unfold passes.
  destruct (validate_entry_index float_of_str self entry index None false err H)
    as (err' & -> & _).
  reflexivity.
Qed.

Lemma clean_entries_filter : forall entries i cleaned warnings,
  clean_entries float_of_str self i entries = Ok (cleaned, warnings) ->
  cleaned = List.filter (passes float_of_str self) entries
  /\ Forall2 (fun w j =>
                exists n e err,
                  j = (i + n)%nat /\ entries !! n = Some e
                  /\ validate_schedule_entry float_of_str self e (Some j)
                     = Ok (false, err)
                  /\ w = MsgEntryInvalid j err)
             warnings (dropped_from float_of_str self i entries).
Proof.
  induction entries as [|entry rest IH]; intros i cleaned warnings H;
    simpl in H.
  - injection H as <- <-. split; [reflexivity|constructor].
  - apply bind_ok in H as ([v err] & Hv & H).
    apply bind_ok in H as ([c w] & Hc & H).
    destruct (IH _ _ _ Hc) as (-> & HF).
    assert (HF' : Forall2 (fun w j =>
                exists n e err0,
                  j = (i + n)%nat /\ (entry :: rest) !! n = Some e
                  /\ validate_schedule_entry float_of_str self e (Some j)
                     = Ok (false, err0)
                  /\ w = MsgEntryInvalid j err0)
             w (dropped_from float_of_str self (S i) rest)).
    { eapply Forall2_impl; [exact HF|].
      intros w0 j (n & e & err0 & -> & Hn & He & ->).
      exists (S n), e, err0. repeat split; auto; lia. }
    destruct v; injection H as <- <-; cbn [List.filter dropped_from].
    + rewrite (passes_true _ _ _ Hv). split; [reflexivity|exact HF'].
    + rewrite (passes_false _ _ _ Hv). split; [reflexivity|].
      constructor; [|exact HF'].
      exists 0%nat, entry, err. rewrite Nat.add_0_r. auto.
Qed.

(** The verdict of [validate_schedule] and its list of errors agree. *)
Lemma validate_schedule_verdict schedule device ok errors :
  validate_schedule float_of_str self schedule device = Ok (ok, errors) ->
  ok = true <-> errors = [].
Proof.
  unfold validate_schedule.
  destruct schedule as [| | | | |entries|];
    try (intros H; injection H as <- <-; split; discriminate).
  destruct entries as [|e0 rest];
    [intros H; injection H as <- <-; split; discriminate|].
  intros H. apply bind_ok in H as ([errs0 pts] & _ & H).
  destruct errs0 as [|m errs0];
    [|injection H as <- <-; split; discriminate].
  apply bind_ok in H as (oe & _ & H). apply bind_ok in H as (se & _ & H).
  injection H as <- <-. rewrite bool_decide_eq_true.
  apply length_zero_iff_nil.
Qed.

(** X5. What [clean_schedule] keeps and what it reports.  Whenever it
    returns [(cleaned, warnings)], [cleaned] is the list of the entries
    that pass [validate_schedule_entry], in their original order: it drops
    no valid entry, keeps no invalid one, and reorders nothing.  The
    warnings start with one ["Entry {i} invalid"] message per dropped
    entry, in order, carrying the entry's original index and the message
    of its check; they are followed by the errors of [validate_schedule] on
    the cleaned list when that list is not empty and is rejected, and by
    nothing otherwise. *)
Theorem clean_schedule_selects (schedule cleaned : list pyval)
    (device : option string) (warnings : list msg) :
  clean_schedule float_of_str self schedule device = Ok (cleaned, warnings) ->
  cleaned = List.filter (passes float_of_str self) schedule
  /\ exists entry_warnings set_errors,
       warnings = (entry_warnings ++ set_errors)%list
       /\ Forall2 (fun w i =>
                     exists e err,
                       schedule !! i = Some e
                       /\ validate_schedule_entry float_of_str self e (Some i)
                          = Ok (false, err)
                       /\ w = MsgEntryInvalid i err)
                  entry_warnings
                  (dropped_from float_of_str self 0 schedule)
       /\ (set_errors = []
           \/ cleaned <> []
              /\ validate_schedule float_of_str self (VList cleaned) device
                 = Ok (false, set_errors)).
Proof.
  unfold clean_schedule. intros H.
  apply bind_ok in H as ([c w] & Hc & H).
  destruct (clean_entries_filter _ _ _ _ Hc) as (Hcf & HF).
  assert (HF' : Forall2 (fun w i =>
                     exists e err,
                       schedule !! i = Some e
                       /\ validate_schedule_entry float_of_str self e (Some i)
                          = Ok (false, err)
                       /\ w = MsgEntryInvalid i err)
                  w (dropped_from float_of_str self 0 schedule)).
  { eapply Forall2_impl; [exact HF|].
    intros w0 j (n & e & err & -> & Hn & He & ->). simpl. eauto. }
  destruct c as [|e0 c'].
  - injection H as <- <-. split; [exact Hcf|].
    exists w, []. rewrite app_nil_r. auto.
  - apply bind_ok in H as ([v errs] & Hv & H).
    destruct v; injection H as <- <-; (split; [exact Hcf|]).
    + exists w, []. rewrite app_nil_r. auto.
    + exists w, errs. split; [reflexivity|]. split; [exact HF'|].
      right. split; [discriminate|exact Hv].
Qed.

Lemma dropped_from_nil : forall entries i,
  dropped_from float_of_str self i entries = [] ->
  List.filter (passes float_of_str self) entries = entries.
Proof.
  induction entries as [|e rest IH]; intros i H; [reflexivity|].
  simpl in *. destruct (passes float_of_str self e); [|discriminate H].
  f_equal. exact (IH _ H).
Qed.

(** X6. [clean_schedule] is silent exactly on the schedules
    [validate_schedule] accepts: on a non-empty list it returns no warning
    if and only if [validate_schedule] returns [(True, [])] on that list,
    and the cleaned list is then the list itself. *)
Theorem clean_schedule_silent_iff_valid (entry : pyval) (rest cleaned : list pyval)
    (device : option string) :
  clean_schedule float_of_str self (entry :: rest) device = Ok (cleaned, [])
  <->
  cleaned = entry :: rest
  /\ validate_schedule float_of_str self (VList (entry :: rest)) device
     = Ok (true, []).
Proof.
  set (schedule := entry :: rest). split.
  - unfold clean_schedule. intros H.
    apply bind_ok in H as ([c w] & Hc & H).
    destruct (clean_entries_filter _ _ _ _ Hc) as (Hcf & HF).
    assert (w = [] /\ cleaned = c
            /\ (c <> [] ->
                validate_schedule float_of_str self (VList c) device
                = Ok (true, []))) as (-> & -> & Hv).
    { destruct c as [|e0 c'].
      - injection H as <- <-. repeat split. intros Habs. contradiction.
      - apply bind_ok in H as ([v errs] & Hv & H).
        pose proof (validate_schedule_verdict _ _ _ _ Hv) as Hverdict.
        destruct v; simpl in H.
        + injection H as <- ->. repeat split. intros _.
          rewrite Hv. f_equal. f_equal. apply Hverdict. reflexivity.
        + injection H as <- Hnil. apply app_eq_nil in Hnil as [-> ->].
          destruct Hverdict as [_ Habs]. discriminate (Habs eq_refl). }
    assert (Hd : dropped_from float_of_str self 0 schedule = []).
    { apply Forall2_length in HF.
      destruct (dropped_from float_of_str self 0 schedule);
        [reflexivity|discriminate HF]. }
    rewrite (dropped_from_nil schedule 0 Hd) in Hcf. subst c.
    split; [reflexivity|]. apply Hv. discriminate.
  - intros (-> & Hv).
    destruct (validate_schedule_accepted_chain float_of_str self _ _ _ Hv)
      as (_ & _ & Hvalid & _).
    unfold clean_schedule.
    rewrite (clean_entries_fixed float_of_str self schedule 0).
    + cbn -[validate_schedule]. rewrite Hv. reflexivity.
    + intros e Hin j. apply list_elem_of_In, list_elem_of_lookup in Hin as (n & Hn).
      exact (validate_entry_valid float_of_str self e _ j _ (Hvalid n e Hn)).
Qed.

End CleanSelection.
(** *** What the agent accepts, and what it then executes *)

Lemma local_entry_errors_nil i entry :
  local_entry_errors i entry = [] <-> locally_acceptable entry.
Proof.
  unfold locally_acceptable. split.
  - destruct entry as [| | | | | |d]; try discriminate.
    unfold local_entry_errors, required_fields, dict_has. simpl.
    destruct (d !! "start_time") as [a|] eqn:Ha; simpl; [|discriminate].
    destruct (d !! "end_time") as [b|] eqn:Hb; simpl; [|discriminate].
    destruct (d !! "mode") as [c|] eqn:Hc; simpl; [|discriminate].
    destruct (d !! "rate_kw") as [e|] eqn:He; simpl; [|discriminate].
    destruct (py_eq_int c 1 || py_eq_int c 2) eqn:Hm; simpl; [|discriminate].
    destruct (bad_rate e) eqn:Hr; [discriminate|].
    intros _. exists d, a, b, c, e. auto 10.
  - intros (d & a & b & c & e & -> & Ha & Hb & Hc & He & Hm & Hr).
    unfold local_entry_errors, required_fields, dict_has. simpl.
    rewrite Ha, Hb, Hc, He. simpl. rewrite Hm, Hr. reflexivity.
Qed.

Lemma local_errors_from_nil : forall entries i,
  local_errors_from i entries = [] <-> Forall locally_acceptable entries.
Proof.
  induction entries as [|e rest IH]; intros i; simpl.
  - split; [constructor|reflexivity].
  - split.
    + intros H. apply app_eq_nil in H as [He Hrest].
      constructor; [exact (proj1 (local_entry_errors_nil i e) He)|].
      exact (proj1 (IH (S i)) Hrest).
    + intros H. inversion H as [|? ? He Hrest]; subst.
      rewrite (proj2 (local_entry_errors_nil i e) He).
      exact (proj2 (IH (S i)) Hrest).
Qed.

Lemma validate_schedule_locally_true schedule :
  (validate_schedule_locally schedule).1 = true <->
  exists entries,
    schedule = VList entries /\ entries <> []
    /\ Forall locally_acceptable entries.
Proof.
  split.
  - destruct schedule as [| | | | |entries|]; try discriminate.
    destruct entries as [|e rest]; [discriminate|].
    unfold validate_schedule_locally. cbn [fst].
    rewrite bool_decide_eq_true, length_zero_iff_nil, local_errors_from_nil.
    intros H. exists (e :: rest). split; [reflexivity|].
    split; [discriminate|exact H].
  - intros (entries & -> & Hne & H).
    destruct entries as [|e rest]; [contradiction|].
    unfold validate_schedule_locally. cbn [fst].
    rewrite bool_decide_eq_true, length_zero_iff_nil, local_errors_from_nil.
    exact H.
Qed.

(** X7. What [validate_schedule_locally] accepts: exactly the non-empty
    lists whose entries are dicts with the four fields, a mode equal to 1
    or 2 and a rate that is an [int] or a [float] in [0, 1000].  The
    timestamps may be any values at all.  The verdict is [True] exactly
    when the list of errors is empty. *)
Theorem validate_schedule_locally_accepts_iff (schedule : pyval) :
  ((validate_schedule_locally schedule).1 = true <->
   exists entries,
     schedule = VList entries /\ entries <> []
     /\ Forall locally_acceptable entries)
  /\ ((validate_schedule_locally schedule).1 = true <->
      (validate_schedule_locally schedule).2 = []).
Proof.
  split; [exact (validate_schedule_locally_true schedule)|].
  destruct schedule as [| | | | |entries|]; try (split; discriminate).
  destruct entries as [|e rest]; [split; discriminate|].
  unfold validate_schedule_locally. cbn [fst snd].
  rewrite bool_decide_eq_true. apply length_zero_iff_nil.
Qed.

(** [float(z)] is finite for the integers the rate check lets through. *)
Lemma float_of_small_Z z :
  0 <= z <= 1000 -> exists f, float_of_Z z = Ok f.
Proof.
  intros Hz.
  assert (H : forallb (fun n => is_ok (float_of_Z (Z.of_nat n))) (seq 0 1001)
              = true) by (vm_compute; reflexivity).
  rewrite forallb_forall in H.
  specialize (H (Z.to_nat z)).
  rewrite Z2Nat.id in H by lia.
  destruct (float_of_Z z) as [f|e]; [eauto|].
  discriminate H. apply in_seq. lia.
Qed.

Lemma good_rate_multiplies rate_kw c :
  bad_rate rate_kw = false -> exists f, py_mul_float rate_kw c = Ok (VFloat f).
Proof.
  destruct rate_kw as [|b|z|f|s|l|d]; simpl; try discriminate; intros H.
  - eauto.
  - apply orb_false_elim in H as [H1 H2].
    apply Z.ltb_ge in H1, H2.
    destruct (float_of_small_Z z) as (f & ->); [lia|]. simpl. eauto.
  - eauto.
Qed.

Lemma accepted_entry_dispatch (schedule : list pyval) (i : nat)
    (entry : pyval) :
  (validate_schedule_locally (VList schedule)).1 = true ->
  schedule !! i = Some entry ->
  exists mode rate_kw actual,
    py_getitem entry "mode" = Ok mode
    /\ py_getitem entry "rate_kw" = Ok rate_kw
    /\ py_mul_float rate_kw (if py_eq_int mode 1 then 0.98 else 0.97)%float
       = Ok (VFloat actual)
    /\ _execute_entry i entry
       = Ok {| d_index := i; d_mode := mode; d_rate_kw := rate_kw;
               d_success := true; d_actual_rate := Some (VFloat actual) |}.
Proof.
  intros Hv Hi.
  apply validate_schedule_locally_true in Hv as (entries & Heq & _ & Hall).
  injection Heq as <-.
  apply list_elem_of_lookup_2 in Hi.
  pose proof (proj1 (Forall_forall _ _) Hall entry Hi)
    as (d & a & b & mode & rate_kw & -> & _ & _ & Hm & Hr & Hmode & Hrate).
  exists mode, rate_kw.
  destruct (good_rate_multiplies rate_kw
              (if py_eq_int mode 1 then 0.98 else 0.97)%float Hrate)
    as (actual & Hmul).
  exists actual. unfold _execute_entry, py_getitem. rewrite Hm, Hr.
  repeat split; [exact Hmul|]. simpl.
  unfold execute_command, _execute_discharge, _execute_charge.
  destruct (py_eq_int mode 1) eqn:H1.
  - rewrite Hmul. reflexivity.
  - simpl in Hmode. rewrite Hmode, Hmul. reflexivity.
Qed.

(** X8. The agent executes what it accepted.  For every entry of a schedule
    that [validate_schedule_locally] accepts, [_execute_entry] raises no
    exception and the executor reports success with a float as the actual
    rate: the product of the rate with 0.98 when the mode equals 1, with
    0.97 otherwise. *)
Theorem accepted_entry_executes (schedule : list pyval) (i : nat)
    (entry : pyval) :
  (validate_schedule_locally (VList schedule)).1 = true ->
  schedule !! i = Some entry ->
  exists mode rate_kw actual,
    py_getitem entry "mode" = Ok mode
    /\ py_getitem entry "rate_kw" = Ok rate_kw
    /\ py_mul_float rate_kw (if py_eq_int mode 1 then 0.98 else 0.97)%float
       = Ok (VFloat actual)
    /\ _execute_entry i entry
       = Ok {| d_index := i; d_mode := mode; d_rate_kw := rate_kw;
               d_success := true; d_actual_rate := Some (VFloat actual) |}.
Proof. exact (accepted_entry_dispatch schedule i entry). Qed.
(** *** Ticks that raise *)

Section DaemonFailures.

Variable fromisoformat : string -> result datetime.

Lemma tick_raises (self : BatteryDaemon) entry rest now_us e :
  current_schedule self = VList (entry :: rest) ->
  in_window fromisoformat entry (mk_datetime now_us None) = Raise e ->
  _check_and_execute fromisoformat self now_us = Raise e
  /\ forall events, run fromisoformat self (Tick now_us :: events) = [].
Proof.
  intros Hs Hw.
  assert (H : _check_and_execute fromisoformat self now_us = Raise e).
  { unfold _check_and_execute. rewrite Hs. simpl. rewrite Hw. reflexivity. }
  split; [exact H|]. intros events. simpl. unfold loop_iteration.
  rewrite Hs. cbn [truthy]. rewrite H. reflexivity.
Qed.

(** X9. A timestamp with a UTC offset stops the execution loop.
    [_check_and_execute] compares the parsed timestamps with
    [datetime.utcnow()], which is naive.  When the first entry of the
    current schedule has timestamps that parse and its start carries an
    offset (as every timestamp written with a trailing [Z] does, once the
    [Z] is replaced by [+00:00]), the comparison raises [TypeError] at
    every instant: the tick makes no executor call, the exception escapes
    [_execute_schedule_loop], and no later tick dispatches anything. *)
Theorem aware_start_stops_the_loop (self : BatteryDaemon)
    (entry : pyval) (rest : list pyval) (start_dt end_dt : datetime) :
  current_schedule self = VList (entry :: rest) ->
  entry_time fromisoformat entry "start_time" = Ok start_dt ->
  entry_time fromisoformat entry "end_time" = Ok end_dt ->
  dt_is_naive start_dt = false ->
  forall now_us,
    _check_and_execute fromisoformat self now_us = Raise TypeError
    /\ forall events, run fromisoformat self (Tick now_us :: events) = [].
Proof.
  intros Hs Hst Het Haware now_us.
  apply (tick_raises self entry rest now_us TypeError Hs).
  unfold in_window. rewrite Hst, Het. simpl.
  unfold dt_le, dt_same_kind. rewrite Haware. reflexivity.
Qed.

(** X10. The agent accepts timestamps it cannot read.  A schedule whose
    first entry has a [start_time] that is not a string passes
    [validate_schedule_locally] like any other, so [_process_schedule]
    makes it the current schedule; the next tick then raises
    [AttributeError] (the value has no [replace] method), makes no executor
    call, and ends the execution loop. *)
Theorem non_string_start_stops_the_loop (self : BatteryDaemon)
    (entry : pyval) (rest : list pyval) (start_time : pyval) (db_ok : bool) :
  (validate_schedule_locally (VList (entry :: rest))).1 = true ->
  py_getitem entry "start_time" = Ok start_time ->
  (forall s, start_time <> VStr s) ->
  let self' := _process_schedule self (VList (entry :: rest)) db_ok in
  current_schedule self' = VList (entry :: rest)
  /\ forall now_us,
       _check_and_execute fromisoformat self' now_us = Raise AttributeError
       /\ forall events, run fromisoformat self' (Tick now_us :: events) = [].
Proof.
  intros Hv Hst Hns self'.
  assert (Hs : current_schedule self' = VList (entry :: rest)).
  { unfold self', _process_schedule.
    destruct (validate_schedule_locally (VList (entry :: rest))) as [v errs].
    simpl in Hv. subst v. simpl. unfold _store_schedule.
    destruct db_ok; reflexivity. }
  split; [exact Hs|]. intros now_us.
  apply (tick_raises self' entry rest now_us AttributeError Hs).
  unfold in_window, entry_time. rewrite Hst. simpl.
  destruct start_time as [| | | |s| |]; try reflexivity.
  destruct (Hns s eq_refl).
Qed.

End DaemonFailures.
(** *** The stored schedule and the in-memory schedule *)

Lemma stored_active_deactivated device rows :
  List.filter (fun r => String.eqb (row_device_id r) device
                        && String.eqb (row_status r) "active")
              (rev (map (deactivate device) rows))
  = [].
Proof.
  induction rows as [|r rs IH]; [reflexivity|].
  simpl. rewrite List.filter_app, IH. simpl. unfold deactivate.
  destruct (String.eqb (row_device_id r) device) eqn:Hd;
    destruct (String.eqb (row_status r) "active") eqn:Ha; simpl;
    rewrite ?Hd, ?Ha; reflexivity.
Qed.

Lemma stored_active_process (self : BatteryDaemon) schedule db_ok :
  stored_active (_process_schedule self schedule db_ok)
  = if (validate_schedule_locally schedule).1 && db_ok then [schedule]
    else stored_active self.
Proof.
  unfold _process_schedule.
  destruct (validate_schedule_locally schedule) as [v errs]. simpl.
  destruct v; [|reflexivity]. simpl. unfold _store_schedule.
  destruct db_ok; [|reflexivity].
  unfold stored_active. simpl. rewrite rev_app_distr. simpl.
  rewrite String.eqb_refl. simpl. f_equal.
  rewrite stored_active_deactivated. reflexivity.
Qed.

Lemma current_schedule_process (self : BatteryDaemon) schedule db_ok :
  current_schedule (_process_schedule self schedule db_ok)
  = if (validate_schedule_locally schedule).1 then schedule
    else current_schedule self.
Proof.
  unfold _process_schedule.
  destruct (validate_schedule_locally schedule) as [v errs]. simpl.
  destruct v; [|reflexivity]. simpl. unfold _store_schedule.
  destruct db_ok; reflexivity.
Qed.

Lemma device_id_process (self : BatteryDaemon) schedule db_ok :
  device_id (_process_schedule self schedule db_ok) = device_id self.
Proof.
  unfold _process_schedule.
  destruct (validate_schedule_locally schedule) as [v errs]. simpl.
  destruct v; [|reflexivity]. simpl. unfold _store_schedule.
  destruct db_ok; reflexivity.
Qed.

Lemma receive_all_state : forall received (self : BatteryDaemon) a b,
  current_schedule self = default VNone a ->
  stored_active self = option_list b ->
  current_schedule (receive_all self received)
  = default VNone
      (fold_left (fun acc x =>
                    if (validate_schedule_locally x.1).1 then Some x.1 else acc)
                 received a)
  /\ stored_active (receive_all self received)
     = option_list
         (fold_left (fun acc x =>
                       if (validate_schedule_locally x.1).1 && x.2
                       then Some x.1 else acc)
                    received b).
Proof.
  induction received as [|[s ok] rest IH]; intros self a b Ha Hb.
  - simpl. auto.
  - simpl. apply IH.
    + rewrite current_schedule_process.
      destruct (validate_schedule_locally s).1; [reflexivity|exact Ha].
    + rewrite stored_active_process.
      destruct ((validate_schedule_locally s).1 && ok); [reflexivity|exact Hb].
Qed.

Lemma current_schedule_restart (self : BatteryDaemon) :
  current_schedule (restart self)
  = match stored_active self with s :: _ => s | [] => VNone end.
Proof.
  unfold restart, _load_cached_schedule.
  change (stored_active {| device_id := device_id self;
                           current_schedule := VNone;
                           schedules := schedules self |})
    with (stored_active self).
  destruct (stored_active self); reflexivity.
Qed.

(** X11. What a restart restores.  Start a daemon on an empty table and
    hand it any sequence of schedules, each with a database that works or
    fails.  Its in-memory schedule is then the last schedule the local
    validation accepted; the table holds, as the only active row of the
    device, the last accepted schedule that was written while the database
    worked; and a daemon restarted on that table loads exactly that one.
    So the restart restores the in-memory schedule if the last accepted
    schedule was stored, and an older schedule (or none) if the database
    failed at that moment. *)
Theorem restart_restores_last_stored (device : string)
    (received : list (pyval * bool)) :
  let self := receive_all (BatteryDaemon_init device) received in
  current_schedule self = default VNone (last_accepted received)
  /\ stored_active self = option_list (last_stored received)
  /\ current_schedule (restart self) = default VNone (last_stored received).
Proof.
  intros self.
  destruct (receive_all_state received (BatteryDaemon_init device) None None
              eq_refl eq_refl) as [Hc Hs].
  assert (Hs' : stored_active self = option_list (last_stored received))
    by exact Hs.
  split; [exact Hc|]. split; [exact Hs'|].
  rewrite current_schedule_restart, Hs'.
  destruct (last_stored received); reflexivity.
Qed.

(** *** What receiving a schedule never does *)

Lemma rows_of_others_deactivate device rows :
  rows_of_others device (map (deactivate device) rows)
  = rows_of_others device rows.
Proof.
  unfold rows_of_others.
  induction rows as [|r rs IH]; [reflexivity|]. simpl. rewrite IH.
  unfold deactivate.
  destruct (String.eqb (row_device_id r) device) eqn:Hd; simpl;
    [|rewrite Hd; reflexivity].
  destruct (String.eqb (row_status r) "active"); simpl; rewrite Hd;
    reflexivity.
Qed.

Lemma deactivate_keeps device r :
  row_device_id (deactivate device r) = row_device_id r
  /\ row_schedule_data (deactivate device r) = row_schedule_data r.
Proof.
  unfold deactivate.
  destruct (String.eqb (row_device_id r) device && String.eqb (row_status r) "active");
    auto.
Qed.

Lemma process_schedule_table (self : BatteryDaemon) schedule db_ok :
  let self' := _process_schedule self schedule db_ok in
  rows_of_others (device_id self) (schedules self')
  = rows_of_others (device_id self) (schedules self)
  /\ exists new,
       map (fun r => (row_device_id r, row_schedule_data r)) (schedules self')
       = (map (fun r => (row_device_id r, row_schedule_data r)) (schedules self)
          ++ new)%list
       /\ (length new <= 1)%nat.
Proof.
  intros self'. unfold self', _process_schedule.
  destruct (validate_schedule_locally schedule) as [v errs].
  destruct v; simpl.
  2:{ split; [reflexivity|]. exists []. rewrite app_nil_r. auto. }
  unfold _store_schedule. destruct db_ok; simpl.
  2:{ split; [reflexivity|]. exists []. rewrite app_nil_r. auto. }
  split.
  - unfold rows_of_others at 1. rewrite List.filter_app.
    fold (rows_of_others (device_id self)
            (map (deactivate (device_id self)) (schedules self))).
    rewrite rows_of_others_deactivate. simpl. rewrite String.eqb_refl. simpl.
    apply app_nil_r.
  - exists [(device_id self, schedule)]. split; [|simpl; lia].
    rewrite List.map_app. simpl. f_equal.
    rewrite List.map_map. apply List.map_ext. intros r.
    destruct (deactivate_keeps (device_id self) r) as [-> ->]. reflexivity.
Qed.

(** X12. What [_process_schedule] never does to the table.  Whatever the
    schedule and whether or not the database works, the rows of the other
    devices are left exactly as they were, and no row is deleted or
    rewritten: the device and the schedule of every earlier row are kept,
    in order, and at most one row is added.  When the database fails the
    table is unchanged although an accepted schedule has replaced the
    in-memory one. *)
Theorem process_schedule_keeps_history (self : BatteryDaemon)
    (schedule : pyval) (db_ok : bool) :
  let self' := _process_schedule self schedule db_ok in
  rows_of_others (device_id self) (schedules self')
  = rows_of_others (device_id self) (schedules self)
  /\ (exists new,
        map (fun r => (row_device_id r, row_schedule_data r)) (schedules self')
        = (map (fun r => (row_device_id r, row_schedule_data r))
               (schedules self) ++ new)%list
        /\ (length new <= 1)%nat)
  /\ (db_ok = false ->
      schedules self' = schedules self
      /\ current_schedule self'
         = if (validate_schedule_locally schedule).1 then schedule
           else current_schedule self).
Proof.
  intros self'.
  destruct (process_schedule_table self schedule db_ok) as [H1 H2].
  split; [exact H1|]. split; [exact H2|].
  intros ->. split; [|apply current_schedule_process].
  unfold self', _process_schedule.
  destruct (validate_schedule_locally schedule) as [v errs].
  destruct v; reflexivity.
Qed.

(** *** The schedule the execution loop reads *)

Lemma on_mqtt_message_cases (self : BatteryDaemon) payload db_ok :
  _on_mqtt_message self payload db_ok = self
  \/ exists (d : gmap string pyval),
       payload = VDict d
       /\ d !! "device_id" = Some (VStr (device_id self))
       /\ _on_mqtt_message self payload db_ok
          = _process_schedule self (default (VList []) (d !! "schedule")) db_ok.
Proof.
  unfold _on_mqtt_message.
  destruct payload as [| | | | | |d]; simpl; auto.
  destruct (d !! "device_id") as [v|] eqn:Hd; simpl; auto.
  destruct v as [| | | |s| |]; simpl; auto.
  destruct (String.eqb_spec s (device_id self)) as [->|Hne]; simpl; auto.
  right. exists d. auto.
Qed.

Lemma fetch_schedule_cases (self : BatteryDaemon) status data db_ok :
  _fetch_schedule self status data db_ok = self
  \/ exists (d : gmap string pyval) schedule,
       status = 200 /\ data = VDict d
       /\ d !! "schedule" = Some schedule /\ truthy schedule = true
       /\ _fetch_schedule self status data db_ok
          = _process_schedule self schedule db_ok.
Proof.
  unfold _fetch_schedule.
  destruct (Z.eqb_spec status 200) as [->|Hne]; auto.
  destruct data as [| | | | | |d]; simpl; auto.
  destruct (d !! "schedule") as [schedule|] eqn:Hs; simpl; auto.
  destruct (truthy schedule) eqn:Ht; auto.
  right. exists d, schedule. auto.
Qed.

Lemma process_schedule_ok (self : BatteryDaemon) schedule db_ok :
  schedule_ok self -> schedule_ok (_process_schedule self schedule db_ok).
Proof.
  unfold schedule_ok. rewrite current_schedule_process.
  destruct (validate_schedule_locally schedule).1 eqn:Hv; auto.
Qed.

Lemma process_schedule_rejected (self : BatteryDaemon) schedule db_ok :
  (validate_schedule_locally schedule).1 = false ->
  _process_schedule self schedule db_ok = self.
Proof.
  intros H. unfold _process_schedule.
  destruct (validate_schedule_locally schedule) as [v errs].
  simpl in H. subst v. reflexivity.
Qed.

Lemma handle_ok (self : BatteryDaemon) (i : input) :
  schedule_ok self -> schedule_ok (handle self i) .
Proof.
  intros H. destruct i as [payload db_ok|status data db_ok]; simpl.
  - destruct (on_mqtt_message_cases self payload db_ok)
      as [->|(d & _ & _ & ->)]; [exact H|].
    apply process_schedule_ok. exact H.
  - destruct (fetch_schedule_cases self status data db_ok)
      as [->|(d & s & _ & _ & _ & _ & ->)]; [exact H|].
    apply process_schedule_ok. exact H.
Qed.

Lemma handle_device_id (self : BatteryDaemon) (i : input) :
  device_id (handle self i) = device_id self.
Proof.
  destruct i as [payload db_ok|status data db_ok]; simpl.
  - destruct (on_mqtt_message_cases self payload db_ok)
      as [->|(d & _ & _ & ->)]; [reflexivity|apply device_id_process].
  - destruct (fetch_schedule_cases self status data db_ok)
      as [->|(d & s & _ & _ & _ & _ & ->)];
      [reflexivity|apply device_id_process].
Qed.

Lemma handle_all_ok : forall inputs (self : BatteryDaemon),
  schedule_ok self -> schedule_ok (fold_left handle inputs self).
Proof.
  induction inputs as [|i rest IH]; intros self H; [exact H|].
  simpl. apply IH. apply handle_ok. exact H.
Qed.

(** X13. Only validated schedules reach the execution loop.  Whatever MQTT
    messages and poll responses arrive, in whatever order, the in-memory
    schedule of a daemon is always [None] or a schedule that
    [validate_schedule_locally] accepts.  A message that is not a dict, that
    names another device, or whose schedule is missing or rejected leaves
    the daemon exactly as it was; so does a poll response whose status is
    not 200, whose body is not a dict, or whose schedule is missing, falsy
    or rejected. *)
Theorem only_validated_schedules_become_current (device : string)
    (inputs : list input) :
  schedule_ok (fold_left handle inputs (BatteryDaemon_init device))
  /\ (forall (self : BatteryDaemon) payload db_ok,
        (forall s, py_get payload "device_id" VNone
                   = Ok (VStr (device_id self)) ->
                   py_get payload "schedule" (VList []) = Ok s ->
                   (validate_schedule_locally s).1 = false) ->
        _on_mqtt_message self payload db_ok = self)
  /\ (forall (self : BatteryDaemon) status data db_ok,
        (forall s, status = 200 ->
                   py_get data "schedule" (VList []) = Ok s ->
                   truthy s = true ->
                   (validate_schedule_locally s).1 = false) ->
        _fetch_schedule self status data db_ok = self).
Proof.
  split; [|split].
  - apply handle_all_ok. left. reflexivity.
  - intros self payload db_ok H.
    destruct (on_mqtt_message_cases self payload db_ok)
      as [Heq|(d & -> & Hd & ->)]; [exact Heq|].
    simpl in H. rewrite Hd in H.
    apply process_schedule_rejected. exact (H _ eq_refl eq_refl).
  - intros self status data db_ok H.
    destruct (fetch_schedule_cases self status data db_ok)
      as [Heq|(d & s & -> & -> & Hs & Ht & ->)]; [exact Heq|].
    simpl in H. rewrite Hs in H.
    apply process_schedule_rejected. exact (H _ eq_refl eq_refl Ht).
Qed.

(** *** Every executor call succeeds *)

Section Dispatches.

Variable fromisoformat : string -> result datetime.

(** X14. Every executor call of the daemon succeeds.  Start a daemon, let
    any MQTT messages and poll responses arrive, and let a tick run.  If
    the tick returns, it has made at most one executor call, that call
    reported success, and its actual rate is a float: no entry with a mode
    other than 1 or 2, or with a rate that is not a number, ever reaches
    the executor. *)
Theorem every_dispatch_succeeds (device : string) (inputs : list input)
    (now_us : Z) (ds : list dispatch) :
  _check_and_execute fromisoformat
    (fold_left handle inputs (BatteryDaemon_init device)) now_us = Ok ds ->
  (length ds <= 1)%nat
  /\ Forall (fun d => d_success d = true
                      /\ exists actual, d_actual_rate d = Some (VFloat actual))
            ds.
Proof.
  set (self := fold_left handle inputs (BatteryDaemon_init device)).
  assert (Hok : schedule_ok self)
    by (apply handle_all_ok; left; reflexivity).
  unfold _check_and_execute. intros H.
  destruct (truthy (current_schedule self)) eqn:Ht; simpl in H.
  2:{ injection H as <-. split; [simpl; lia|constructor]. }
  destruct Hok as [Hnone|Hvalid]; [rewrite Hnone in Ht; discriminate Ht|].
  pose proof Hvalid as Hv.
  apply validate_schedule_locally_true in Hv as (entries & Hs & _ & _).
  rewrite Hs in H, Hvalid.
  apply (scan_entries_sound fromisoformat)
    in H as [->|(d & i & entry & -> & _ & (Hi & _) & Hd)].
  - split; [simpl; lia|constructor].
  - split; [simpl; lia|]. constructor; [|constructor].
    destruct (accepted_entry_dispatch entries i entry Hvalid Hi)
      as (mode & rate_kw & actual & _ & _ & _ & Hex).
    simpl in Hd. rewrite Hex in Hd. injection Hd as <-. simpl. eauto.
Qed.

End Dispatches.
(** *** When the validator raises instead of returning *)








Section ValidatorRaises.

Variable float_of_str : string -> option float.
Variable self : ScheduleValidator.


End ValidatorRaises.

(** *** The order of the entries *)

Lemma chained_same_intervals : forall s s',
  map fst s = map fst s' -> chained s -> chained s'.
Proof.
  induction s as [|a s IH]; intros [|a' s'] Hm Hc; try discriminate Hm;
    [exact I|].
  injection Hm as Ha Hm.
  destruct s as [|b s], s' as [|b' s'']; try discriminate Hm; [exact I|].
  destruct Hc as [He Hc]. pose proof Hm as Hm'. injection Hm' as Hb _.
  split; [|exact (IH _ Hm Hc)].
  destruct a as [ta ia], a' as [ta' ia'], b as [tb ib], b' as [tb' ib'].
  simpl in *. subst. exact He.
Qed.

Lemma parsed_from_intervals : forall times i,
  map fst (parsed_from i times) = times.
Proof.
  induction times as [|[s e] rest IH]; intros i; [reflexivity|].
  simpl. rewrite IH. reflexivity.
Qed.

Section EntryOrder.

Variable float_of_str : string -> option float.
Variable self : ScheduleValidator.

Lemma entry_times_perm : forall entries entries' times times',
  Permutation entries entries' ->
  Forall2 (fun e t => entry_times e = Ok t) entries times ->
  Forall2 (fun e t => entry_times e = Ok t) entries' times' ->
  Permutation times times'.
Proof.
  intros entries entries' times times' Hp. revert times times'.
  induction Hp as [|x l l' Hp IH|x y l|l l' l'' Hp1 IH1 Hp2 IH2];
    intros times times' H1 H2.
  - inversion H1; inversion H2; subst. constructor.
  - inversion H1 as [|? t ? ts Hx Hl]; inversion H2 as [|? t' ? ts' Hx' Hl'];
      subst.
    assert (t = t') as <- by congruence. constructor. exact (IH _ _ Hl Hl').
  - inversion H1 as [|? ty ? ts1 Hy Hl1]; subst.
    inversion Hl1 as [|? tx ? ts Hx Hl]; subst.
    inversion H2 as [|? tx' ? ts2 Hx' Hl2]; subst.
    inversion Hl2 as [|? ty' ? ts' Hy' Hl']; subst.
    assert (tx = tx') as <- by congruence.
    assert (ty = ty') as <- by congruence.
    rewrite (entry_times_unique l ts ts' Hl Hl'). apply perm_swap.
  - assert (exists mid, Forall2 (fun e t => entry_times e = Ok t) l' mid)
      as (mid & Hmid).
    { clear - Hp1 H1.
      assert (Hall : Forall (fun e => exists t, entry_times e = Ok t) l).
      { apply List.Forall_forall. intros e Hin.
        apply list_elem_of_In, list_elem_of_lookup in Hin as (n & Hn).
        destruct (Forall2_lookup_l _ _ _ _ _ H1 Hn) as (t & _ & Ht). eauto. }
      apply (Permutation_Forall Hp1) in Hall. clear - Hall.
      induction Hall as [|e l' (t & Ht) _ (mid & IH)];
        [exists []; constructor|].
      exists (t :: mid). constructor; assumption. }
    rewrite (IH1 _ _ H1 Hmid). exact (IH2 _ _ Hmid H2).
Qed.

(** X16. The verdict does not depend on the order of the entries: if
    [validate_schedule] accepts a schedule, it accepts every rearrangement
    of its entries. *)
Theorem validate_schedule_order_independent (entries entries' : list pyval)
    (device device' : option string) :
  Permutation entries entries' ->
  validate_schedule float_of_str self (VList entries) device = Ok (true, []) ->
  validate_schedule float_of_str self (VList entries') device' = Ok (true, []).
Proof.
  intros Hp H.
  apply validate_schedule_accepted_chain
    in H as (_ & Hne & Hvalid & times & sorted & HF & Hps & Hc).
  assert (Hvalid' : forall n e, entries' !! n = Some e ->
            validate_schedule_entry float_of_str self e (Some n)
            = Ok (true, None)).
  { intros n e Hn. apply list_elem_of_lookup_2 in Hn.
    rewrite <- Hp in Hn. apply list_elem_of_lookup in Hn as (m & Hm).
    exact (validate_entry_valid float_of_str self e _ _ _ (Hvalid m e Hm)). }
  destruct (validate_entries_valid float_of_str self entries' 0 [] [])
    as (times' & HF' & _); [exact Hvalid'|].
  pose proof (entry_times_perm _ _ _ _ Hp HF HF') as Hpt.
  assert (Hm : Permutation (map fst (parsed_from 0 times')) (map fst sorted)).
  { rewrite parsed_from_intervals, <- Hpt.
    rewrite <- (parsed_from_intervals times 0). apply Permutation_map.
    exact Hps. }
  apply Permutation_sym, Permutation_map_inv in Hm as (sorted' & Hmap & Hperm).
  apply (chained_schedule_accepted float_of_str self entries' device'
           times' sorted').
  - intros ->. apply Permutation_sym, Permutation_nil in Hp. contradiction.
  - exact Hvalid'.
  - exact HF'.
  - exact Hperm.
  - exact (chained_same_intervals sorted sorted' Hmap Hc).
Qed.

End EntryOrder.
(** *** The errors of [validate_schedule] when an entry fails *)

Section EntryErrors.

Variable float_of_str : string -> option float.
Variable self : ScheduleValidator.

(** The loop of [validate_schedule]: one message per entry that does not
    pass, the message of its check; the [except ValueError] branch around
    the second parse is never taken, since an entry that passed has
    timestamps that parse. *)
Lemma validate_entries_errors : forall entries i errors pts errors' pts',
  validate_entries float_of_str self i entries errors pts
  = Ok (errors', pts') ->
  exists msgs,
    errors' = (errors ++ msgs)%list
    /\ Forall2 (fun m j =>
                  exists n e err,
                    j = (i + n)%nat /\ entries !! n = Some e
                    /\ validate_schedule_entry float_of_str self e (Some j)
                       = Ok (false, err)
                    /\ m = error_text err)
               msgs (dropped_from float_of_str self i entries).
Proof.
  induction entries as [|entry rest IH]; intros i errors pts errors' pts' H;
    simpl in H.
  - injection H as <- <-. exists []. rewrite app_nil_r.
    split; [reflexivity|constructor].
  - apply bind_ok in H as ([v err] & Hv & H).
    assert (Hshift : forall msgs,
              Forall2 (fun m j =>
                  exists n e err0,
                    j = (S i + n)%nat /\ rest !! n = Some e
                    /\ validate_schedule_entry float_of_str self e (Some j)
                       = Ok (false, err0)
                    /\ m = error_text err0)
               msgs (dropped_from float_of_str self (S i) rest) ->
              Forall2 (fun m j =>
                  exists n e err0,
                    j = (i + n)%nat /\ (entry :: rest) !! n = Some e
                    /\ validate_schedule_entry float_of_str self e (Some j)
                       = Ok (false, err0)
                    /\ m = error_text err0)
               msgs (dropped_from float_of_str self (S i) rest)).
    { intros msgs HF. eapply Forall2_impl; [exact HF|].
      intros m j (n & e & err0 & -> & Hn & He & ->).
      exists (S n), e, err0. repeat split; auto; lia. }
    destruct v; simpl in H.
    + destruct (valid_entry_times float_of_str self entry _ _ Hv)
        as ([sd ed] & Ht & _).
      rewrite Ht in H.
      destruct (IH _ _ _ _ _ H) as (msgs & -> & HF).
      exists msgs. split; [reflexivity|].
      cbn [dropped_from]. rewrite (passes_true float_of_str self _ _ _ Hv).
      exact (Hshift msgs HF).
    + destruct (IH _ _ _ _ _ H) as (msgs & -> & HF).
      exists (error_text err :: msgs). rewrite <- app_assoc.
      split; [reflexivity|].
      cbn [dropped_from]. rewrite (passes_false float_of_str self _ _ _ Hv).
      constructor; [|exact (Hshift msgs HF)].
      exists 0%nat, entry, err. rewrite Nat.add_0_r. auto.
Qed.

(** X17. The errors of [validate_schedule] when an entry fails.  If at
    least one entry of the list does not pass [validate_schedule_entry],
    then whenever [validate_schedule] returns, it returns [False] with
    exactly one message per failing entry, in order: the message of that
    entry's check.  The overlap and gap checks are not run, so overlaps
    among the other entries go unreported; and the message
    ["Entry {i}: Invalid timestamp format - ..."] of the second parse never
    occurs. *)
Theorem validate_schedule_entry_errors_only (entries : list pyval)
    (device : option string) (ok : bool) (errors : list msg) :
  dropped_from float_of_str self 0 entries <> [] ->
  validate_schedule float_of_str self (VList entries) device = Ok (ok, errors) ->
  ok = false
  /\ Forall2 (fun m i =>
                exists e err,
                  entries !! i = Some e
                  /\ validate_schedule_entry float_of_str self e (Some i)
                     = Ok (false, err)
                  /\ m = error_text err)
             errors (dropped_from float_of_str self 0 entries).
Proof.
  intros Hd H. unfold validate_schedule in H.
  destruct entries as [|e0 rest]; [contradiction Hd; reflexivity|].
  apply bind_ok in H as ([errs0 pts] & Hve & H).
  destruct (validate_entries_errors _ _ _ _ _ _ Hve) as (msgs & Heq & HF).
  simpl in Heq. subst errs0.
  destruct msgs as [|m msgs].
  { apply Forall2_length in HF. destruct Hd.
    destruct (dropped_from float_of_str self 0 (e0 :: rest));
      [reflexivity|discriminate HF]. }
  injection H as <- <-. split; [reflexivity|].
  eapply Forall2_impl; [exact HF|].
  intros w j (n & e & err & -> & Hn & He & ->). simpl. eauto.
Qed.

(** X18. The agent can reject what the cloud accepts.  A [rate_kw] given
    as a string is converted by the cloud validator with [float]; the
    agent's validation asks for an [int] or a [float].  So a one-entry
    schedule whose timestamps and mode are valid and whose rate is a string
    that [float] reads as a value in range is accepted by
    [validate_schedule] of the default validator and rejected by
    [validate_schedule_locally], with the rate as its only error;
    [_process_schedule] then leaves the daemon as it was. *)
Theorem string_rate_divides_the_validators (d : gmap string pyval)
    (start_time end_time mode : pyval) (s : string) (r : float)
    (device : option string) :
  d !! "start_time" = Some start_time ->
  d !! "end_time" = Some end_time ->
  d !! "mode" = Some mode ->
  d !! "rate_kw" = Some (VStr s) ->
  timestamps_valid start_time end_time ->
  mode_valid default_validator mode ->
  float_of_str s = Some r ->
  PrimFloat.ltb r 0 = false -> PrimFloat.ltb 1000 r = false ->
  validate_schedule float_of_str default_validator (VList [VDict d]) device
  = Ok (true, [])
  /\ validate_schedule_locally (VList [VDict d])
     = (false, [LocalBadRate 0 (VStr s)])
  /\ forall self' db_ok,
       _process_schedule self' (VList [VDict d]) db_ok = self'.
Proof.
  intros Hs He Hm Hr Hts Hmode Hf Hlo Hhi.
  assert (Hentry : forall index,
            validate_schedule_entry float_of_str default_validator (VDict d)
              index = Ok (true, None)).
  { intros index.
    apply (validate_schedule_entry_accepted float_of_str default_validator).
    exists d, start_time, end_time, mode, (VStr s).
    repeat split; auto. exists r. simpl. rewrite Hf. auto. }
  assert (Hlocal : validate_schedule_locally (VList [VDict d])
                   = (false, [LocalBadRate 0 (VStr s)])).
  { assert (Hpy : py_eq_int mode 1 || py_eq_int mode 2 = true).
    { destruct Hmode as (z & Hz & Hin).
      change (valid_modes default_validator) with ({[ 1; 2 ]} : gset Z) in Hin.
      assert (Hz12 : z = 1 \/ z = 2).
      { apply elem_of_union in Hin as [Hin|Hin];
          apply elem_of_singleton in Hin; auto. }
      destruct mode as [|b|z0| | | |]; simpl in Hz; try discriminate Hz;
        injection Hz as Hz.
      - destruct b; [reflexivity|lia].
      - subst z0. destruct Hz12 as [-> | ->]; reflexivity. }
    unfold validate_schedule_locally, local_errors_from, local_entry_errors,
      required_fields, dict_has. simpl. rewrite Hs, He, Hm, Hr. simpl.
    rewrite Hpy. reflexivity. }
  split; [|split].
  - destruct Hts as (sd & ed & Hsd & Hed & Hk & _).
    unfold validate_schedule, validate_entries.
    rewrite Hentry. unfold entry_times. simpl. rewrite Hs, He. simpl.
    rewrite Hsd, Hed. reflexivity.
  - exact Hlocal.
  - intros self' db_ok. apply process_schedule_rejected.
    rewrite Hlocal. reflexivity.
Qed.

End EntryErrors.
(** *** The device identifier *)

Lemma all_chars_app p s t :
  all_chars p (String.append s t) = all_chars p s && all_chars p t.
Proof.
  induction s as [|c s IH]; [reflexivity|].
  cbv beta iota delta [String.append]. fold String.append.
  simpl. rewrite IH. apply andb_assoc.
Qed.

Lemma rstrip_no_trailing_space : forall s t c,
  is_space c = true -> rstrip s <> String.append t (String c "").
Proof.
  induction s as [|a s IH]; intros t c Hc H; simpl in H.
  - destruct t; discriminate H.
  - destruct (rstrip s) as [|b r] eqn:Hr.
    + destruct (is_space a) eqn:Ha.
      * destruct t; discriminate H.
      * destruct t as [|x t].
        -- injection H as ->. congruence.
        -- injection H as _ H. destruct t; discriminate H.
    + destruct t as [|x t].
      * discriminate H.
      * injection H as _ H. exact (IH t c Hc H).
Qed.

Lemma rstrip_fixed : forall s,
  all_chars (fun c => negb (is_space c)) s = true -> rstrip s = s.
Proof.
  induction s as [|a s IH]; intros H; [reflexivity|].
  simpl in H. apply andb_prop in H as [Ha Hs].
  simpl. rewrite (IH Hs). apply negb_true_iff in Ha.
  destruct s; [rewrite Ha|]; reflexivity.
Qed.

Lemma strip_fixed s :
  all_chars (fun c => negb (is_space c)) s = true -> strip s = s.
Proof.
  intros H. unfold strip.
  assert (lstrip s = s) as ->.
  { destruct s as [|a s]; [reflexivity|]. simpl in *.
    apply andb_prop in H as [Ha _]. apply negb_true_iff in Ha.
    rewrite Ha. reflexivity. }
  apply rstrip_fixed. exact H.
Qed.

(** A greedy star of a class without the newline, then [$]: the match takes
    the whole string, or all of it but a final newline. *)
Lemma match_star_end p : forall s r,
  p newline = false ->
  match_items [Class p (Star true); EndOfString] s = Some r ->
  (r = "" /\ all_chars p s = true)
  \/ (r = String newline ""
      /\ exists t, s = String.append t (String newline "")
                   /\ all_chars p t = true).
Proof.
  intros s r Hn. revert r. induction s as [|c s IH]; intros r H.
  - simpl in H. injection H as <-. left. auto.
  - cbn [match_items] in H. cbn [match_items] in IH.
    destruct (p c) eqn:Hc.
    + destruct ((fix star (s0 : string) : option string := _) s) as [r'|] eqn:Hs.
      * injection H as <-.
        destruct (IH r' eq_refl) as [[-> Hall]|(-> & t & -> & Hall)].
        -- left. simpl. rewrite Hc, Hall. auto.
        -- right. split; [reflexivity|]. exists (String c t).
           simpl. rewrite Hc, Hall. auto.
      * destruct (String.eqb (String c s) "" || String.eqb (String c s) (String newline ""))
          eqn:He; [|discriminate H].
        injection H as <-. simpl in He.
        destruct (Ascii.eqb_spec c newline) as [->|Hne];
          [congruence|discriminate He].
    + destruct (String.eqb (String c s) "" || String.eqb (String c s) (String newline ""))
        eqn:He; [|discriminate H].
      injection H as <-. simpl in He.
      destruct (Ascii.eqb_spec c newline) as [->|Hne]; [|discriminate He].
      destruct s; [|discriminate He]. right. split; [reflexivity|].
      exists "". auto.
Qed.

Lemma match_star_all p : forall s,
  all_chars p s = true ->
  match_items [Class p (Star true); EndOfString] s = Some "".
Proof.
  induction s as [|c s IH]; intros H; [reflexivity|].
  simpl in H. apply andb_prop in H as [Hc Hs].
  cbn [match_items]. cbn [match_items] in IH. rewrite Hc, (IH Hs).
  reflexivity.
Qed.

Lemma device_id_char_not_space c :
  device_id_char c = true -> is_space c = false.
Proof.
  destruct c as [[] [] [] [] [] [] [] []]; vm_compute; congruence.
Qed.

Lemma all_chars_impl (p q : ascii -> bool) s :
  (forall c, p c = true -> q c = true) ->
  all_chars p s = true -> all_chars q s = true.
Proof.
  intros Hpq. induction s as [|c s IH]; [reflexivity|]. simpl.
  intros H. apply andb_prop in H as [Hc Hs]. rewrite (Hpq c Hc), (IH Hs).
  reflexivity.
Qed.

Section DeviceId.

Variable py_str : pyval -> string.

Lemma sanitize_device_id_ok v out :
  sanitize_device_id py_str v = Ok out <->
  out = strip (as_str py_str v) /\ out <> ""
  /\ all_chars device_id_char out = true
  /\ (String.length out <= 100)%nat.
Proof.
  unfold sanitize_device_id. set (s := strip (as_str py_str v)).
  split.
  - destruct (match_items device_id_pattern s) as [r|] eqn:Hm; [|discriminate].
    destruct (100 <? String.length s)%nat eqn:Hl; [discriminate|].
    intros H. injection H as <-. apply Nat.ltb_ge in Hl.
    split; [reflexivity|].
    unfold device_id_pattern in Hm.
    destruct s as [|c s'] eqn:Hs; [discriminate Hm|].
    split; [discriminate|]. split; [|exact Hl].
    cbn [match_items] in Hm. destruct (device_id_char c) eqn:Hc;
      [|discriminate Hm].
    change ((fix star (s0 : string) : option string := _) s')
      with (match_items [Class device_id_char (Star true); EndOfString] s')
      in Hm.
    assert (Hn : device_id_char newline = false) by (vm_compute; reflexivity).
    apply (match_star_end _ _ _ Hn) in Hm as [[_ Hall]|(_ & t & -> & _)].
    + simpl. rewrite Hc, Hall. reflexivity.
    + exfalso. unfold s, strip in Hs.
      apply (rstrip_no_trailing_space (lstrip (as_str py_str v))
               (String c t) newline); [vm_compute; reflexivity|].
      exact Hs.
  - intros (-> & Hne & Hall & Hl).
    destruct s as [|c s']; [contradiction|].
    simpl in Hall. apply andb_prop in Hall as [Hc Hs'].
    unfold device_id_pattern. cbn [match_items]. rewrite Hc.
    change ((fix star (s0 : string) : option string := _) s')
      with (match_items [Class device_id_char (Star true); EndOfString] s').
    rewrite (match_star_all _ _ Hs').
    replace (100 <? String.length (String c s'))%nat with false
      by (symmetry; apply Nat.ltb_ge; exact Hl).
    reflexivity.
Qed.

(** X19. What [sanitize_device_id] returns.  It returns [out] exactly when
    [out] is the stripped identifier, is not empty, holds only the
    characters [A-Z], [0-9], [_] and [-], and has at most 100 characters;
    otherwise it raises [ValueError].  It changes nothing but the blanks
    around the identifier, and it is idempotent: what it returns it
    returns again unchanged. *)
Theorem sanitize_device_id_accepts_iff (v : pyval) :
  (forall out,
      sanitize_device_id py_str v = Ok out <->
      out = strip (as_str py_str v) /\ out <> ""
      /\ all_chars device_id_char out = true
      /\ (String.length out <= 100)%nat)
  /\ (forall e, sanitize_device_id py_str v = Raise e -> e = ValueError)
  /\ (forall out, sanitize_device_id py_str v = Ok out ->
                  sanitize_device_id py_str (VStr out) = Ok out).
Proof.
  split; [intros out; apply sanitize_device_id_ok|]. split.
  - unfold sanitize_device_id. intros e.
    destruct (match_items _ _); [destruct (_ <? _)%nat|]; congruence.
  - intros out H. apply sanitize_device_id_ok in H as (_ & Hne & Hall & Hl).
    apply sanitize_device_id_ok. repeat split; auto.
    simpl. symmetry. apply strip_fixed.
    apply (all_chars_impl device_id_char); [|exact Hall].
    intros c Hc. rewrite (device_id_char_not_space c Hc). reflexivity.
Qed.

End DeviceId.
(** *** What [sanitize_string] returns *)

Ltac each_char c := destruct c as [[] [] [] [] [] [] [] []].

Lemma replace_char_all (q : ascii -> bool) c new : forall s,
  all_chars q new = true ->
  all_chars (fun x => q x || Ascii.eqb x c) s = true ->
  all_chars q (replace_char c new s) = true.
Proof.
  intros s Hnew. induction s as [|x s IH]; intros H; [reflexivity|].
  simpl in H. apply andb_prop in H as [Hx Hs]. simpl.
  destruct (Ascii.eqb x c) eqn:Hxc.
  - rewrite all_chars_app, Hnew. exact (IH Hs).
  - rewrite orb_false_r in Hx. simpl. rewrite Hx. exact (IH Hs).
Qed.

Lemma all_chars_true s : all_chars (fun _ => true) s = true.
Proof. induction s; simpl; auto. Qed.

Lemma html_escape_no_markup s :
  all_chars (fun c => negb (is_markup c)) (html_escape s) = true.
Proof.
  unfold html_escape.
  set (s1 := replace_char "&" "&amp;" s).
  apply replace_char_all; [reflexivity|].
  apply (all_chars_impl
           (fun c => negb (Ascii.eqb c "<" || Ascii.eqb c ">"
                           || Ascii.eqb c double_quote))).
  { intros c. unfold is_markup. destruct (Ascii.eqb c "'"); simpl;
      [rewrite !orb_true_r|rewrite !orb_false_r]; auto. }
  apply replace_char_all; [reflexivity|].
  apply (all_chars_impl
           (fun c => negb (Ascii.eqb c "<" || Ascii.eqb c ">"))).
  { intros c. destruct (Ascii.eqb c double_quote); simpl;
      [rewrite !orb_true_r|rewrite !orb_false_r]; auto. }
  apply replace_char_all; [reflexivity|].
  apply (all_chars_impl (fun c => negb (Ascii.eqb c "<"))).
  { intros c. destruct (Ascii.eqb c ">"); simpl;
      [rewrite !orb_true_r|rewrite !orb_false_r]; auto. }
  apply replace_char_all; [reflexivity|].
  apply (all_chars_impl (fun _ => true)); [|apply all_chars_true].
  intros c _. destruct (Ascii.eqb c "<"); reflexivity.
Qed.

(** A substitution by the empty string only removes characters. *)
Lemma re_sub_from_all (q : ascii -> bool) items : forall s skip,
  all_chars q s = true -> all_chars q (re_sub_from items skip s) = true.
Proof.
  induction s as [|c s IH]; intros skip H; [reflexivity|].
  simpl in H. apply andb_prop in H as [Hc Hs]. cbn [re_sub_from].
  destruct skip as [|k]; [|exact (IH k Hs)].
  destruct (match_items items (String c s)) as [rest|].
  - destruct (String.length (String c s) - String.length rest)%nat as [|k].
    + simpl. rewrite Hc. exact (IH 0%nat Hs).
    + exact (IH k Hs).
  - simpl. rewrite Hc. exact (IH 0%nat Hs).
Qed.

Lemma re_sub_all_patterns (q : ascii -> bool) : forall patterns s,
  all_chars q s = true ->
  all_chars q (fold_left (fun sanitized pattern => re_sub pattern sanitized)
                         patterns s) = true.
Proof.
  induction patterns as [|p ps IH]; intros s H; [exact H|].
  simpl. apply IH. apply re_sub_from_all. exact H.
Qed.

Lemma substring_all (q : ascii -> bool) : forall s n,
  all_chars q s = true -> all_chars q (substring 0 n s) = true.
Proof.
  induction s as [|c s IH]; intros [|n] H; try reflexivity.
  simpl in H. apply andb_prop in H as [Hc Hs]. simpl.
  rewrite Hc. exact (IH n Hs).
Qed.

Lemma substring_length : forall s n,
  String.length (substring 0 n s) = Nat.min n (String.length s).
Proof.
  induction s as [|c s IH]; intros [|n]; try reflexivity.
  simpl. rewrite IH. reflexivity.
Qed.

Lemma substring_min : forall s n,
  substring 0 (Nat.min n (String.length s)) s = substring 0 n s.
Proof.
  induction s as [|c s IH]; intros [|n]; try reflexivity.
  simpl. rewrite IH. reflexivity.
Qed.

Lemma substring_whole : forall s n,
  (String.length s <= n)%nat -> substring 0 n s = s.
Proof.
  induction s as [|c s IH]; intros [|n] H; try reflexivity;
    simpl in H; try lia.
  simpl. rewrite IH by lia. reflexivity.
Qed.

(** A pattern that starts with a character the string does not have
    matches nowhere. *)
Lemma re_sub_first_char p rest : forall s,
  all_chars (fun c => negb (p c)) s = true ->
  re_sub (Class p Once :: rest) s = s.
Proof.
  unfold re_sub. induction s as [|c s IH]; intros H; [reflexivity|].
  simpl in H. apply andb_prop in H as [Hc Hs]. apply negb_true_iff in Hc.
  cbn [re_sub_from match_items]. rewrite Hc. f_equal. exact (IH Hs).
Qed.

Section SanitizeString.

Variable py_str : pyval -> string.

Lemma sanitize_string_cases (value : pyval) (max_length : option Z) :
  sanitize_string py_str value max_length
  = let full := sanitize_string py_str value None in
    match max_length with
    | Some n =>
        if negb (n =? 0) && (n <? Z.of_nat (String.length full))
        then py_slice_to n full
        else full
    | None => full
    end.
Proof. reflexivity. Qed.

Lemma sanitize_string_no_markup (value : pyval) (max_length : option Z) :
  all_chars (fun c => negb (is_markup c))
            (sanitize_string py_str value max_length) = true.
Proof.
  assert (Hfull : all_chars (fun c => negb (is_markup c))
                            (sanitize_string py_str value None) = true).
  { unfold sanitize_string. apply re_sub_all_patterns.
    apply html_escape_no_markup. }
  rewrite sanitize_string_cases. cbv zeta.
  destruct max_length as [n|]; [|exact Hfull].
  destruct (negb (n =? 0) && _); [|exact Hfull].
  unfold py_slice_to. destruct (n <? 0); apply substring_all; exact Hfull.
Qed.

Lemma sanitize_string_length (value : pyval) (n : Z) :
  0 < n ->
  Z.of_nat (String.length (sanitize_string py_str value (Some n))) <= n.
Proof.
  intros Hpos. rewrite sanitize_string_cases. cbv zeta.
  set (full := sanitize_string py_str value None).
  destruct (negb (n =? 0) && (n <? Z.of_nat (String.length full))) eqn:Hc.
  - unfold py_slice_to. replace (n <? 0) with false
      by (symmetry; apply Z.ltb_ge; lia).
    rewrite substring_length. lia.
  - apply andb_false_iff in Hc as [Hc|Hc].
    + apply negb_false_iff, Z.eqb_eq in Hc. lia.
    + apply Z.ltb_ge in Hc. exact Hc.
Qed.

(** X20. What [sanitize_string] returns, for every value and every
    [max_length].  The result holds none of the characters [<], [>], the
    double quote and the single quote.  It is a prefix of the result without
    [max_length]; with a positive [max_length] it has at most that many
    characters, and with [max_length] absent or zero it is not shortened at
    all.  And the first dangerous pattern, [<script[^>]*>.*?</script>],
    never removes anything: [html.escape] has replaced every [<] before the
    patterns are applied. *)
Theorem sanitize_string_output (value : pyval) (max_length : option Z) :
  let out := sanitize_string py_str value max_length in
  let full := sanitize_string py_str value None in
  all_chars (fun c => negb (is_markup c)) out = true
  /\ out = substring 0 (String.length out) full
  /\ (forall n, max_length = Some n -> 0 < n ->
                Z.of_nat (String.length out) <= n)
  /\ (max_length = None \/ max_length = Some 0 -> out = full)
  /\ (forall s, re_sub (nth 0 dangerous_patterns []) (html_escape s)
                = html_escape s).
Proof.
  intros out full. split; [|split; [|split; [|split]]].
  - apply sanitize_string_no_markup.
  - unfold out. rewrite sanitize_string_cases. cbv zeta. fold full.
    destruct max_length as [n|];
      [destruct (negb (n =? 0) && _)|];
      try (symmetry; apply substring_whole; lia).
    unfold py_slice_to. destruct (n <? 0);
      rewrite substring_length; symmetry; apply substring_min.
  - intros n -> Hpos. apply sanitize_string_length. exact Hpos.
  - intros [->| ->]; reflexivity.
  - intros s.
    change (nth 0 dangerous_patterns [])
      with (Class (ignoring_case "<") Once
            :: (literal "script"
                ++ [Class (fun c => negb (Ascii.eqb c ">")) (Star true)]
                ++ literal ">"
                ++ [Class (fun _ => true) (Star false)]
                ++ literal "</script>")%list).
    apply re_sub_first_char.
    apply (all_chars_impl (fun c => negb (is_markup c)));
      [|apply html_escape_no_markup].
    intros c. each_char c; vm_compute; congruence.
Qed.

End SanitizeString.
(** *** Strings the sanitizer leaves alone *)

Lemma replace_char_absent c new : forall s,
  all_chars (fun x => negb (Ascii.eqb x c)) s = true ->
  replace_char c new s = s.
Proof.
  induction s as [|x s IH]; intros H; [reflexivity|].
  simpl in H. apply andb_prop in H as [Hx Hs]. apply negb_true_iff in Hx.
  simpl. rewrite Hx, (IH Hs). reflexivity.
Qed.

Lemma harmless_chars c :
  is_harmless c = true ->
  is_space c = false
  /\ Ascii.eqb c "&" = false /\ Ascii.eqb c "<" = false
  /\ Ascii.eqb c ">" = false /\ Ascii.eqb c double_quote = false
  /\ Ascii.eqb c "'" = false
  /\ ignoring_case "<" c = false /\ ignoring_case "j" c = false
  /\ ignoring_case "o" c = false /\ ignoring_case "d" c = false
  /\ ignoring_case "v" c = false.
Proof.
  each_char c; vm_compute; intros H; try discriminate H; repeat split.
Qed.

Lemma harmless_all (q : ascii -> bool) s :
  (forall c, is_harmless c = true -> q c = true) ->
  all_chars is_harmless s = true -> all_chars q s = true.
Proof. apply all_chars_impl. Qed.

Lemma html_escape_harmless s :
  all_chars is_harmless s = true -> html_escape s = s.
Proof.
  intros H. unfold html_escape.
  do 5 (rewrite (replace_char_absent _ _ s)
          by (apply (harmless_all _ s); [|exact H];
              intros c Hc; apply harmless_chars in Hc;
              apply negb_true_iff; tauto)).
  reflexivity.
Qed.

Lemma patterns_harmless s :
  all_chars is_harmless s = true ->
  fold_left (fun sanitized pattern => re_sub pattern sanitized)
            dangerous_patterns s = s.
Proof.
  intros H. unfold dangerous_patterns.
  cbn [fold_left literal map list_ascii_of_string app].
  do 5 (rewrite (re_sub_first_char _ _ s)
          by (apply (harmless_all _ s); [|exact H];
              intros c Hc; apply harmless_chars in Hc;
              apply negb_true_iff; tauto)).
  reflexivity.
Qed.

Section Harmless.

Variable py_str : pyval -> string.

Lemma sanitize_string_harmless s n :
  all_chars is_harmless s = true ->
  Z.of_nat (String.length s) <= n ->
  sanitize_string py_str (VStr s) (Some n) = s.
Proof.
  intros H Hn. unfold sanitize_string. cbn [as_str].
  rewrite strip_fixed.
  2:{ apply (harmless_all _ s); [|exact H]. intros c Hc.
      apply harmless_chars in Hc. apply negb_true_iff. tauto. }
  rewrite (html_escape_harmless s H), (patterns_harmless s H).
  replace (n <? Z.of_nat (String.length s)) with false
    by (symmetry; apply Z.ltb_ge; exact Hn).
  rewrite andb_false_r. reflexivity.
Qed.

End Harmless.

Lemma length_append s t :
  String.length (String.append s t) = (String.length s + String.length t)%nat.
Proof.
  induction s as [|c s IH]; [reflexivity|].
  cbv beta iota delta [String.append]. fold String.append.
  simpl. rewrite IH. reflexivity.
Qed.

Lemma digit_harmless d : (d < 10)%nat -> is_harmless (digit_char d) = true.
Proof. intros H. nat_cases d 10%nat; try lia; reflexivity. Qed.

Lemma two_digits_harmless n :
  (n < 100)%nat -> all_chars is_harmless (two_digits n) = true.
Proof.
  intros H. unfold two_digits. cbn [all_chars].
  rewrite !digit_harmless; [reflexivity| |];
    zify; Z.to_euclidean_division_equations; lia.
Qed.

Lemma four_digits_harmless n :
  Z.of_nat n <= 9999 -> all_chars is_harmless (four_digits n) = true.
Proof.
  intros H. unfold four_digits. cbn [all_chars].
  rewrite two_digits_harmless
    by (zify; Z.to_euclidean_division_equations; lia).
  rewrite !digit_harmless; [reflexivity| |];
    zify; Z.to_euclidean_division_equations; lia.
Qed.

Lemma digits_string_harmless ds :
  Forall (fun d => (d < 10)%nat) ds ->
  all_chars is_harmless (digits_string ds) = true.
Proof.
  induction 1 as [|d ds Hd _ IH]; [reflexivity|].
  cbn [digits_string all_chars]. rewrite (digit_harmless d Hd), IH.
  reflexivity.
Qed.

Lemma digits_string_length ds :
  String.length (digits_string ds) = length ds.
Proof.
  induction ds as [|d ds IH]; [reflexivity|].
  cbn [digits_string String.length length]. rewrite IH. reflexivity.
Qed.

Lemma all_chars_String p c s :
  all_chars p (String c s) = p c && all_chars p s.
Proof. reflexivity. Qed.

Lemma length_String c s : String.length (String c s) = S (String.length s).
Proof. reflexivity. Qed.

Lemma two_digits_length n : String.length (two_digits n) = 2%nat.
Proof. reflexivity. Qed.

Lemma four_digits_length n : String.length (four_digits n) = 4%nat.
Proof. reflexivity. Qed.

(** A written timestamp has only harmless characters, and at most 32 of
    them. *)
Lemma render_harmless w :
  well_formed w ->
  all_chars is_harmless (render w) = true
  /\ (String.length (render w) <= 32)%nat.
Proof.
  intros (Hy & Hm & Hd1 & Hd2 & Hh & Hmi & Hs & Hfl & Hfd & Hz).
  assert (Hday : (w_day w <= 31)%nat).
  { pose proof (days_in_month_le (Z.of_nat (w_year w)) (Z.of_nat (w_month w))).
    lia. }
  assert (Hfr : all_chars is_harmless (render_fraction (w_fraction w)) = true).
  { unfold render_fraction. destruct (w_fraction w); [reflexivity|].
    rewrite all_chars_String.
    rewrite digits_string_harmless by exact Hfd. reflexivity. }
  assert (Hzo : all_chars is_harmless (render_zone (w_zone w)) = true).
  { destruct (w_zone w) as [| |neg hh mm]; try reflexivity.
    destruct Hz as [Hhh Hmm]. unfold render_zone.
    rewrite all_chars_String, all_chars_app, all_chars_String.
    rewrite !two_digits_harmless by lia. destruct neg; reflexivity. }
  assert (Hfrl : (String.length (render_fraction (w_fraction w)) <= 7)%nat).
  { unfold render_fraction. destruct (w_fraction w); [simpl; lia|].
    rewrite length_String, digits_string_length. lia. }
  assert (Hzol : (String.length (render_zone (w_zone w)) <= 6)%nat).
  { destruct (w_zone w) as [| |neg hh mm]; [simpl; lia..|].
    unfold render_zone.
    rewrite length_String, length_append, length_String, !two_digits_length.
    lia. }
  unfold render, render_datetime. split.
  - repeat (rewrite all_chars_app || rewrite all_chars_String).
    rewrite four_digits_harmless by lia.
    rewrite !two_digits_harmless by lia.
    rewrite Hfr, Hzo. reflexivity.
  - repeat (rewrite length_append || rewrite length_String).
    rewrite four_digits_length, !two_digits_length. lia.
Qed.
(** *** What [validate_schedule_entry_input] returns *)

Lemma float_in_bounds_not_bad r :
  PrimFloat.leb 0 r = true -> PrimFloat.leb r 1000 = true ->
  bad_rate (VFloat r) = false.
Proof.
  intros H0 H1. simpl.
  rewrite (float_leb_not_ltb _ _ H0), (float_leb_not_ltb _ _ H1). reflexivity.
Qed.

Lemma sanitized_entry_acceptable (s e : string) (m : Z) (r : float) :
  m = 1 \/ m = 2 ->
  PrimFloat.leb 0 r = true -> PrimFloat.leb r 1000 = true ->
  locally_acceptable (make_entry s e (VInt m) (VFloat r)).
Proof.
  intros Hm H0 H1. eexists _, (VStr s), (VStr e), (VInt m), (VFloat r).
  split; [reflexivity|]. repeat split.
  - destruct Hm as [-> | ->]; reflexivity.
  - apply float_in_bounds_not_bad; assumption.
Qed.

Section EntryInput.

Variable py_str : pyval -> string.
Variable int_of_str : string -> option Z.
Variable float_of_str : string -> option float.

Lemma int_or_none_shape v x :
  int_or_none int_of_str v = Ok x -> (exists z, x = VInt z) \/ x = VNone.
Proof.
  destruct v as [|b|z|f|s|l|d]; simpl; intros H;
    try (injection H as <-; eauto).
  destruct (int_of_str s); [injection H as <-; eauto|discriminate H].
Qed.

Lemma float_or_none_shape v x :
  float_or_none float_of_str v = Ok x ->
  (exists f, x = VFloat f /\ py_float float_of_str v = Ok f)
  \/ (x = VNone /\ py_float float_of_str v = Raise TypeError).
Proof.
  destruct v as [|b|z|f|s|l|d]; cbn [float_or_none]; intros H;
    try (injection H as <-; right; split; reflexivity);
    apply bind_ok in H as (g & Hg & H); injection H as <-; eauto.
Qed.


Lemma entry_input_ok entry out :
  validate_schedule_entry_input py_str int_of_str float_of_str entry = Ok out
  <->
  exists (d : gmap string pyval) m r,
    entry = VDict d
    /\ find (fun field => negb (dict_has d field)) required_fields = None
    /\ int_or_none int_of_str (dict_get d "mode") = Ok (VInt m)
    /\ (m = 1 \/ m = 2)
    /\ float_or_none float_of_str (dict_get d "rate_kw") = Ok (VFloat r)
    /\ PrimFloat.leb 0 r = true /\ PrimFloat.leb r 1000 = true
    /\ out = make_entry
               (sanitize_string py_str (dict_get d "start_time") (Some 50))
               (sanitize_string py_str (dict_get d "end_time") (Some 50))
               (VInt m) (VFloat r).
Proof.
  unfold validate_schedule_entry_input. split.
  - destruct entry as [| | | | | |d]; try discriminate.
    destruct (find _ required_fields) eqn:Hf; [discriminate|].
    intros H. apply bind_ok in H as (mode & Hmode & H).
    apply bind_ok in H as (rate & Hrate & H).
    destruct (py_eq_int mode 1 || py_eq_int mode 2) eqn:Hm;
      [|discriminate H].
    simpl in H. apply bind_ok in H as (inside & Hin & H).
    destruct inside; [|discriminate H]. simpl in H. injection H as <-.
    destruct (int_or_none_shape _ _ Hmode) as [[m ->]| ->];
      [|discriminate Hm].
    destruct (float_or_none_shape _ _ Hrate) as [(r & -> & _)|[-> _]];
      [|discriminate Hin].
    simpl in Hin. injection Hin as Hin. apply andb_prop in Hin as [H0 H1].
    exists d, m, r. repeat split; auto.
    simpl in Hm. apply orb_prop in Hm as [Hm|Hm]; apply Z.eqb_eq in Hm; auto.
  - intros (d & m & r & -> & Hf & Hm & Hmv & Hr & H0 & H1 & ->).
    rewrite Hf, Hm. simpl. rewrite Hr. simpl.
    replace ((m =? 1) || (m =? 2)) with true
      by (destruct Hmv as [-> | ->]; reflexivity).
    simpl. rewrite H0, H1. reflexivity.
Qed.

(** X21. What [validate_schedule_entry_input] returns.  Whenever it
    returns, its result is an entry with exactly the four fields, whose
    timestamps are the sanitized timestamps of the input (at most 50
    characters, none of them [<], [>] or a quote), whose mode is the [int]
    1 or 2 and whose rate is a [float] [r] with [0 <= r <= 1000], so never
    a NaN.  The mode and rate checks of the default [ScheduleValidator]
    accept such an entry whatever its timestamps, and the agent's
    [validate_schedule_locally] asks nothing more of an entry. *)
Theorem validate_schedule_entry_input_output (entry out : pyval) :
  validate_schedule_entry_input py_str int_of_str float_of_str entry = Ok out ->
  exists (d : gmap string pyval) (start_time end_time : string) m r,
    entry = VDict d
    /\ start_time = sanitize_string py_str (dict_get d "start_time") (Some 50)
    /\ end_time = sanitize_string py_str (dict_get d "end_time") (Some 50)
    /\ out = make_entry start_time end_time (VInt m) (VFloat r)
    /\ (String.length start_time <= 50)%nat
    /\ (String.length end_time <= 50)%nat
    /\ all_chars (fun c => negb (is_markup c)) start_time = true
    /\ all_chars (fun c => negb (is_markup c)) end_time = true
    /\ (m = 1 \/ m = 2)
    /\ PrimFloat.leb 0 r = true /\ PrimFloat.leb r 1000 = true
    /\ (forall p, _validate_mode default_validator (VInt m) p = Ok (true, None))
    /\ (forall p, _validate_rate float_of_str default_validator (VFloat r) p
                  = Ok (true, None))
    /\ locally_acceptable out.
Proof.
  intros H. apply entry_input_ok
    in H as (d & m & r & -> & Hf & Hm & Hmv & Hr & H0 & H1 & ->).
  exists d, (sanitize_string py_str (dict_get d "start_time") (Some 50)),
    (sanitize_string py_str (dict_get d "end_time") (Some 50)), m, r.
  do 4 (split; [reflexivity|]).
  split; [|split; [|split; [|split]]].
  - pose proof (sanitize_string_length py_str (dict_get d "start_time") 50 eq_refl).
    lia.
  - pose proof (sanitize_string_length py_str (dict_get d "end_time") 50 eq_refl).
    lia.
  - apply sanitize_string_no_markup.
  - apply sanitize_string_no_markup.
  - split; [exact Hmv|]. split; [exact H0|]. split; [exact H1|].
    split; [|split].
    + intros p. destruct Hmv as [-> | ->]; vm_compute; reflexivity.
    + intros p. unfold _validate_rate. cbn [py_float].
      change (min_rate_kw default_validator) with 0%float.
      change (max_rate_kw default_validator) with 1000%float.
      rewrite (float_leb_not_ltb _ _ H0), (float_leb_not_ltb _ _ H1).
      reflexivity.
    + apply sanitized_entry_acceptable; assumption.
Qed.

(** X22. Well-formed timestamps pass through unchanged.  On an entry whose
    two timestamps are written as zero-padded dates and times of day, with
    or without a fraction, a [Z] or a numeric offset,
    [validate_schedule_entry_input] returns the timestamps as they were
    submitted: the sanitizer strips, escapes, removes and truncates
    nothing. *)
Theorem well_formed_timestamps_unchanged (ws we : written)
    (mode rate_kw out : pyval) :
  well_formed ws -> well_formed we ->
  validate_schedule_entry_input py_str int_of_str float_of_str
    (make_entry (render ws) (render we) mode rate_kw) = Ok out ->
  sanitize_string py_str (VStr (render ws)) (Some 50) = render ws
  /\ sanitize_string py_str (VStr (render we)) (Some 50) = render we
  /\ exists m r, out = make_entry (render ws) (render we) (VInt m) (VFloat r).
Proof.
  intros Hws Hwe H.
  destruct (render_harmless ws Hws) as [Hs1 Hs2].
  destruct (render_harmless we Hwe) as [He1 He2].
  assert (Hs : sanitize_string py_str (VStr (render ws)) (Some 50) = render ws)
    by (apply sanitize_string_harmless; [exact Hs1|lia]).
  assert (He : sanitize_string py_str (VStr (render we)) (Some 50) = render we)
    by (apply sanitize_string_harmless; [exact He1|lia]).
  split; [exact Hs|]. split; [exact He|].
  apply entry_input_ok in H as (d & m & r & Hd & _ & _ & _ & _ & _ & _ & ->).
  injection Hd as <-. exists m, r.
  change (dict_get _ "start_time") with (VStr (render ws)).
  change (dict_get _ "end_time") with (VStr (render we)).
  rewrite Hs, He. reflexivity.
Qed.


(** *** The create route *)

Lemma sanitize_entries_ok : forall entries schedule,
  sanitize_entries py_str int_of_str float_of_str entries = Ok schedule ->
  Forall2 (fun e out =>
             validate_schedule_entry_input py_str int_of_str float_of_str e
             = Ok out)
          entries schedule.
Proof.
  induction entries as [|e rest IH]; intros schedule H; simpl in H.
  - injection H as <-. constructor.
  - apply bind_ok in H as (out & Hout & H).
    apply bind_ok in H as (others & Hothers & H). injection H as <-.
    constructor; [exact Hout|exact (IH _ Hothers)].
Qed.

(** X24. What [create_schedule] hands to the service.  Whenever the route
    reaches the call to [service.create_schedule(device_id, schedule)], the
    device identifier is the stripped identifier of the request and holds
    only [A-Z], [0-9], [_] and [-]; the schedule is the list of the
    sanitized entries of the request; [validate_schedule] accepted it
    without an error; and the agent's own [validate_schedule_locally]
    accepts it too, so that the device never rejects what this route
    stored. *)
Theorem create_schedule_submits_valid (request_device_id device : string)
    (entries schedule : list pyval) :
  create_schedule py_str int_of_str float_of_str request_device_id entries
  = Ok (Submitted device schedule) ->
  device = strip request_device_id
  /\ device <> "" /\ all_chars device_id_char device = true
  /\ Forall2 (fun e out =>
                validate_schedule_entry_input py_str int_of_str float_of_str e
                = Ok out)
             entries schedule
  /\ validate_schedule float_of_str default_validator (VList schedule)
       (Some request_device_id) = Ok (true, [])
  /\ (validate_schedule_locally (VList schedule)).1 = true.
Proof.
  unfold create_schedule. intros H.
  apply bind_ok in H as (dev & Hdev & H).
  destruct (sanitize_entries py_str int_of_str float_of_str entries)
    as [dicts|[]] eqn:Hs; try discriminate H.
  apply bind_ok in H as ([v errs] & Hv & H).
  destruct v; [|discriminate H]. simpl in H. injection H as <- <-.
  apply sanitize_device_id_ok in Hdev as (Hd1 & Hd2 & Hd3 & _).
  pose proof (sanitize_entries_ok _ _ Hs) as HF.
  assert (errs = []) as ->
    by (apply (validate_schedule_verdict _ _ _ _ _ _ Hv); reflexivity).
  repeat split; auto.
  apply validate_schedule_locally_true. exists dicts.
  split; [reflexivity|]. split.
  - intros ->. discriminate Hv.
  - apply List.Forall_forall. intros out Hin.
    apply list_elem_of_In, list_elem_of_lookup in Hin as (n & Hn).
    destruct (Forall2_lookup_r _ _ _ _ _ HF Hn) as (e & _ & He).
    apply entry_input_ok
      in He as (d & m & r & _ & _ & _ & Hmv & _ & H0 & H1 & ->).
    apply sanitized_entry_acceptable; assumption.
Qed.

End EntryInput.
(** *** Examples *)

(** X4 (witness): the two half hours of [contiguous_schedule] cover one
    span. *)
Lemma accepted_schedule_partitions_span_witness :
  exists times k lo hi,
    Forall2 (fun e t => entry_times e = Ok t) contiguous_schedule times
    /\ Forall (fun t => dt_is_naive t.1 = k /\ dt_is_naive t.2 = k) times
    /\ lo < hi
    /\ (forall t, lo <= t < hi
                  <-> exists n tn, times !! n = Some tn
                                   /\ dt_key tn.1 <= t < dt_key tn.2)
    /\ (forall t n m tn tm,
          times !! n = Some tn -> times !! m = Some tm ->
          dt_key tn.1 <= t < dt_key tn.2 ->
          dt_key tm.1 <= t < dt_key tm.2 ->
          n = m).
Proof.
  apply (accepted_schedule_partitions_span float_of_digits
           default_validator contiguous_schedule (Some "RPI-001") []).
  vm_compute. reflexivity.
Defined.

(** X5 (witness): the entry with mode 3 is dropped, the other one kept. *)
Lemma clean_schedule_selects_witness :
  [make_entry "2025-12-25T00:00:00Z" "2025-12-25T00:30:00Z" (VInt 2) (VInt 500)]
  = List.filter (passes float_of_digits default_validator) mixed_schedule.
Proof.
  apply (clean_schedule_selects float_of_digits default_validator
           mixed_schedule _ None
           [MsgEntryInvalid 0
              (Some (MsgModeNotAllowed (EntryPrefix 0) (VInt 3)))]).
  vm_compute. reflexivity.
Defined.

(** X8 (witness): the entry of [half_hour_schedule] is executed at 98 kW. *)
Lemma accepted_entry_executes_witness :
  exists mode rate_kw actual,
    py_getitem (make_entry "2025-12-25T00:00:00" "2025-12-25T00:30:00"
                           (VInt 1) (VInt 100)) "mode" = Ok mode
    /\ py_getitem (make_entry "2025-12-25T00:00:00" "2025-12-25T00:30:00"
                              (VInt 1) (VInt 100)) "rate_kw" = Ok rate_kw
    /\ py_mul_float rate_kw (if py_eq_int mode 1 then 0.98 else 0.97)%float
       = Ok (VFloat actual)
    /\ _execute_entry 0
         (make_entry "2025-12-25T00:00:00" "2025-12-25T00:30:00"
                     (VInt 1) (VInt 100))
       = Ok {| d_index := 0; d_mode := mode; d_rate_kw := rate_kw;
               d_success := true; d_actual_rate := Some (VFloat actual) |}.
Proof.
  apply (accepted_entry_executes
           [make_entry "2025-12-25T00:00:00" "2025-12-25T00:30:00"
                       (VInt 1) (VInt 100)]).
  - vm_compute. reflexivity.
  - reflexivity.
Defined.

(** X9 (witness): the schedule is written with [Z]; the tick at midnight,
    inside the window of its entry, raises [TypeError]. *)
Lemma aware_start_stops_the_loop_witness :
  _check_and_execute fromisoformat_basic zulu_daemon midnight_us
  = Raise TypeError.
Proof.
  apply (aware_start_stops_the_loop fromisoformat_basic zulu_daemon
           zulu_entry []
           (mk_datetime midnight_us (Some 0))
           (mk_datetime (midnight_us + 1800 * US_PER_SECOND) (Some 0)));
    vm_compute; reflexivity.
Defined.

(** X10 (witness): a start time of [None] is accepted, and the next tick
    raises [AttributeError]. *)
Lemma non_string_start_stops_the_loop_witness :
  current_schedule
    (_process_schedule (BatteryDaemon_init "RPI-001")
       (VList [null_start_entry]) true)
  = VList [null_start_entry]
  /\ _check_and_execute fromisoformat_basic
       (_process_schedule (BatteryDaemon_init "RPI-001")
          (VList [null_start_entry]) true)
       midnight_us
     = Raise AttributeError.
Proof.
  destruct (non_string_start_stops_the_loop fromisoformat_basic
              (BatteryDaemon_init "RPI-001") null_start_entry [] VNone true)
    as [Hs Ht].
  - vm_compute. reflexivity.
  - reflexivity.
  - discriminate.
  - split; [exact Hs|]. exact (proj1 (Ht midnight_us)).
Defined.

(** X14 (witness): the schedule arrives by MQTT, and the tick ten seconds
    past midnight makes one call, which succeeds. *)
Lemma every_dispatch_succeeds_witness :
  Forall (fun d => d_success d = true
                   /\ exists actual, d_actual_rate d = Some (VFloat actual))
    [ {| d_index := 0; d_mode := VInt 1; d_rate_kw := VInt 100;
         d_success := true; d_actual_rate := Some (VFloat 98) |} ].
Proof.
  apply (every_dispatch_succeeds fromisoformat_basic "RPI-001"
           [Mqtt schedule_message true] (midnight_us + 10 * US_PER_SECOND)).
  vm_compute. reflexivity.
Defined.

(** X21 (witness): the mode arrives as the string ["2"] and the rate as the
    int 50; the result carries the int 2 and the float 50.0 and is an entry
    the agent accepts. *)
Lemma validate_schedule_entry_input_output_witness :
  locally_acceptable
    (make_entry "2025-12-25T00:00:00Z" "2025-12-25T00:30:00Z"
                (VInt 2) (VFloat 50)).
Proof.
  destruct (validate_schedule_entry_input_output str_of_value int_of_digits
              float_of_digits
              (make_entry " 2025-12-25T00:00:00Z" "2025-12-25T00:30:00Z "
                          (VStr "2") (VInt 50))
              (make_entry "2025-12-25T00:00:00Z" "2025-12-25T00:30:00Z"
                          (VInt 2) (VFloat 50)))
    as (d & s & e & m & r & _ & _ & _ & _ & _ & _ & _ & _ & _ & _ & _ & _ & _ & H).
  - vm_compute. reflexivity.
  - exact H.
Defined.

(** X22 (witness): a timestamp with a fraction and a [Z]. *)
Lemma well_formed_timestamps_unchanged_witness :
  sanitize_string str_of_value (VStr "2025-12-25T07:05:59.123Z") (Some 50)
  = "2025-12-25T07:05:59.123Z".
Proof.
  apply (well_formed_timestamps_unchanged str_of_value int_of_digits
           float_of_digits written_with_Z written_with_Z (VInt 1) (VInt 100)
           (make_entry "2025-12-25T07:05:59.123Z" "2025-12-25T07:05:59.123Z"
                       (VInt 1) (VFloat 100))
           written_with_Z_well_formed written_with_Z_well_formed).
  vm_compute. reflexivity.
Defined.

(** X24 (witness): the two half hours are submitted for device RPI-001, and
    the agent accepts what the route stores. *)
Lemma create_schedule_submits_valid_witness :
  (validate_schedule_locally (VList requested_entries)).1 = true.
Proof.
  apply (create_schedule_submits_valid str_of_value int_of_digits
           float_of_digits " RPI-001" "RPI-001" requested_entries
           requested_entries).
  vm_compute. reflexivity.
Defined.

(** [float(2 ** 1024)] raises [OverflowError]. *)
Example huge_rate_overflows : float_of_Z (2 ^ 1024) = Raise OverflowError.
Proof. vm_compute. reflexivity. Qed.

(** X16 (witness): the two half hours, the later one listed first. *)
Lemma validate_schedule_order_independent_witness :
  validate_schedule float_of_digits default_validator
    (VList (rev contiguous_schedule)) None
  = Ok (true, []).
Proof.
  apply (validate_schedule_order_independent float_of_digits
           default_validator contiguous_schedule (rev contiguous_schedule)
           (Some "RPI-001") None).
  - apply Permutation_rev.
  - vm_compute. reflexivity.
Defined.

(** X17 (witness): the first entry has mode 3; the two entries overlap, and
    the only error is the one of the first entry. *)
Lemma validate_schedule_entry_errors_only_witness :
  false = false
  /\ Forall2 (fun m i =>
                exists e err,
                  mixed_schedule !! i = Some e
                  /\ validate_schedule_entry float_of_digits default_validator
                       e (Some i)
                     = Ok (false, err)
                  /\ m = error_text err)
             [MsgModeNotAllowed (EntryPrefix 0) (VInt 3)]
             (dropped_from float_of_digits default_validator 0 mixed_schedule).
Proof.
  apply (validate_schedule_entry_errors_only float_of_digits
           default_validator mixed_schedule None).
  - vm_compute. discriminate.
  - vm_compute. reflexivity.
Defined.

(** X18 (witness): half an hour of discharge at a rate of ["100"]. *)
Lemma string_rate_divides_the_validators_witness :
  validate_schedule float_of_digits default_validator
    (VList [VDict string_rate_fields]) None
  = Ok (true, [])
  /\ validate_schedule_locally (VList [VDict string_rate_fields])
     = (false, [LocalBadRate 0 (VStr "100")])
  /\ forall self' db_ok,
       _process_schedule self' (VList [VDict string_rate_fields]) db_ok
       = self'.
Proof.
  apply (string_rate_divides_the_validators float_of_digits
           string_rate_fields
           (VStr "2025-12-25T00:00:00Z") (VStr "2025-12-25T00:30:00Z")
           (VInt 1) "100" 100%float None);
    try reflexivity.
  - exists (mk_datetime midnight_us None),
           (mk_datetime (midnight_us + 1800 * US_PER_SECOND) None).
    repeat split; try (vm_compute; reflexivity); vm_compute; discriminate.
  - exists 1. split; [reflexivity|].
    apply elem_of_union_l, elem_of_singleton. reflexivity.
Defined.
